(** * Profile settings of the QGIS templates and symbology plugin

    A shallow embedding of [src/qgis_templates_symbology/conf.py]: the
    [ProfileSettings], [TemplateSettings] and [SymbologySettings] decoders
    and the [SettingsManager] operations, over a model of the hierarchical
    key-value store they are written against ([QgsSettings]). *)

From Stdlib Require Import NArith Ascii String.
From stdpp Require Import gmap strings list fin_maps lexico sorting.

Open Scope string_scope.
Open Scope list_scope.

(** ** Python values and exceptions *)

(** The exceptions the module can raise, with their messages. *)
Inductive exn : Type :=
  | ValueError (msg : string)
  | AttributeError (msg : string)
  | TypeError (msg : string).

(** The outcome of a call: a returned value or a raised exception. *)
Inductive result (A : Type) : Type :=
  | Ok (a : A)
  | Raise (e : exn).
Arguments Ok {A} a.
Arguments Raise {A} e.

Definition rbind {A B} (r : result A) (k : A -> result B) : result B :=
  match r with
  | Ok a => k a
  | Raise e => Raise e
  end.

Notation "x <- r ;; k" := (rbind r (fun x => k))
  (at level 100, r at next level, right associativity).

(** [str(x)] of a value that is a string or [None]. *)
Definition py_str (v : option string) : string :=
  match v with
  | Some s => s
  | None => "None"
  end.

(** ** The settings store

    [QgsSettings] keeps one value per key.  It cleans every key and
    group name it is given with [QDir::cleanPath] and hands the result
    to [QSettings], for which a key is a path of non-empty segments
    written with [/] between them: leading, trailing and repeated
    slashes do not count. *)

Fixpoint split_path_from (cur s : string) : list string :=
  match s with
  | EmptyString => if decide (cur = "") then [] else [cur]
  | String c s' =>
      if decide (c = "/"%char)
      then (if decide (cur = "") then [] else [cur]) ++ split_path_from "" s'
      else split_path_from (cur +:+ String c "") s'
  end.

Definition split_path (s : string) : list string := split_path_from "" s.

(** [QDir::cleanPath] on the segments of a path, read from the last to
    the first as Qt reads them: a [.] is dropped, and a [..] takes away
    the nearest segment before it that is still there; [up] counts the
    [..] that have not found theirs yet, and those left at the end stay
    in front.  The result is last segment first. *)
Fixpoint clean_from (up : nat) (segments : list string) : list string :=
  match segments with
  | [] => replicate up ".."
  | s :: rest =>
      if decide (s = ".") then clean_from up rest
      else if decide (s = "..") then clean_from (S up) rest
      else
        match up with
        | O => s :: clean_from O rest
        | S up' => clean_from up' rest
        end
  end.

Definition clean_segments (segments : list string) : list string :=
  reverse (clean_from 0 (reverse segments)).

Definition starts_with_slash (s : string) : bool :=
  match s with
  | String c _ => bool_decide (c = "/"%char)
  | EmptyString => false
  end.

(** [sanitizeKey(key)], as the segments [QSettings] makes of the cleaned
    key.  A relative path that cleans to nothing is written [.]; the
    empty path and a path from the root that cleans to nothing have no
    segment.  Separators are those of POSIX.  The paths the module
    builds all start with the name of the plugin's group, and the keys
    it uses inside a group are single names: none starts at the root. *)
Definition sanitizeKey (key : string) : list string :=
  match clean_segments (split_path key) with
  | [] =>
      if bool_decide (key = "") || starts_with_slash key then [] else ["."]
  | segments => segments
  end.

(** The backing store shared by every [QgsSettings] instance of the
    process.  A stored [None] is the invalid variant that
    [setValue(key, None)] leaves behind: the key exists and reads as
    [None], or as the default where the caller gives one. *)
Abbreviation store := (gmap (list string) (option string)).

(** A [QgsSettings] instance: what it adds to the shared store is its
    current group. *)
Record QgsSettings : Type := { group : list string }.

Definition new_QgsSettings : QgsSettings := {| group := [] |}.

Definition beginGroup (h : QgsSettings) (prefix : string) : QgsSettings :=
  {| group := group h ++ sanitizeKey prefix |}.

Definition full_key (h : QgsSettings) (key : string) : list string :=
  group h ++ sanitizeKey key.

Definition value (h : QgsSettings) (key : string) (m : store) : option string :=
  mjoin (m !! full_key h key).

(** [value(key, defaultValue)]: the default stands in for a key that
    does not exist and for one whose value is null. *)
Definition value_or (h : QgsSettings) (key : string)
    (defaultValue : option string) (m : store) : option string :=
  match m !! full_key h key with
  | Some (Some v) => Some v
  | Some None | None => defaultValue
  end.

Definition setValue (h : QgsSettings) (key : string) (v : option string)
    (m : store) : store :=
  <[full_key h key := v]> m.

(** [remove(key)] drops the key and every setting below it. *)
Definition remove (h : QgsSettings) (key : string) (m : store) : store :=
  filter (fun kv => ¬ full_key h key `prefix_of` kv.1) m.

(** The name of the child group of [g] that the key [k] lies in, when it
    lies in one: [k] is [g], then the name, then at least one more
    segment. *)
Fixpoint child_group (g k : list string) : option string :=
  match g, k with
  | [], c :: _ :: _ => Some c
  | a :: g', b :: k' => if decide (a = b) then child_group g' k' else None
  | _, _ => None
  end.

(** The order of names: character by character, by code. *)
Definition name_le (a b : string) : Prop := String.leb a b = true.

Global Instance name_le_dec : RelDecision name_le.
Proof. intros a b. unfold name_le. apply _. Defined.

(** [childGroups()]: the immediate child groups of the current group,
    each once, sorted by name. *)
Definition childGroups (h : QgsSettings) (m : store) : list string :=
  merge_sort name_le
    (remove_dups (omap (child_group (group h)) (map_to_list m).*1)).

(** [with qgis_settings(group_root) as settings]: a fresh instance inside
    the group.  The closing [endGroup] acts on that instance alone, which
    is dropped when the block ends. *)
Definition qgis_settings (group_root : string) : QgsSettings :=
  beginGroup new_QgsSettings group_root.

(** ** Numerals

    Digits in a radix up to sixteen, as [str.format] writes them and
    [int] reads them back. *)

Definition digit_of (n : N) : ascii :=
  if (n <? 10)%N then ascii_of_N (48 + n) else ascii_of_N (87 + n).

Definition digit_val (c : ascii) : option N :=
  let k := N_of_ascii c in
  if (48 <=? k)%N && (k <=? 57)%N then Some (k - 48)%N
  else if (97 <=? k)%N && (k <=? 102)%N then Some (k - 87)%N
  else if (65 <=? k)%N && (k <=? 70)%N then Some (k - 55)%N
  else None.

(** [n] written with exactly [w] digits, most significant first. *)
Fixpoint numeral (base : N) (w : nat) (n : N) : list ascii :=
  match w with
  | O => []
  | S w' => numeral base w' (n / base)%N ++ [digit_of (n mod base)%N]
  end.

Fixpoint read_numeral_from (base acc : N) (l : list ascii) : option N :=
  match l with
  | [] => Some acc
  | c :: l' =>
      match digit_val c with
      | Some d =>
          if (d <? base)%N then read_numeral_from base (acc * base + d)%N l'
          else None
      | None => None
      end
  end.

Definition read_numeral (base : N) (l : list ascii) : option N :=
  match l with
  | [] => None
  | _ => read_numeral_from base 0 l
  end.

(** The digits of a literal that [int] reads: one underscore may stand
    between two digits. *)
Fixpoint read_digits (base acc : N) (after_digit : bool) (l : list ascii)
    : option N :=
  match l with
  | [] => if after_digit then Some acc else None
  | c :: l' =>
      if decide (c = "_"%char) then
        if after_digit then read_digits base acc false l' else None
      else
        match digit_val c with
        | Some d =>
            if (d <? base)%N then read_digits base (acc * base + d)%N true l'
            else None
        | None => None
        end
  end.

(** ** [repr] *)

(** [repr(s)] of a string whose characters are code points below 256:
    in single quotes, or in double quotes when the string holds a single
    quote and no double quote; the quote, the backslash and what does
    not print are escaped. *)
Definition double_quote : ascii := ascii_of_N 34.

Definition backslash : ascii := ascii_of_N 92.

Definition repr_char (quote c : ascii) : list ascii :=
  let k := N_of_ascii c in
  if bool_decide (c = quote) || bool_decide (c = backslash) then [backslash; c]
  else if (k =? 9)%N then [backslash; "t"%char]
  else if (k =? 10)%N then [backslash; "n"%char]
  else if (k =? 13)%N then [backslash; "r"%char]
  else if ((k <? 32) || (k =? 127) || ((128 <=? k) && (k <=? 160)) ||
           (k =? 173))%N
  then backslash :: "x"%char :: numeral 16 2 k
  else [c].

Definition py_repr (s : string) : string :=
  let l := list_ascii_of_string s in
  let quote :=
    if bool_decide ("'"%char ∈ l) && negb (bool_decide (double_quote ∈ l))
    then double_quote else "'"%char in
  string_of_list_ascii (quote :: concat (repr_char quote <$> l) ++ [quote]).

(** ** [uuid.UUID]

    A UUID is its 128-bit integer; two UUIDs are equal when their
    integers are. *)

Record UUID : Type := { uuid_int : N }.

Global Instance UUID_eq_dec : EqDecision UUID.
Proof. solve_decision. Defined.

Definition uuid_wf (u : UUID) : Prop := (uuid_int u < 2 ^ 128)%N.

(** The thirty-two digits in groups of 8-4-4-4-12. *)
Definition uuid_chars (hex : list ascii) : list ascii :=
  take 8 hex ++ "-"%char :: take 4 (drop 8 hex) ++
  "-"%char :: take 4 (drop 12 hex) ++
  "-"%char :: take 4 (drop 16 hex) ++
  "-"%char :: drop 20 hex.

(** [str(u)], in lower-case hexadecimal digits. *)
Definition uuid_str (u : UUID) : string :=
  string_of_list_ascii (uuid_chars (numeral 16 32 (uuid_int u))).

Fixpoint starts_with (p s : list ascii) : bool :=
  match p, s with
  | [], _ => true
  | a :: p', b :: s' => bool_decide (a = b) && starts_with p' s'
  | _ :: _, [] => false
  end.

(** [s.replace(old, '')], scanning from the left; [skip] counts the
    characters of a found occurrence still to drop. *)
Fixpoint erase_from (old : list ascii) (skip : nat) (s : list ascii)
    : list ascii :=
  match s with
  | [] => []
  | c :: s' =>
      match skip with
      | S k => erase_from old k s'
      | O =>
          if starts_with old s then erase_from old (length old - 1) s'
          else c :: erase_from old 0 s'
      end
  end.

Definition erase (old : string) (s : list ascii) : list ascii :=
  erase_from (list_ascii_of_string old) 0 s.

Fixpoint lstrip (chars s : list ascii) : list ascii :=
  match s with
  | [] => []
  | c :: s' => if bool_decide (c ∈ chars) then lstrip chars s' else s
  end.

(** [s.strip(chars)] *)
Definition strip (chars : string) (s : list ascii) : list ascii :=
  let cs := list_ascii_of_string chars in
  reverse (lstrip cs (reverse (lstrip cs s))).

(** The blanks that [int] skips around a literal, among the code points
    below 256. *)
Definition py_space : list ascii :=
  ascii_of_N <$> [9; 10; 11; 12; 13; 32; 133; 160]%N.

Definition drop_sign (s : list ascii) : list ascii :=
  match s with
  | c :: s' => if decide (c = "+"%char) then s' else s
  | [] => []
  end.

(** The prefix [0x], and the one underscore that may follow it. *)
Definition drop_prefix (s : list ascii) : list ascii :=
  match s with
  | z :: x :: s' =>
      if bool_decide (z = "0"%char) && bool_decide (x ∈ ["x"%char; "X"%char])
      then match s' with
           | u :: s'' => if decide (u = "_"%char) then s'' else s'
           | [] => []
           end
      else s
  | _ => s
  end.

(** [int(s, 16)] of a string without [-], which is all the constructor
    below hands it: blanks around the literal, a [+] sign, the prefix
    and digits of either case with single underscores between them. *)
Definition int_16 (s : list ascii) : option N :=
  let s := reverse (lstrip py_space (reverse (lstrip py_space s))) in
  read_digits 16 0 false (drop_prefix (drop_sign s)).

(** [uuid.UUID(hex)], as the constructor reads its string argument.
    The thirty-two characters left hold a number below [2 ^ 128], so
    that its check of the range never fails. *)
Definition uuid_of_string (hex : string) : result UUID :=
  let h := erase "uuid:" (erase "urn:" (list_ascii_of_string hex)) in
  let h := erase "-" (strip "{}" h) in
  if decide (length h = 32%nat) then
    match int_16 h with
    | Some n => Ok {| uuid_int := n |}
    | None =>
        Raise (ValueError ("invalid literal for int() with base 16: " +:+
                           py_repr (string_of_list_ascii h)))
    end
  else Raise (ValueError "badly formed hexadecimal UUID string").

(** ** [datetime.datetime]

    Naive date-times, as [strptime] and [now()] produce them. *)

Record datetime : Type := {
  year : N; month : N; day : N;
  hour : N; minute : N; second : N; microsecond : N
}.

Global Instance datetime_eq_dec : EqDecision datetime.
Proof. solve_decision. Defined.

Definition is_leap (y : N) : bool :=
  ((y mod 4 =? 0) && (negb (y mod 100 =? 0) || (y mod 400 =? 0)))%N.

Definition days_in_month (y m : N) : N :=
  if (m =? 2)%N then (if is_leap y then 29 else 28)%N
  else if bool_decide (m ∈ [4; 6; 9; 11]%N) then 30%N else 31%N.

(** The field ranges the [datetime] constructor enforces. *)
Definition dt_valid (d : datetime) : bool :=
  ((1 <=? year d) && (year d <=? 9999) &&
   (1 <=? month d) && (month d <=? 12) &&
   (1 <=? day d) && (day d <=? days_in_month (year d) (month d)) &&
   (hour d <=? 23) && (minute d <=? 59) && (second d <=? 59) &&
   (microsecond d <=? 999999))%N.

(** Date-times compare field by field, the year first. *)
Definition dt_key (d : datetime) : N * (N * (N * (N * (N * (N * N))))) :=
  (year d, (month d, (day d, (hour d, (minute d, (second d, microsecond d)))))).

Definition dt_lt (a b : datetime) : Prop := lexico (dt_key a) (dt_key b).

Global Instance dt_lt_dec : RelDecision dt_lt.
Proof. intros a b. unfold dt_lt. apply _. Defined.

(** [a > b] on values that may be [None]: comparing with [None] raises. *)
Definition py_gt (a b : option datetime) : result bool :=
  match a, b with
  | Some x, Some y => Ok (bool_decide (dt_lt y x))
  | _, _ =>
      Raise (TypeError "'>' not supported between instances of these types")
  end.

(** What a format string is made of. *)
Inductive fmt_item : Type :=
  | Directive (d : ascii)
  | Literal (c : ascii).

Fixpoint parse_format (fmt : list ascii) : list fmt_item :=
  match fmt with
  | [] => []
  | "%"%char :: d :: rest => Directive d :: parse_format rest
  | c :: rest => Literal c :: parse_format rest
  end.

(** [n] in decimal without leading zeros, for [n] up to 9999, the
    greatest year a [datetime] holds. *)
Definition decimal (n : N) : list ascii :=
  if (n <? 10)%N then numeral 10 1 n
  else if (n <? 100)%N then numeral 10 2 n
  else if (n <? 1000)%N then numeral 10 3 n
  else numeral 10 4 n.

(** [d.strftime(fmt)] for the numeric directives, as the C library
    writes them: the year in as many digits as it has, the others at
    their full width. *)
Definition render_directive (d : ascii) (t : datetime) : list ascii :=
  if decide (d = "Y"%char) then decimal (year t)
  else if decide (d = "m"%char) then numeral 10 2 (month t)
  else if decide (d = "d"%char) then numeral 10 2 (day t)
  else if decide (d = "H"%char) then numeral 10 2 (hour t)
  else if decide (d = "M"%char) then numeral 10 2 (minute t)
  else if decide (d = "S"%char) then numeral 10 2 (second t)
  else if decide (d = "f"%char) then numeral 10 6 (microsecond t)
  else ["%"%char; d].

Definition render_item (t : datetime) (i : fmt_item) : list ascii :=
  match i with
  | Directive d => render_directive d t
  | Literal c => [c]
  end.

Definition strftime (t : datetime) (fmt : string) : string :=
  string_of_list_ascii
    (concat (render_item t <$> parse_format (list_ascii_of_string fmt))).

(** [datetime.strptime(data, fmt)].  Each directive stands for the
    alternatives of character classes that the parser's table gives it;
    the first alternative that fits is taken, which is what matching the
    whole pattern gives when every directive is followed by a literal
    that is not a digit.  Literals match without regard to case. *)

Definition char_class : Type := ascii -> bool.

Definition one (a : ascii) : char_class := fun c => bool_decide (c = a).

Definition range (lo hi : ascii) : char_class := fun c =>
  ((N_of_ascii lo <=? N_of_ascii c) && (N_of_ascii c <=? N_of_ascii hi))%N.

Definition any_digit : char_class := range "0" "9".

Definition directive_pattern (d : ascii) : option (list (list char_class)) :=
  if decide (d = "d"%char) then
    Some [[one "3"; range "0" "1"]; [range "1" "2"; any_digit];
          [one "0"; range "1" "9"]; [range "1" "9"]; [one " "; range "1" "9"]]
  else if decide (d = "f"%char) then
    Some ((fun w => replicate w any_digit) <$> [6; 5; 4; 3; 2; 1]%nat)
  else if decide (d = "H"%char) then
    Some [[one "2"; range "0" "3"]; [range "0" "1"; any_digit]; [any_digit]]
  else if decide (d = "m"%char) then
    Some [[one "1"; range "0" "2"]; [one "0"; range "1" "9"]; [range "1" "9"]]
  else if decide (d = "M"%char) then
    Some [[range "0" "5"; any_digit]; [any_digit]]
  else if decide (d = "S"%char) then
    Some [[one "6"; range "0" "1"]; [range "0" "5"; any_digit]; [any_digit]]
  else if decide (d = "Y"%char) then
    Some [replicate 4 any_digit]
  else None.

Fixpoint match_classes (cs : list char_class) (s : list ascii)
    : option (list ascii * list ascii) :=
  match cs, s with
  | [], _ => Some ([], s)
  | k :: cs', c :: s' =>
      if k c then
        match match_classes cs' s' with
        | Some (txt, r) => Some (c :: txt, r)
        | None => None
        end
      else None
  | _ :: _, [] => None
  end.

Fixpoint first_match (alts : list (list char_class)) (s : list ascii)
    : option (list ascii * list ascii) :=
  match alts with
  | [] => None
  | a :: alts' =>
      match match_classes a s with
      | Some r => Some r
      | None => first_match alts' s
      end
  end.

(** [int(txt)] of a matched field; the blank a day may start with is
    skipped. *)
Definition field_int (txt : list ascii) : N :=
  default 0%N
    (read_numeral_from 10 0 (filter (fun c => c ≠ " "%char) txt)).

Definition set_field (d : ascii) (txt : list ascii) (t : datetime) : datetime :=
  if decide (d = "Y"%char) then
    {| year := field_int txt; month := month t; day := day t; hour := hour t;
       minute := minute t; second := second t; microsecond := microsecond t |}
  else if decide (d = "m"%char) then
    {| year := year t; month := field_int txt; day := day t; hour := hour t;
       minute := minute t; second := second t; microsecond := microsecond t |}
  else if decide (d = "d"%char) then
    {| year := year t; month := month t; day := field_int txt; hour := hour t;
       minute := minute t; second := second t; microsecond := microsecond t |}
  else if decide (d = "H"%char) then
    {| year := year t; month := month t; day := day t; hour := field_int txt;
       minute := minute t; second := second t; microsecond := microsecond t |}
  else if decide (d = "M"%char) then
    {| year := year t; month := month t; day := day t; hour := hour t;
       minute := field_int txt; second := second t;
       microsecond := microsecond t |}
  else if decide (d = "S"%char) then
    {| year := year t; month := month t; day := day t; hour := hour t;
       minute := minute t; second := field_int txt;
       microsecond := microsecond t |}
  else
    {| year := year t; month := month t; day := day t; hour := hour t;
       minute := minute t; second := second t;
       microsecond :=
         field_int (txt ++ replicate (6 - length txt) "0"%char) |}.

Definition lower (c : ascii) : ascii :=
  let k := N_of_ascii c in
  if ((65 <=? k) && (k <=? 90))%N then ascii_of_N (k + 32) else c.

(** The text a directive matches at the head of [s], and what follows. *)
Definition read_field (d : ascii) (s : list ascii)
    : option (list ascii * list ascii) :=
  match directive_pattern d with
  | Some alts => first_match alts s
  | None => None
  end.

Fixpoint strptime_items (items : list fmt_item) (s : list ascii)
    (t : datetime) : option datetime :=
  match items with
  | [] => match s with [] => Some t | _ :: _ => None end
  | Literal c :: rest =>
      match s with
      | c' :: s' =>
          if decide (lower c = lower c') then strptime_items rest s' t
          else None
      | [] => None
      end
  | Directive d :: rest =>
      match read_field d s with
      | Some (txt, s') => strptime_items rest s' (set_field d txt t)
      | None => None
      end
  end.

(** The fields a format leaves out: 1900-01-01 00:00:00. *)
Definition strptime_default : datetime :=
  {| year := 1900; month := 1; day := 1;
     hour := 0; minute := 0; second := 0; microsecond := 0 |}.

Definition strptime (data fmt : string) : result datetime :=
  match strptime_items (parse_format (list_ascii_of_string fmt))
          (list_ascii_of_string data) strptime_default with
  | Some t =>
      if dt_valid t then Ok t
      else Raise (ValueError "value out of range for a date")
  | None => Raise (ValueError "time data does not match format")
  end.

(** ** The records *)

Module TemplateSettings.
(** Modelled from the spec: the [Template] class of [models.py], which
    the spec gives the two fields [id] and [name].  Either reads as
    [None] when its key is missing. *)
Record t : Type := { name : option string; id : option string }.

Definition from_qgs_settings (identifier : string) (settings : QgsSettings)
    (m : store) : t :=
  {| name := value settings "name" m; id := value settings "id" m |}.
End TemplateSettings.

Module SymbologySettings.
(** Modelled from the spec: the [Symbology] class of [models.py], of the
    same shape as [Template]. *)
Record t : Type := { name : option string; id : option string }.

Definition from_qgs_settings (identifier : string) (settings : QgsSettings)
    (m : store) : t :=
  {| name := value settings "name" m; id := value settings "id" m |}.
End SymbologySettings.

(** ** [SettingsManager]: names and paths *)

Definition BASE_GROUP_NAME : string := "qgis_templates_symbology".
Definition PROFILE_GROUP_NAME : string := "profiles".
Definition SELECTED_PROFILE_KEY : string := "selected_profile".
Definition TEMPLATE_GROUP_NAME : string := "templates".
Definition SYMBOLOGY_GROUP_NAME : string := "symbology".

(** The identifier arrives as [str(identifier)] makes it. *)
Definition _get_profile_settings_base (identifier : string) : string :=
  BASE_GROUP_NAME +:+ "/" +:+ PROFILE_GROUP_NAME +:+ "/" +:+ identifier.

Definition _get_template_settings_base (profile_identifier : UUID)
    (identifier : string) : string :=
  BASE_GROUP_NAME +:+ "/" +:+ PROFILE_GROUP_NAME +:+ "/" +:+
  uuid_str profile_identifier +:+ "/" +:+ TEMPLATE_GROUP_NAME +:+ "/" +:+
  identifier.

Definition _get_symbology_settings_base (profile_identifier : UUID)
    (identifier : string) : string :=
  BASE_GROUP_NAME +:+ "/" +:+ PROFILE_GROUP_NAME +:+ "/" +:+
  uuid_str profile_identifier +:+ "/" +:+ SYMBOLOGY_GROUP_NAME +:+ "/" +:+
  identifier.

Definition get_templates (profile_identifier : UUID) (m : store)
    : list TemplateSettings.t :=
  let settings :=
    qgis_settings
      (BASE_GROUP_NAME +:+ "/" +:+ PROFILE_GROUP_NAME +:+ "/" +:+
       uuid_str profile_identifier +:+ "/" +:+ TEMPLATE_GROUP_NAME) in
  (fun uuid =>
     let template_settings_key :=
       _get_template_settings_base profile_identifier uuid in
     let template_settings := qgis_settings template_settings_key in
     TemplateSettings.from_qgs_settings uuid template_settings m)
  <$> childGroups settings m.

Definition get_symbology (profile_identifier : UUID) (m : store)
    : list SymbologySettings.t :=
  let settings :=
    qgis_settings
      (BASE_GROUP_NAME +:+ "/" +:+ PROFILE_GROUP_NAME +:+ "/" +:+
       uuid_str profile_identifier +:+ "/" +:+ SYMBOLOGY_GROUP_NAME) in
  (fun uuid =>
     let symbology_settings_key :=
       _get_symbology_settings_base profile_identifier uuid in
     let symbology_settings := qgis_settings symbology_settings_key in
     SymbologySettings.from_qgs_settings uuid symbology_settings m)
  <$> childGroups settings m.

Definition DATE_FORMAT : string := "%Y-%m-%dT%H:%M:%S.%fZ".

Module ProfileSettings.
Record t : Type := {
  id : UUID;
  name : option string;
  path : option string;
  templates : list TemplateSettings.t;
  symbology : list SymbologySettings.t;
  created_date : option datetime
}.

(** The [try] block, statement by statement: the two lists as they
    stand when the block is left, and the date or the exception it
    ends with. *)
Definition read_children_and_date (identifier : string)
    (settings : QgsSettings) (m : store)
    : list TemplateSettings.t * list SymbologySettings.t *
      result (option datetime) :=
  match uuid_of_string identifier with
  | Raise e => ([], [], Raise e)
  | Ok u =>
      let templates := get_templates u m in
      match uuid_of_string identifier with
      | Raise e => (templates, [], Raise e)
      | Ok u' =>
          let symbology := get_symbology u' m in
          (templates, symbology,
           match value settings "created_date" m with
           | Some v => d <- strptime v DATE_FORMAT;; Ok (Some d)
           | None => Ok None
           end)
      end
  end.

(** [now] is what [datetime.datetime.now()] returns during the call. *)
Definition from_qgs_settings (now : datetime) (identifier : string)
    (settings : QgsSettings) (m : store) : result t :=
  let '(templates, symbology, outcome) :=
    read_children_and_date identifier settings m in
  created_date <-
    match outcome with
    | Raise (AttributeError _) => Ok (Some now)
    | other => other
    end;;
  id <- uuid_of_string identifier;;
  Ok {| id := id;
        name := value settings "name" m;
        path := value settings "path" m;
        templates := templates;
        symbology := symbology;
        created_date := created_date |}.
End ProfileSettings.

(** ** [SettingsManager]: queries *)

(** A [for] loop that appends one decoded record per element and stops
    at the first exception. *)
Fixpoint collect {A B} (f : A -> result B) (l : list A) : result (list B) :=
  match l with
  | [] => Ok []
  | a :: l' => b <- f a;; bs <- collect f l';; Ok (b :: bs)
  end.

Definition list_profiles (now : datetime) (m : store)
    : result (list ProfileSettings.t) :=
  let settings :=
    qgis_settings (BASE_GROUP_NAME +:+ "/" +:+ PROFILE_GROUP_NAME) in
  collect
    (fun profile_id =>
       let profile_settings_key := _get_profile_settings_base profile_id in
       let profile_settings := qgis_settings profile_settings_key in
       ProfileSettings.from_qgs_settings now profile_id profile_settings m)
    (childGroups settings m).

Definition get_profile_settings (now : datetime) (identifier : UUID)
    (m : store) : result ProfileSettings.t :=
  let settings_key := _get_profile_settings_base (uuid_str identifier) in
  let settings := qgis_settings settings_key in
  ProfileSettings.from_qgs_settings now (uuid_str identifier) settings m.

(** The loop of [find_profile_by_name] with its [else] clause: the
    identifier of the first group whose name is the one looked for. *)
Fixpoint find_id (name : string) (m : store) (groups : list string)
    : result UUID :=
  match groups with
  | [] =>
      Raise (ValueError ("Could not find a profile named " +:+ py_repr name +:+
                         " in QgsSettings"))
  | profile_id :: groups' =>
      let profile_settings_key := _get_profile_settings_base profile_id in
      let profile_settings := qgis_settings profile_settings_key in
      let profile_name := value profile_settings "name" m in
      if decide (profile_name = Some name) then uuid_of_string profile_id
      else find_id name m groups'
  end.

Definition find_profile_by_name (now : datetime) (name : string) (m : store)
    : result ProfileSettings.t :=
  let settings :=
    qgis_settings (BASE_GROUP_NAME +:+ "/" +:+ PROFILE_GROUP_NAME) in
  found_id <- find_id name m (childGroups settings m);;
  get_profile_settings now found_id m.

Definition get_current_profile (now : datetime) (m : store)
    : result (option ProfileSettings.t) :=
  let settings := qgis_settings BASE_GROUP_NAME in
  let current := value settings SELECTED_PROFILE_KEY m in
  match current with
  | Some c =>
      u <- uuid_of_string c;;
      p <- get_profile_settings now u m;;
      Ok (Some p)
  | None => Ok None
  end.

(** The loop of [get_latest_profile]: a later profile replaces the one
    held only when its date is strictly greater. *)
Fixpoint latest_of (latest_profile : ProfileSettings.t)
    (l : list ProfileSettings.t) : result ProfileSettings.t :=
  match l with
  | [] => Ok latest_profile
  | profile :: l' =>
      newer <- py_gt (ProfileSettings.created_date profile)
                     (ProfileSettings.created_date latest_profile);;
      latest_of (if newer then profile else latest_profile) l'
  end.

Definition get_latest_profile (now : datetime) (m : store)
    : result (option ProfileSettings.t) :=
  profile_list <- list_profiles now m;;
  match profile_list with
  | [] => Ok None
  | first :: _ => latest <- latest_of first profile_list;; Ok (Some latest)
  end.

Definition is_current_profile (now : datetime) (identifier : UUID)
    (m : store) : result bool :=
  current <- get_current_profile now m;;
  Ok match current with
     | None => false
     | Some c => bool_decide (ProfileSettings.id c = identifier)
     end.

Definition is_profile (now : datetime) (identifier : UUID) (m : store)
    : result bool :=
  profiles <- list_profiles now m;;
  Ok (existsb (fun profile => bool_decide (ProfileSettings.id profile = identifier))
        profiles).

(** ** [SettingsManager]: updates

    An update runs on the manager's state: the store, and how many times
    the signal [profiles_settings_updated] has been emitted.  What was
    written before an exception stays written. *)

Record manager : Type := { settings : store; emitted : nat }.

Definition M (A : Type) : Type := manager -> result A * manager.

Definition ret {A} (a : A) : M A := fun w => (Ok a, w).

Definition raise {A} (e : exn) : M A := fun w => (Raise e, w).

Definition lift {A} (r : result A) : M A := fun w => (r, w).

Definition bind {A B} (c : M A) (k : A -> M B) : M B := fun w =>
  match c w with
  | (Ok a, w') => k a w'
  | (Raise e, w') => (Raise e, w')
  end.

Notation "x <~ c ;; k" := (bind c (fun x => k))
  (at level 100, c at next level, right associativity).
Notation "c ;;; k" := (bind c (fun _ => k))
  (at level 100, right associativity).

(** A query of the store, which may raise. *)
Definition query {A} (f : store -> result A) : M A := fun w =>
  (f (settings w), w).

(** A write to the store. *)
Definition update (f : store -> store) : M unit := fun w =>
  (Ok tt, {| settings := f (settings w); emitted := emitted w |}).

(** [self.profiles_settings_updated.emit()] *)
Definition emit : M unit := fun w =>
  (Ok tt, {| settings := settings w; emitted := S (emitted w) |}).

Fixpoint for_each {A} (l : list A) (body : A -> M unit) : M unit :=
  match l with
  | [] => ret tt
  | a :: l' => body a ;;; for_each l' body
  end.

Definition save_template (profile : ProfileSettings.t)
    (template_settings : TemplateSettings.t) : M unit :=
  let settings_key :=
    _get_template_settings_base (ProfileSettings.id profile)
      (py_str (TemplateSettings.id template_settings)) in
  let settings := qgis_settings settings_key in
  update (setValue settings "name" (TemplateSettings.name template_settings)) ;;;
  update (setValue settings "id" (TemplateSettings.id template_settings)).

Definition save_symbology (profile : ProfileSettings.t)
    (symbology_settings : SymbologySettings.t) : M unit :=
  let settings_key :=
    _get_symbology_settings_base (ProfileSettings.id profile)
      (py_str (SymbologySettings.id symbology_settings)) in
  let settings := qgis_settings settings_key in
  update (setValue settings "name" (SymbologySettings.name symbology_settings)) ;;;
  update (setValue settings "id" (SymbologySettings.id symbology_settings)).

(** [created_date.strftime(...)]: a date that is [None] has no such
    method. *)
Definition date_strftime (d : option datetime) (fmt : string) : result string :=
  match d with
  | Some t => Ok (strftime t fmt)
  | None =>
      Raise (AttributeError "'NoneType' object has no attribute 'strftime'")
  end.

(** The two loops are guarded by the truth of their lists, which skips
    them for the empty list, as the loops themselves do. *)
Definition save_profile_settings (profile_settings : ProfileSettings.t)
    : M unit :=
  let settings_key :=
    _get_profile_settings_base (uuid_str (ProfileSettings.id profile_settings)) in
  created_date <~
    lift (date_strftime (ProfileSettings.created_date profile_settings)
            DATE_FORMAT) ;;
  for_each (ProfileSettings.templates profile_settings)
    (fun template => save_template profile_settings template) ;;;
  for_each (ProfileSettings.symbology profile_settings)
    (fun symbology => save_symbology profile_settings symbology) ;;;
  let settings := qgis_settings settings_key in
  update (setValue settings "name" (ProfileSettings.name profile_settings)) ;;;
  update (setValue settings "path" (ProfileSettings.path profile_settings)) ;;;
  update (setValue settings "created_date" (Some created_date)) ;;;
  emit.

Definition clear_current_profile : M unit :=
  let settings := qgis_settings BASE_GROUP_NAME in
  update (setValue settings SELECTED_PROFILE_KEY None) ;;;
  emit.

Definition delete_all_profiles : M unit :=
  let settings :=
    qgis_settings (BASE_GROUP_NAME +:+ "/" +:+ PROFILE_GROUP_NAME) in
  groups <~ query (fun m => Ok (childGroups settings m)) ;;
  for_each groups (fun profile_name => update (remove settings profile_name)) ;;;
  clear_current_profile ;;;
  emit.

Definition delete_profile (now : datetime) (identifier : UUID) : M unit :=
  current <~ query (is_current_profile now identifier) ;;
  (if current : bool then clear_current_profile else ret tt) ;;;
  let settings :=
    qgis_settings (BASE_GROUP_NAME +:+ "/" +:+ PROFILE_GROUP_NAME) in
  update (remove settings (uuid_str identifier)) ;;;
  emit.

(** The message of the exception formats [id], which there names the
    builtin function. *)
Definition set_current_profile (now : datetime) (identifier : UUID) : M unit :=
  profiles <~ query (list_profiles now) ;;
  if decide (identifier ∉ ProfileSettings.id <$> profiles) then
    raise (ValueError "Invalid profile identifier: <built-in function id>")
  else
    let serialized_id := uuid_str identifier in
    let settings := qgis_settings BASE_GROUP_NAME in
    update (setValue settings SELECTED_PROFILE_KEY (Some serialized_id)) ;;;
    emit.

(** ** [SettingsManager]: the plain accessors

    They go through the manager's own [QgsSettings] instance, which is
    in no group, and emit nothing. *)
Module SettingsManager.
Definition set_value (name : string) (value : option string) : M unit :=
  update (setValue new_QgsSettings (BASE_GROUP_NAME +:+ "/" +:+ name) value).

(** The call without a [setting_type]. *)
Definition get_value (name : string) (default : option string) (m : store)
    : option string :=
  value_or new_QgsSettings (BASE_GROUP_NAME +:+ "/" +:+ name) default m.

Definition remove (name : string) : M unit :=
  update (remove new_QgsSettings (BASE_GROUP_NAME +:+ "/" +:+ name)).
End SettingsManager.

(** * What the properties are stated with *)

(** ** Keys and groups *)

(** A name that is one path segment: not empty and free of slashes. *)
Definition is_segment (s : string) : Prop :=
  s <> "" /\ "/"%char ∉ list_ascii_of_string s.

(** A segment that cleaning leaves alone, and a path made of such. *)
Definition plain_name (s : string) : Prop := s <> "." /\ s <> "..".

Definition dot_free (path : string) : Prop :=
  Forall plain_name (split_path path).

(** A name that is one segment and names a group of its own. *)
Definition plain_segment (s : string) : Prop :=
  is_segment s /\ plain_name s.

Definition hex_lower : list ascii := list_ascii_of_string "0123456789abcdef".

(** The group all profile groups lie in, and the key of the pointer to
    the current profile. *)
Definition profiles_root : list string :=
  [BASE_GROUP_NAME; PROFILE_GROUP_NAME].

Definition pointer_key : list string :=
  [BASE_GROUP_NAME; SELECTED_PROFILE_KEY].

Definition profiles_settings : QgsSettings :=
  qgis_settings (BASE_GROUP_NAME +:+ "/" +:+ PROFILE_GROUP_NAME).

(** The group [G] ([templates] or [symbology]) of the profile group
    [uid], and the key of a field of its child record [s]. *)
Definition children_group (uid G : string) : QgsSettings :=
  {| group := profiles_root ++ [uid; G] |}.

Definition child_key (uid G s field : string) : list string :=
  profiles_root ++ [uid; G; s; field].

(** The instances [save_template] and [save_symbology] write through. *)
Definition template_settings (profile : ProfileSettings.t)
    (t : TemplateSettings.t) : QgsSettings :=
  qgis_settings
    (_get_template_settings_base (ProfileSettings.id profile)
       (py_str (TemplateSettings.id t))).

Definition symbology_settings (profile : ProfileSettings.t)
    (s : SymbologySettings.t) : QgsSettings :=
  qgis_settings
    (_get_symbology_settings_base (ProfileSettings.id profile)
       (py_str (SymbologySettings.id s))).

(** An identifier a child record can be stored under and found again
    by: a string that is one path segment, other than [.] and [..]. *)
Definition valid_child_id (i : option string) : Prop :=
  exists s, i = Some s /\ plain_segment s.

(** ** Decoded profiles *)

(** The record a profile group decodes to, given its date. *)
Definition decoded (u : UUID) (settings : QgsSettings) (m : store)
    (d : option datetime) : ProfileSettings.t :=
  {| ProfileSettings.id := u;
     ProfileSettings.name := value settings "name" m;
     ProfileSettings.path := value settings "path" m;
     ProfileSettings.templates := get_templates u m;
     ProfileSettings.symbology := get_symbology u m;
     ProfileSettings.created_date := d |}.

(** The record [get_profile_settings] returns for an identifier nothing
    was ever stored under. *)
Definition blank_profile (identifier : UUID) : ProfileSettings.t :=
  {| ProfileSettings.id := identifier;
     ProfileSettings.name := None;
     ProfileSettings.path := None;
     ProfileSettings.templates := [];
     ProfileSettings.symbology := [];
     ProfileSettings.created_date := None |}.




(** ** What the updates leave behind *)

(** The exception of [set_current_profile]; its message formats the
    builtin [id], not the identifier. *)
Definition invalid_profile_identifier : exn :=
  ValueError "Invalid profile identifier: <built-in function id>".

(** The state [set_current_profile] leaves when it goes through. *)
Definition selected (identifier : UUID) (w : manager) : manager :=
  {| settings := <[pointer_key := Some (uuid_str identifier)]> (settings w);
     emitted := S (emitted w) |}.

(** A run of [setValue] calls, first to last. *)
Fixpoint write_all (ws : list (list string * option string)) (m : store)
    : store :=
  match ws with
  | [] => m
  | (k, v) :: ws' => write_all ws' (<[k := v]> m)
  end.

Definition written (ws : list (list string * option string)) (w : manager)
    : manager :=
  {| settings := write_all ws (settings w); emitted := emitted w |}.

Definition template_writes (profile : ProfileSettings.t)
    (t : TemplateSettings.t) : list (list string * option string) :=
  [(full_key (template_settings profile t) "name", TemplateSettings.name t);
   (full_key (template_settings profile t) "id", TemplateSettings.id t)].

Definition symbology_writes (profile : ProfileSettings.t)
    (s : SymbologySettings.t) : list (list string * option string) :=
  [(full_key (symbology_settings profile s) "name", SymbologySettings.name s);
   (full_key (symbology_settings profile s) "id", SymbologySettings.id s)].

(** The three writes of the profile's own fields. *)
Definition field_writes (profile : ProfileSettings.t) (created : string)
    : list (list string * option string) :=
  let uid := uuid_str (ProfileSettings.id profile) in
  [(profiles_root ++ [uid; "name"], ProfileSettings.name profile);
   (profiles_root ++ [uid; "path"], ProfileSettings.path profile);
   (profiles_root ++ [uid; "created_date"], Some created)].

(** The writes of [save_profile_settings], in the order it makes them. *)
Definition profile_writes (profile : ProfileSettings.t) (created : string)
    : list (list string * option string) :=
  let h :=
    qgis_settings
      (_get_profile_settings_base (uuid_str (ProfileSettings.id profile))) in
  concat (template_writes profile <$> ProfileSettings.templates profile) ++
  concat (symbology_writes profile <$> ProfileSettings.symbology profile) ++
  [(full_key h "name", ProfileSettings.name profile);
   (full_key h "path", ProfileSettings.path profile);
   (full_key h "created_date", Some created)].

(** The store once every profile group has been removed. *)
Definition without_profiles (m : store) : store :=
  foldl (fun m profile_name => remove profiles_settings profile_name m) m
    (childGroups profiles_settings m).

(** What a save of one child record does to the store: the two keys it
    sets read as the record's name and identifier, and every other key
    is as before. *)
Definition only_name_and_id_written (h : QgsSettings)
    (name id : option string) (m m' : store) : Prop :=
  value h "name" m' = name /\
  value h "id" m' = id /\
  (forall k, k <> full_key h "name" -> k <> full_key h "id" ->
             m' !! k = m !! k).

(** The pointer, the four-segment keys of the profile (its own fields
    among them) and the subtrees of the other profiles are as before. *)
Definition outside_untouched (profile : ProfileSettings.t) (m m' : store)
    : Prop :=
  m' !! pointer_key = m !! pointer_key /\
  (forall field : string,
     m' !! (profiles_root ++ [uuid_str (ProfileSettings.id profile); field]) =
     m !! (profiles_root ++ [uuid_str (ProfileSettings.id profile); field])) /\
  (forall (g : string) (rest : list string),
     g <> uuid_str (ProfileSettings.id profile) ->
     m' !! (profiles_root ++ g :: rest) = m !! (profiles_root ++ g :: rest)).

(** ** The pointer to the current profile *)

(** A profile is stored when one of the groups under the profiles root
    has a name that reads as its identifier. *)
Definition profile_stored (m : store) (u : UUID) : Prop :=
  exists g, g ∈ childGroups profiles_settings m /\ uuid_of_string g = Ok u.

(** What the pointer key reads as. *)
Definition current_pointer (m : store) : option string :=
  value (qgis_settings BASE_GROUP_NAME) SELECTED_PROFILE_KEY m.

(** The invariant: a pointer that is present reads as the identifier of
    a stored profile. *)
Definition pointer_valid (m : store) : Prop :=
  forall c, current_pointer m = Some c ->
            exists u, uuid_of_string c = Ok u /\ profile_stored m u.

(** The operations that change the store. *)
Inductive operation : Type :=
  | SaveProfile (profile : ProfileSettings.t)
  | DeleteProfile (identifier : UUID)
  | DeleteAllProfiles
  | SetCurrentProfile (identifier : UUID)
  | ClearCurrentProfile
  | SaveTemplate (profile : ProfileSettings.t) (t : TemplateSettings.t)
  | SaveSymbology (profile : ProfileSettings.t) (s : SymbologySettings.t).

Definition run (now : datetime) (op : operation) : M unit :=
  match op with
  | SaveProfile profile => save_profile_settings profile
  | DeleteProfile identifier => delete_profile now identifier
  | DeleteAllProfiles => delete_all_profiles
  | SetCurrentProfile identifier => set_current_profile now identifier
  | ClearCurrentProfile => clear_current_profile
  | SaveTemplate profile t => save_template profile t
  | SaveSymbology profile s => save_symbology profile s
  end.

(** The identifiers handed to an operation are UUIDs: 128 bits. *)
Definition operation_wf (op : operation) : Prop :=
  match op with
  | DeleteProfile identifier | SetCurrentProfile identifier =>
      uuid_wf identifier
  | _ => True
  end.

(** ** Stores and managers to run the operations on *)

Definition sample_id : UUID := {| uuid_int := 48879 |}.

Definition other_id : UUID := {| uuid_int := 2 ^ 127 + 7 |}.

Definition sample_now : datetime :=
  {| year := 2024; month := 5; day := 17;
     hour := 9; minute := 30; second := 0; microsecond := 250000 |}.

Definition sample_date : datetime :=
  {| year := 2024; month := 2; day := 29;
     hour := 23; minute := 5; second := 59; microsecond := 1234 |}.

(** A stored profile with a name and a path and no date. *)
Definition undated_store : store :=
  <[profiles_root ++ [uuid_str sample_id; "name"] := Some "Default"]>
    (<[profiles_root ++ [uuid_str sample_id; "path"] := Some "/home/user/maps"]> ∅).

(** A stored profile whose date does not follow the date format. *)
Definition misdated_store : store :=
  <[profiles_root ++ [uuid_str sample_id; "created_date"] := Some "17 May 2024"]>
    undated_store.

Definition sample_profile : ProfileSettings.t :=
  {| ProfileSettings.id := sample_id;
     ProfileSettings.name := Some "Default";
     ProfileSettings.path := Some "/home/user/maps";
     ProfileSettings.templates :=
       [{| TemplateSettings.name := Some "Basic"; TemplateSettings.id := Some "t1" |}];
     ProfileSettings.symbology :=
       [{| SymbologySettings.name := Some "Roads"; SymbologySettings.id := Some "s1" |}];
     ProfileSettings.created_date := Some sample_date |}.


(** A profile whose template id holds a slash. *)
Definition slashed_profile : ProfileSettings.t :=
  {| ProfileSettings.id := sample_id;
     ProfileSettings.name := Some "Default";
     ProfileSettings.path := Some "/home/user/maps";
     ProfileSettings.templates :=
       [{| TemplateSettings.name := Some "Basic";
           TemplateSettings.id := Some "basic/a4" |}];
     ProfileSettings.symbology := [];
     ProfileSettings.created_date := Some sample_date |}.

(** A second profile, dated later than the sample profile. *)
Definition custom_profile : ProfileSettings.t :=
  {| ProfileSettings.id := other_id;
     ProfileSettings.name := Some "Custom";
     ProfileSettings.path := Some "/home/user/custom";
     ProfileSettings.templates := [];
     ProfileSettings.symbology := [];
     ProfileSettings.created_date := Some sample_now |}.

(** A date in the year 999, and the sample profile with that date. *)
Definition early_date : datetime :=
  {| year := 999; month := 12; day := 31;
     hour := 23; minute := 59; second := 59; microsecond := 0 |}.

Definition early_profile : ProfileSettings.t :=
  {| ProfileSettings.id := sample_id;
     ProfileSettings.name := Some "Default";
     ProfileSettings.path := Some "/home/user/maps";
     ProfileSettings.templates := [];
     ProfileSettings.symbology := [];
     ProfileSettings.created_date := Some early_date |}.

(** A template whose id names the group above its own, and a profile
    that holds it. *)
Definition parent_template : TemplateSettings.t :=
  {| TemplateSettings.name := Some "Basic"; TemplateSettings.id := Some ".." |}.

Definition dotted_profile : ProfileSettings.t :=
  {| ProfileSettings.id := sample_id;
     ProfileSettings.name := Some "Default";
     ProfileSettings.path := Some "/home/user/maps";
     ProfileSettings.templates := [parent_template];
     ProfileSettings.symbology := [];
     ProfileSettings.created_date := Some sample_date |}.

Definition sample_template : TemplateSettings.t :=
  {| TemplateSettings.name := Some "Basic"; TemplateSettings.id := Some "t1" |}.

Definition sample_symbology : SymbologySettings.t :=
  {| SymbologySettings.name := Some "Roads"; SymbologySettings.id := Some "s1" |}.

Definition empty_manager : manager := {| settings := ∅; emitted := 0 |}.

(** The sample profile saved; then selected; then the second profile
    saved next to it. *)
Definition sample_manager : manager :=
  (save_profile_settings sample_profile empty_manager).2.

(** The sample profile next to a group whose name is no UUID. *)
Definition mixed_store : store :=
  <[profiles_root ++ ["draft"; "name"] := Some "Draft"]>
    (settings sample_manager).

Definition selected_manager : manager :=
  (set_current_profile sample_now sample_id sample_manager).2.

Definition dated_manager : manager :=
  (save_profile_settings custom_profile sample_manager).2.

(** ** Segments, readable groups and child records *)


Global Instance is_segment_dec (s : string) : Decision (is_segment s).
Proof. unfold is_segment. apply _. Defined.

Global Instance plain_segment_dec (s : string) : Decision (plain_segment s).
Proof. unfold plain_segment, plain_name. apply _. Defined.

(** Every key of the store is made of path segments, as the keys that
    [setValue] makes are. *)
Definition store_wf (m : store) : Prop :=
  map_Forall (fun k _ => Forall is_segment k) m.

(** A profile group that decodes: its name reads as a UUID and its date
    key, when it holds a string, holds one in the date format. *)
Definition readable_group (m : store) (g : string) : Prop :=
  (exists u, uuid_of_string g = Ok u) /\
  (forall v,
     value (qgis_settings (_get_profile_settings_base g)) "created_date" m =
       Some v ->
     exists d, strptime v DATE_FORMAT = Ok d).

(** The exception of [find_profile_by_name]. *)
Definition profile_not_found (name : string) : exn :=
  ValueError ("Could not find a profile named " +:+ py_repr name +:+
              " in QgsSettings").

(** The group of the profile [u]. *)
Definition profile_group (u : UUID) : list string :=
  profiles_root ++ [uuid_str u].

(** The ids of the children of a profile, as strings, hold no [.] and no
    [..] segment: the groups of the children lie under the profile's. *)
Definition children_dot_free (profile : ProfileSettings.t) : Prop :=
  Forall (fun t => dot_free (py_str (TemplateSettings.id t)))
    (ProfileSettings.templates profile) /\
  Forall (fun y => dot_free (py_str (SymbologySettings.id y)))
    (ProfileSettings.symbology profile).

(** The record [get_templates] reads in the child group [c] of the
    profile's templates, and the one [get_symbology] reads. *)
Definition template_at (u : UUID) (c : string) (m : store)
    : TemplateSettings.t :=
  TemplateSettings.from_qgs_settings c
    (qgis_settings (_get_template_settings_base u c)) m.

Definition symbology_at (u : UUID) (c : string) (m : store)
    : SymbologySettings.t :=
  SymbologySettings.from_qgs_settings c
    (qgis_settings (_get_symbology_settings_base u c)) m.

(** The key the plain accessors reach under [name]. *)
Definition plain_key (name : string) : list string :=
  sanitizeKey (BASE_GROUP_NAME +:+ "/" +:+ name).

(** * Properties *)

(** ** Numerals *)

Lemma numeral_length base w n : length (numeral base w n) = w.
Proof.
  revert n; induction w as [|w IH]; intros n; simpl; [done|].
  rewrite length_app, IH; simpl; lia.
Qed.

Lemma digit_val_of (k : N) : (k < 16)%N -> digit_val (digit_of k) = Some k.
Proof.
  intros Hk.
  assert (H : exists j, (j < 16)%nat /\ k = N.of_nat j)
    by (exists (N.to_nat k); lia).
  destruct H as (j & Hj & ->). clear Hk.
  do 16 (destruct j as [|j]; [reflexivity|]). lia.
Qed.

Lemma read_numeral_from_app base acc l1 l2 :
  read_numeral_from base acc (l1 ++ l2) =
  match read_numeral_from base acc l1 with
  | Some a => read_numeral_from base a l2
  | None => None
  end.
Proof.
  revert acc; induction l1 as [|c l1 IH]; intros acc; simpl; [done|].
  destruct (digit_val c) as [d|]; [|done].
  destruct (d <? base)%N; [apply IH|done].
Qed.

Lemma read_numeral_from_numeral base w acc n :
  (2 <= base <= 16)%N ->
  read_numeral_from base acc (numeral base w n) =
  Some (acc * base ^ N.of_nat w + n mod base ^ N.of_nat w)%N.
Proof.
  intros Hb. revert acc n; induction w as [|w IH]; intros acc n.
  - simpl. f_equal. rewrite N.mod_1_r. lia.
  - cbn [numeral]. rewrite read_numeral_from_app, IH. cbn [read_numeral_from].
    rewrite digit_val_of by (pose proof (N.mod_lt n base); lia).
    assert (Hlt : (n mod base <? base)%N = true)
      by (apply N.ltb_lt, N.mod_lt; lia).
    rewrite Hlt. f_equal.
    rewrite Nat2N.inj_succ, N.pow_succ_r', (N.Div0.mod_mul_r n base). lia.
Qed.

Lemma read_numeral_numeral base w n :
  (2 <= base <= 16)%N -> (0 < w)%nat -> (n < base ^ N.of_nat w)%N ->
  read_numeral base (numeral base w n) = Some n.
Proof.
  intros Hb Hw Hn. unfold read_numeral.
  destruct (numeral base w n) eqn:E.
  - apply (f_equal length) in E. rewrite numeral_length in E. simpl in E. lia.
  - rewrite <- E, read_numeral_from_numeral by done.
    rewrite N.mod_small by done. f_equal; lia.
Qed.

(** ** Strings and paths *)

Lemma append_cons c (a b : string) : String c a +:+ b = String c (a +:+ b).
Proof. reflexivity. Qed.

Lemma append_empty_r (s : string) : s +:+ "" = s.
Proof.
  induction s as [|c s IH]; [done|]. by rewrite append_cons, IH.
Qed.

Lemma append_assoc (a b c : string) : (a +:+ b) +:+ c = a +:+ (b +:+ c).
Proof.
  induction a as [|x a IH]; [done|]. by rewrite !append_cons, IH.
Qed.

Lemma split_path_from_segment cur s :
  "/"%char ∉ list_ascii_of_string s -> cur +:+ s <> "" ->
  split_path_from cur s = [cur +:+ s].
Proof.
  revert cur; induction s as [|c s IH]; intros cur Hs Hne; simpl in *.
  - rewrite append_empty_r in *. by destruct (decide (cur = "")).
  - apply not_elem_of_cons in Hs as [Hc Hs].
    destruct (decide (c = "/"%char)) as [->|_]; [done|].
    rewrite IH; rewrite ?append_assoc; auto.
Qed.

Lemma split_path_segment s : is_segment s -> split_path s = [s].
Proof. intros [Hne Hs]. by apply (split_path_from_segment ""). Qed.

Lemma split_path_from_slash cur a b :
  split_path_from cur (a +:+ "/" +:+ b) = split_path_from cur a ++ split_path b.
Proof.
  revert cur; induction a as [|c a IH]; intros cur.
  - change ("" +:+ "/" +:+ b) with (String "/" b). simpl.
    unfold split_path. by destruct (decide (cur = "")).
  - rewrite append_cons. simpl.
    destruct (decide (c = "/"%char)); [|apply IH].
    by rewrite IH, <- app_assoc.
Qed.

Lemma split_path_slash a b :
  split_path (a +:+ "/" +:+ b) = split_path a ++ split_path b.
Proof. apply split_path_from_slash. Qed.

(** ** UUIDs and their string form *)

Lemma digit_of_hex_lower (k : N) : (k < 16)%N -> digit_of k ∈ hex_lower.
Proof.
  intros Hk.
  assert (H : exists j, (j < 16)%nat /\ k = N.of_nat j)
    by (exists (N.to_nat k); lia).
  destruct H as (j & Hj & ->). clear Hk.
  do 16 (destruct j as [|j];
         [apply (bool_decide_unpack _); vm_compute; exact I|]).
  lia.
Qed.

Lemma numeral_hex_lower w n : Forall (fun c => c ∈ hex_lower) (numeral 16 w n).
Proof.
  revert n; induction w as [|w IH]; intros n; simpl; [constructor|].
  apply Forall_app; split; [apply IH|].
  apply Forall_singleton, digit_of_hex_lower, N.mod_lt. lia.
Qed.

Lemma hex_lower_plain c :
  c ∈ hex_lower ->
  c <> "-"%char /\ c <> "u"%char /\ c <> "{"%char /\ c <> "}"%char /\
  c <> "/"%char.
Proof.
  unfold hex_lower; simpl; intros H.
  repeat (apply elem_of_cons in H as [->|H]; [by repeat split|]).
  by apply elem_of_nil in H.
Qed.

Lemma uuid_chars_plain hex c :
  Forall (fun c => c ∈ hex_lower) hex -> c ∈ uuid_chars hex ->
  c <> "u"%char /\ c <> "{"%char /\ c <> "}"%char /\ c <> "/"%char.
Proof.
  intros Hhex Hc.
  assert (Hin : c = "-"%char \/ c ∈ hex).
  { unfold uuid_chars in Hc.
    pose proof (subseteq_take (A:=ascii)) as Ht.
    pose proof (subseteq_drop (A:=ascii)) as Hd.
    repeat (apply elem_of_app in Hc as [Hc|Hc];
            [right; by apply Ht, Hd in Hc || by apply Ht in Hc|];
            apply elem_of_cons in Hc as [->|Hc]; [by left|]).
    right. by apply Hd in Hc. }
  destruct Hin as [->|Hin]; [done|].
  eapply Forall_forall in Hhex; [|done].
  apply hex_lower_plain in Hhex. tauto.
Qed.

Lemma erase_from_absent old c old' s :
  old = c :: old' -> c ∉ s -> erase_from old 0 s = s.
Proof.
  intros ->. induction s as [|x s IH]; intros Hs; [done|].
  apply not_elem_of_cons in Hs as [Hx Hs]. cbn [erase_from starts_with].
  rewrite bool_decide_eq_false_2 by done. simpl. by rewrite IH.
Qed.

Lemma erase_dash_app a b :
  "-"%char ∉ a -> erase "-" (a ++ "-"%char :: b) = a ++ erase "-" b.
Proof.
  unfold erase. simpl. induction a as [|x a IH]; intros Ha; [done|].
  apply not_elem_of_cons in Ha as [Hx Ha]. cbn [app erase_from starts_with].
  rewrite bool_decide_eq_false_2 by done. simpl. by rewrite IH.
Qed.

Lemma lstrip_absent cs s : Forall (fun c => c ∉ cs) s -> lstrip cs s = s.
Proof.
  intros [|x s' Hx _]; [done|]. simpl. by rewrite bool_decide_eq_false_2.
Qed.

Lemma strip_absent chars s :
  Forall (fun c => c ∉ list_ascii_of_string chars) s -> strip chars s = s.
Proof.
  intros Hs. unfold strip.
  rewrite (lstrip_absent _ s), lstrip_absent, reverse_involutive;
    [done| |done].
  by apply Forall_reverse.
Qed.

Lemma uuid_chars_erase_dash hex :
  Forall (fun c => c ∈ hex_lower) hex -> erase "-" (uuid_chars hex) = hex.
Proof.
  intros Hhex.
  assert (Hno : forall l, l ⊆ hex -> "-"%char ∉ l).
  { intros l Hl Hin. apply Hl in Hin.
    eapply Forall_forall in Hhex; [|done].
    apply hex_lower_plain in Hhex. tauto. }
  pose proof (subseteq_take (A:=ascii)) as Ht.
  pose proof (subseteq_drop (A:=ascii)) as Hd.
  unfold uuid_chars.
  rewrite !erase_dash_app by (apply Hno; set_solver).
  unfold erase. rewrite (erase_from_absent _ "-"%char []);
    [|done|apply Hno; set_solver].
  rewrite !app_assoc.
  rewrite (take_take_drop hex 8 4). change (8 + 4)%nat with 12%nat.
  rewrite (take_take_drop hex 12 4). change (12 + 4)%nat with 16%nat.
  rewrite (take_take_drop hex 16 4). change (16 + 4)%nat with 20%nat.
  apply take_drop.
Qed.

Lemma erase_absent c old s : c ∉ s -> erase (String c old) s = s.
Proof.
  intros Hs. by apply (erase_from_absent _ c (list_ascii_of_string old)).
Qed.

Lemma uuid_chars_cleaned hex :
  Forall (fun c => c ∈ hex_lower) hex ->
  erase "-" (strip "{}" (erase "uuid:" (erase "urn:" (uuid_chars hex)))) = hex.
Proof.
  intros Hhex.
  assert (Hplain : forall c, c ∈ uuid_chars hex ->
            c <> "u"%char /\ c <> "{"%char /\ c <> "}"%char /\ c <> "/"%char)
    by (intros c; by apply uuid_chars_plain).
  assert (Hu : "u"%char ∉ uuid_chars hex)
    by (intros Hin; apply Hplain in Hin; tauto).
  rewrite (erase_absent "u" "rn:") by done.
  rewrite (erase_absent "u" "uid:") by done.
  rewrite strip_absent; [by apply uuid_chars_erase_dash|].
  apply Forall_forall. intros c Hc Hin. apply Hplain in Hc. simpl in Hin.
  repeat (apply elem_of_cons in Hin as [->|Hin]; [tauto|]).
  by apply elem_of_nil in Hin.
Qed.

(** On digits alone, [int] reads the numeral. *)
Lemma read_digits_plain base acc (b : bool) l :
  Forall (fun c => c <> "_"%char) l -> b = true \/ l <> [] ->
  read_digits base acc b l = read_numeral_from base acc l.
Proof.
  intros Hl. revert acc b.
  induction Hl as [|c l Hc _ IH]; intros acc b Hb;
    cbn [read_digits read_numeral_from].
  - by destruct Hb as [->|?].
  - rewrite decide_False by done.
    destruct (digit_val c) as [d|]; [|done].
    destruct (d <? base)%N; [|done]. apply IH. by left.
Qed.

Lemma hex_lower_digit :
  Forall (fun c => (c ∉ py_space) /\ c <> "+"%char /\ c <> "_"%char /\
                   (c ∉ ["x"%char; "X"%char])) hex_lower.
Proof. apply (bool_decide_unpack _). vm_compute. exact I. Qed.

Lemma int_16_hex_lower (l : list ascii) :
  Forall (fun c => c ∈ hex_lower) l -> l <> [] ->
  int_16 l = read_numeral_from 16 0 l.
Proof.
  intros Hl Hne.
  assert (Hd : Forall (fun c => (c ∉ py_space) /\ c <> "+"%char /\
                                c <> "_"%char /\
                                (c ∉ ["x"%char; "X"%char])) l).
  { eapply Forall_impl; [exact Hl|]. intros c Hc.
    by apply (proj1 (Forall_forall _ _) hex_lower_digit). }
  unfold int_16.
  rewrite (lstrip_absent py_space l)
    by (eapply Forall_impl; [exact Hd|]; by intros c [? _]).
  rewrite lstrip_absent, reverse_involutive
    by (apply Forall_reverse; eapply Forall_impl; [exact Hd|];
        by intros c [? _]).
  destruct Hd as [|c l' (_ & Hsign & _ & _) Hd']; [done|].
  cbn [drop_sign]. rewrite decide_False by done.
  assert (Hprefix : drop_prefix (c :: l') = c :: l').
  { destruct Hd' as [|x l'' (_ & _ & _ & Hx) _]; [done|].
    cbn [drop_prefix]. rewrite (bool_decide_eq_false_2 _ Hx).
    by rewrite andb_false_r. }
  rewrite Hprefix. apply read_digits_plain; [|by right].
  eapply Forall_impl; [exact Hl|]. intros a Ha.
  by apply (proj1 (Forall_forall _ _) hex_lower_digit) in Ha as (_ & _ & ? & _).
Qed.

(** Reading back the string form of a UUID gives the UUID. *)
Lemma uuid_of_string_str (u : UUID) :
  uuid_wf u -> uuid_of_string (uuid_str u) = Ok u.
Proof.
  intros Hwf. unfold uuid_of_string, uuid_str.
  rewrite list_ascii_of_string_of_list_ascii.
  rewrite uuid_chars_cleaned by apply numeral_hex_lower.
  rewrite numeral_length. rewrite decide_True by reflexivity.
  rewrite int_16_hex_lower by (apply numeral_hex_lower || done).
  pose proof (read_numeral_numeral 16 32 (uuid_int u)) as Hread.
  unfold read_numeral in Hread.
  destruct (numeral 16 32 (uuid_int u)) eqn:Hnum; [done|].
  rewrite Hread; [by destruct u|lia|lia|exact Hwf].
Qed.

Lemma read_numeral_from_bound base acc l n :
  read_numeral_from base acc l = Some n ->
  (n < (acc + 1) * base ^ N.of_nat (length l))%N.
Proof.
  revert acc; induction l as [|c l IH]; intros acc; cbn [read_numeral_from].
  - intros [= <-]. simpl. lia.
  - destruct (digit_val c) as [d|]; [|done].
    destruct (d <? base)%N eqn:Hd; [|done].
    apply N.ltb_lt in Hd. intros Hn%IH.
    cbn [length]. rewrite Nat2N.inj_succ, N.pow_succ_r'.
    eapply N.lt_le_trans; [exact Hn|].
    rewrite N.mul_assoc. apply N.mul_le_mono_r. lia.
Qed.

Lemma read_digits_bound base acc (b : bool) l n :
  (1 <= base)%N ->
  read_digits base acc b l = Some n ->
  (n < (acc + 1) * base ^ N.of_nat (length l))%N.
Proof.
  intros Hbase. revert acc b; induction l as [|c l IH]; intros acc b;
    cbn [read_digits].
  - destruct b; [|done]. intros [= <-]. simpl. lia.
  - cbn [length]. rewrite Nat2N.inj_succ, N.pow_succ_r'.
    destruct (decide (c = "_"%char)) as [_|_].
    + destruct b; [|done]. intros Hn%IH.
      eapply N.lt_le_trans; [exact Hn|].
      apply N.mul_le_mono_l.
      rewrite <- (N.mul_1_l (base ^ _)) at 1. by apply N.mul_le_mono_r.
    + destruct (digit_val c) as [d|]; [|done].
      destruct (d <? base)%N eqn:Hd; [|done].
      apply N.ltb_lt in Hd. intros Hn%IH.
      eapply N.lt_le_trans; [exact Hn|].
      rewrite N.mul_assoc. apply N.mul_le_mono_r. lia.
Qed.

Lemma lstrip_length cs s : (length (lstrip cs s) <= length s)%nat.
Proof.
  induction s as [|c s IH]; [done|]. cbn [lstrip].
  destruct (bool_decide _); cbn [length]; lia.
Qed.

Lemma drop_sign_length s : (length (drop_sign s) <= length s)%nat.
Proof.
  destruct s as [|c s]; [done|]. cbn [drop_sign].
  destruct (decide _); cbn [length]; lia.
Qed.

Lemma drop_prefix_length s : (length (drop_prefix s) <= length s)%nat.
Proof.
  destruct s as [|z [|x [|u s]]]; cbn [drop_prefix]; try done.
  - destruct (_ && _); cbn [length]; lia.
  - destruct (_ && _); [|done]. destruct (decide _); cbn [length]; lia.
Qed.

Lemma int_16_bound (s : list ascii) (n : N) :
  int_16 s = Some n -> (n < 16 ^ N.of_nat (length s))%N.
Proof.
  unfold int_16. intros Hn%read_digits_bound; [|done].
  eapply N.lt_le_trans; [exact Hn|]. rewrite N.mul_1_l.
  apply N.pow_le_mono_r; [done|].
  pose proof (drop_prefix_length
    (drop_sign (reverse (lstrip py_space (reverse (lstrip py_space s))))))
    as Hp.
  pose proof (drop_sign_length
    (reverse (lstrip py_space (reverse (lstrip py_space s))))) as Hs.
  rewrite length_reverse in Hs.
  pose proof (lstrip_length py_space (reverse (lstrip py_space s))) as Hr.
  rewrite length_reverse in Hr.
  pose proof (lstrip_length py_space s) as Hl.
  lia.
Qed.

(** Every UUID read from a string is in range. *)
Lemma uuid_of_string_wf s u : uuid_of_string s = Ok u -> uuid_wf u.
Proof.
  unfold uuid_of_string.
  set (h := erase "-" _).
  destruct (decide (length h = 32%nat)) as [Hlen|]; [|done].
  destruct (int_16 h) as [n|] eqn:Hn; [|done].
  intros [= <-]. unfold uuid_wf; simpl.
  apply int_16_bound in Hn. rewrite Hlen in Hn.
  exact Hn.
Qed.

Lemma uuid_str_segment (u : UUID) : is_segment (uuid_str u).
Proof.
  unfold is_segment, uuid_str.
  rewrite list_ascii_of_string_of_list_ascii.
  pose proof (numeral_hex_lower 32 (uuid_int u)) as Hhex.
  pose proof (numeral_length 16 32 (uuid_int u)) as Hlen.
  generalize dependent (numeral 16 32 (uuid_int u)). intros hex Hhex Hlen.
  split.
  - destruct hex as [|c hex]; [done|]. by simpl.
  - intros Hin. apply (uuid_chars_plain hex) in Hin; [tauto|done].
Qed.

Lemma split_path_uuid_str (u : UUID) : split_path (uuid_str u) = [uuid_str u].
Proof. apply split_path_segment, uuid_str_segment. Qed.

(** ** Dates in the date format *)

Lemma date_format_items :
  parse_format (list_ascii_of_string DATE_FORMAT) =
  [Directive "Y"; Literal "-"; Directive "m"; Literal "-"; Directive "d";
   Literal "T"; Directive "H"; Literal ":"; Directive "M"; Literal ":";
   Directive "S"; Literal "."; Directive "f"; Literal "Z"].
Proof. reflexivity. Qed.

Lemma strftime_date_format t :
  list_ascii_of_string (strftime t DATE_FORMAT) =
  decimal (year t) ++ "-"%char :: numeral 10 2 (month t) ++
  "-"%char :: numeral 10 2 (day t) ++ "T"%char :: numeral 10 2 (hour t) ++
  ":"%char :: numeral 10 2 (minute t) ++ ":"%char :: numeral 10 2 (second t) ++
  "."%char :: numeral 10 6 (microsecond t) ++ ["Z"%char].
Proof.
  unfold strftime. rewrite list_ascii_of_string_of_list_ascii, date_format_items.
  reflexivity.
Qed.

Lemma digit_of_any_digit (k : N) : (k < 10)%N -> any_digit (digit_of k) = true.
Proof.
  intros Hk.
  assert (H : exists j, (j < 10)%nat /\ k = N.of_nat j)
    by (exists (N.to_nat k); lia).
  destruct H as (j & Hj & ->). clear Hk.
  do 10 (destruct j as [|j]; [reflexivity|]). lia.
Qed.

Lemma numeral_any_digit w n :
  Forall (fun c => any_digit c = true) (numeral 10 w n).
Proof.
  revert n; induction w as [|w IH]; intros n; simpl; [constructor|].
  apply Forall_app; split; [apply IH|].
  apply Forall_singleton, digit_of_any_digit, N.mod_lt. lia.
Qed.

Lemma match_classes_digits l s :
  Forall (fun c => any_digit c = true) l ->
  match_classes (replicate (length l) any_digit) (l ++ s) = Some (l, s).
Proof.
  induction 1 as [|c l Hc _ IH]; simpl; [by destruct s|].
  by rewrite Hc, IH.
Qed.

Lemma field_int_numeral w n :
  (n < 10 ^ N.of_nat w)%N -> field_int (numeral 10 w n) = n.
Proof.
  intros Hn. unfold field_int.
  assert (Hf : filter (fun c => c <> " "%char) (numeral 10 w n) = numeral 10 w n).
  { pose proof (numeral_any_digit w n) as Hd.
    induction Hd as [|c l Hc _ IH]; [done|].
    rewrite filter_cons_True, IH; [done|]. by intros ->. }
  rewrite Hf, read_numeral_from_numeral by lia. simpl.
  by rewrite N.mod_small.
Qed.

Lemma match_classes_width w l s :
  length l = w -> Forall (fun c => any_digit c = true) l ->
  match_classes (replicate w any_digit) (l ++ s) = Some (l, s).
Proof. intros <-. apply match_classes_digits. Qed.

Lemma read_field_year n s :
  read_field "Y" (numeral 10 4 n ++ s) = Some (numeral 10 4 n, s).
Proof.
  unfold read_field.
  change (directive_pattern "Y") with (Some [replicate 4 any_digit]).
  cbn [first_match].
  by rewrite match_classes_width
    by (apply numeral_length || apply numeral_any_digit).
Qed.

Lemma read_field_microsecond n s :
  read_field "f" (numeral 10 6 n ++ s) = Some (numeral 10 6 n, s).
Proof.
  unfold read_field.
  change (directive_pattern "f") with
    (Some ((fun w => replicate w any_digit) <$> [6; 5; 4; 3; 2; 1]%nat)).
  cbn [first_match fmap list_fmap].
  by rewrite match_classes_width
    by (apply numeral_length || apply numeral_any_digit).
Qed.

Tactic Notation "by_cases_below" constr(n) integer(k) :=
  let H := fresh in
  let j := fresh "j" in
  assert (H : exists j, n = N.of_nat j) by (exists (N.to_nat n); lia);
  destruct H as (j & ->);
  do k (destruct j as [|j]; [first [reflexivity | lia]|]);
  lia.

Lemma read_field_month n s :
  (1 <= n <= 12)%N ->
  read_field "m" (numeral 10 2 n ++ s) = Some (numeral 10 2 n, s).
Proof. intros Hn. by_cases_below n 13. Qed.

Lemma read_field_day n s :
  (1 <= n <= 31)%N ->
  read_field "d" (numeral 10 2 n ++ s) = Some (numeral 10 2 n, s).
Proof. intros Hn. by_cases_below n 32. Qed.

Lemma read_field_hour n s :
  (n <= 23)%N ->
  read_field "H" (numeral 10 2 n ++ s) = Some (numeral 10 2 n, s).
Proof. intros Hn. by_cases_below n 24. Qed.

Lemma read_field_minute n s :
  (n <= 59)%N ->
  read_field "M" (numeral 10 2 n ++ s) = Some (numeral 10 2 n, s).
Proof. intros Hn. by_cases_below n 60. Qed.

Lemma read_field_second n s :
  (n <= 59)%N ->
  read_field "S" (numeral 10 2 n ++ s) = Some (numeral 10 2 n, s).
Proof. intros Hn. by_cases_below n 60. Qed.

Lemma strptime_items_literal c rest s t :
  strptime_items (Literal c :: rest) (c :: s) t = strptime_items rest s t.
Proof. simpl. by rewrite decide_True. Qed.

Lemma strptime_items_directive d rest txt s t :
  read_field d (txt ++ s) = Some (txt, s) ->
  strptime_items (Directive d :: rest) (txt ++ s) t =
  strptime_items rest s (set_field d txt t).
Proof. intros H. simpl. by rewrite H. Qed.

Lemma set_field_all y m d h mi sec f t :
  set_field "f" f (set_field "S" sec (set_field "M" mi (set_field "H" h
    (set_field "d" d (set_field "m" m (set_field "Y" y t)))))) =
  {| year := field_int y; month := field_int m; day := field_int d;
     hour := field_int h; minute := field_int mi; second := field_int sec;
     microsecond := field_int (f ++ replicate (6 - length f) "0"%char) |}.
Proof. reflexivity. Qed.

Lemma dt_valid_ranges t :
  dt_valid t = true ->
  (1 <= year t <= 9999 /\ 1 <= month t <= 12 /\
   1 <= day t <= days_in_month (year t) (month t) /\
   hour t <= 23 /\ minute t <= 59 /\ second t <= 59 /\
   microsecond t <= 999999)%N.
Proof.
  unfold dt_valid. rewrite !andb_true_iff, !N.leb_le. tauto.
Qed.

Lemma days_in_month_le y m : (days_in_month y m <= 31)%N.
Proof.
  unfold days_in_month.
  destruct (m =? 2)%N; [by destruct (is_leap y)|].
  by destruct (bool_decide _).
Qed.

(** A valid date-time written in the date format reads back as itself. *)
Lemma decimal_four_digits (n : N) :
  (1000 <= n)%N -> decimal n = numeral 10 4 n.
Proof.
  intros Hn. unfold decimal.
  rewrite !(proj2 (N.ltb_ge _ _)) by lia. done.
Qed.

(** A date written by [strftime] reads back as itself when its year has
    four digits. *)
Lemma strptime_strftime t :
  dt_valid t = true -> (1000 <= year t)%N ->
  strptime (strftime t DATE_FORMAT) DATE_FORMAT = Ok t.
Proof.
  intros Hv Hyear.
  pose proof (dt_valid_ranges t Hv) as (Hy & Hm & Hd & HH & HM & HS & Hf).
  pose proof (days_in_month_le (year t) (month t)) as Hdim.
  unfold strptime. rewrite strftime_date_format, date_format_items.
  rewrite decimal_four_digits by done.
  rewrite strptime_items_directive by apply read_field_year.
  rewrite strptime_items_literal.
  rewrite strptime_items_directive by (by apply read_field_month).
  rewrite strptime_items_literal.
  rewrite strptime_items_directive by (apply read_field_day; lia).
  rewrite strptime_items_literal.
  rewrite strptime_items_directive by (by apply read_field_hour).
  rewrite strptime_items_literal.
  rewrite strptime_items_directive by (by apply read_field_minute).
  rewrite strptime_items_literal.
  rewrite strptime_items_directive by (by apply read_field_second).
  rewrite strptime_items_literal.
  rewrite strptime_items_directive by apply read_field_microsecond.
  rewrite strptime_items_literal.
  cbn [strptime_items]. rewrite set_field_all, numeral_length.
  cbn [Nat.sub replicate]. rewrite app_nil_r.
  rewrite !field_int_numeral by (simpl; lia).
  destruct t; simpl in *. by rewrite Hv.
Qed.

(** ** The store *)

Lemma clean_from_plain (l : list string) :
  Forall plain_name l -> clean_from 0 l = l.
Proof.
  induction 1 as [|s l [Hdot Hup] _ IH]; [done|]. cbn [clean_from].
  by rewrite !decide_False, IH by done.
Qed.

Lemma clean_segments_plain (l : list string) :
  Forall plain_name l -> clean_segments l = l.
Proof.
  intros Hl. unfold clean_segments.
  by rewrite clean_from_plain, reverse_involutive by by apply Forall_reverse.
Qed.

(** Cleaning leaves a path without [.] and [..] as it is. *)
Lemma sanitizeKey_dot_free (s : string) :
  dot_free s -> split_path s <> [] -> sanitizeKey s = split_path s.
Proof.
  intros Hs Hne. unfold sanitizeKey. rewrite clean_segments_plain by done.
  by destruct (split_path s).
Qed.

(** A key of one segment is that segment, [.] and [..] included. *)
Lemma sanitizeKey_segment (s : string) : is_segment s -> sanitizeKey s = [s].
Proof.
  intros Hs.
  destruct (decide (s = ".")) as [->|Hdot]; [done|].
  destruct (decide (s = "..")) as [->|Hup]; [done|].
  rewrite sanitizeKey_dot_free; unfold dot_free;
    rewrite split_path_segment by done; [done| |done].
  by apply Forall_singleton.
Qed.

Lemma dot_free_segment (s : string) : plain_segment s -> dot_free s.
Proof.
  intros [Hs Hp]. unfold dot_free. rewrite split_path_segment by done.
  by apply Forall_singleton.
Qed.

Lemma dot_free_slash (a b : string) :
  dot_free a -> dot_free b -> dot_free (a +:+ "/" +:+ b).
Proof.
  unfold dot_free. rewrite split_path_slash. apply Forall_app_2.
Qed.

Lemma uuid_str_plain (u : UUID) : plain_segment (uuid_str u).
Proof.
  split; [apply uuid_str_segment|].
  assert (Hlen : length (list_ascii_of_string (uuid_str u)) = 36%nat).
  { unfold uuid_str, uuid_chars.
    rewrite list_ascii_of_string_of_list_ascii.
    pose proof (numeral_length 16 32 (uuid_int u)) as Hlen.
    generalize dependent (numeral 16 32 (uuid_int u)). intros hex Hlen.
    repeat (rewrite ?length_app, ?length_cons, ?length_take, ?length_drop).
    lia. }
  split; intros Heq; by rewrite Heq in Hlen.
Qed.

Lemma group_qgis_settings s : group (qgis_settings s) = sanitizeKey s.
Proof. reflexivity. Qed.

Lemma child_group_Some g k c :
  child_group g k = Some c <-> exists rest, rest <> [] /\ k = g ++ c :: rest.
Proof.
  revert k; induction g as [|a g IH]; intros k; simpl.
  - destruct k as [|c' [|x k]]; split; try done.
    + by intros ([|??] & ? & ?).
    + intros (rest & Hne & [= -> <-]). done.
    + intros [= ->]. by exists (x :: k).
    + by intros (rest & _ & [= -> _]).
  - destruct k as [|b k]; [split; [done|by intros (?&?&?)]|].
    destruct (decide (a = b)) as [->|Hab].
    + rewrite IH. split; intros (rest & ? & Hk); exists rest; split; try done.
      * by rewrite Hk.
      * by injection Hk.
    + split; [done|]. intros (rest & _ & [= -> _]). done.
Qed.

Lemma elem_of_childGroups (h : QgsSettings) (m : store) (c : string) :
  c ∈ childGroups h m <->
  exists k, is_Some (m !! k) /\ child_group (group h) k = Some c.
Proof.
  unfold childGroups.
  rewrite merge_sort_Permutation, elem_of_remove_dups, list_elem_of_omap.
  split.
  - intros (k & Hk & Hc). exists k; split; [|done].
    apply list_elem_of_fmap in Hk as ([k' v] & -> & Hkv).
    apply elem_of_map_to_list in Hkv. by exists v.
  - intros (k & [v Hv] & Hc). exists k; split; [|done].
    apply list_elem_of_fmap. exists (k, v); split; [done|].
    by apply elem_of_map_to_list.
Qed.

Lemma NoDup_childGroups (h : QgsSettings) (m : store) : NoDup (childGroups h m).
Proof.
  unfold childGroups. rewrite merge_sort_Permutation. apply NoDup_remove_dups.
Qed.

Lemma childGroups_nil (h : QgsSettings) (m : store) :
  (forall k, group h `prefix_of` k -> m !! k = None) -> childGroups h m = [].
Proof.
  intros Hm. apply elem_of_nil_inv. intros c.
  rewrite elem_of_childGroups. intros (k & [v Hv] & Hc).
  apply child_group_Some in Hc as (rest & _ & ->).
  rewrite Hm in Hv; [done|]. by eexists.
Qed.

(** ** The paths the manager builds *)

Lemma split_profiles_root :
  split_path (BASE_GROUP_NAME +:+ "/" +:+ PROFILE_GROUP_NAME) = profiles_root.
Proof. reflexivity. Qed.

Lemma split_profile_base g :
  split_path (_get_profile_settings_base g) = profiles_root ++ split_path g.
Proof.
  unfold _get_profile_settings_base. by rewrite !split_path_slash.
Qed.

Lemma split_profile_base_uuid u :
  split_path (_get_profile_settings_base (uuid_str u)) =
  profiles_root ++ [uuid_str u].
Proof. by rewrite split_profile_base, split_path_uuid_str. Qed.

Lemma split_template_group u :
  split_path (BASE_GROUP_NAME +:+ "/" +:+ PROFILE_GROUP_NAME +:+ "/" +:+
              uuid_str u +:+ "/" +:+ TEMPLATE_GROUP_NAME) =
  profiles_root ++ [uuid_str u; TEMPLATE_GROUP_NAME].
Proof. by rewrite !split_path_slash, split_path_uuid_str. Qed.

Lemma split_symbology_group u :
  split_path (BASE_GROUP_NAME +:+ "/" +:+ PROFILE_GROUP_NAME +:+ "/" +:+
              uuid_str u +:+ "/" +:+ SYMBOLOGY_GROUP_NAME) =
  profiles_root ++ [uuid_str u; SYMBOLOGY_GROUP_NAME].
Proof. by rewrite !split_path_slash, split_path_uuid_str. Qed.

Lemma split_template_base u x :
  split_path (_get_template_settings_base u x) =
  profiles_root ++ [uuid_str u; TEMPLATE_GROUP_NAME] ++ split_path x.
Proof.
  unfold _get_template_settings_base.
  by rewrite !split_path_slash, split_path_uuid_str.
Qed.

Lemma split_symbology_base u x :
  split_path (_get_symbology_settings_base u x) =
  profiles_root ++ [uuid_str u; SYMBOLOGY_GROUP_NAME] ++ split_path x.
Proof.
  unfold _get_symbology_settings_base.
  by rewrite !split_path_slash, split_path_uuid_str.
Qed.

Lemma dot_free_base : dot_free BASE_GROUP_NAME.
Proof. by repeat constructor. Qed.

Lemma dot_free_profiles : dot_free PROFILE_GROUP_NAME.
Proof. by repeat constructor. Qed.

Lemma dot_free_templates : dot_free TEMPLATE_GROUP_NAME.
Proof. by repeat constructor. Qed.

Lemma dot_free_symbology : dot_free SYMBOLOGY_GROUP_NAME.
Proof. by repeat constructor. Qed.

Lemma dot_free_uuid_str (u : UUID) : dot_free (uuid_str u).
Proof. apply dot_free_segment, uuid_str_plain. Qed.

Lemma sanitize_profiles_root :
  sanitizeKey (BASE_GROUP_NAME +:+ "/" +:+ PROFILE_GROUP_NAME) = profiles_root.
Proof. reflexivity. Qed.

Lemma sanitize_profile_base g :
  dot_free g ->
  sanitizeKey (_get_profile_settings_base g) = profiles_root ++ split_path g.
Proof.
  intros Hg. rewrite sanitizeKey_dot_free; rewrite ?split_profile_base.
  - done.
  - unfold _get_profile_settings_base.
    auto using dot_free_slash, dot_free_base, dot_free_profiles.
  - by unfold profiles_root.
Qed.

Lemma sanitize_profile_base_uuid u :
  sanitizeKey (_get_profile_settings_base (uuid_str u)) =
  profiles_root ++ [uuid_str u].
Proof.
  by rewrite sanitize_profile_base, split_path_uuid_str
    by apply dot_free_uuid_str.
Qed.

Lemma sanitize_template_group u :
  sanitizeKey (BASE_GROUP_NAME +:+ "/" +:+ PROFILE_GROUP_NAME +:+ "/" +:+
               uuid_str u +:+ "/" +:+ TEMPLATE_GROUP_NAME) =
  profiles_root ++ [uuid_str u; TEMPLATE_GROUP_NAME].
Proof.
  rewrite sanitizeKey_dot_free; rewrite ?split_template_group.
  - done.
  - auto using dot_free_slash, dot_free_base, dot_free_profiles,
      dot_free_templates, dot_free_uuid_str.
  - by unfold profiles_root.
Qed.

Lemma sanitize_symbology_group u :
  sanitizeKey (BASE_GROUP_NAME +:+ "/" +:+ PROFILE_GROUP_NAME +:+ "/" +:+
               uuid_str u +:+ "/" +:+ SYMBOLOGY_GROUP_NAME) =
  profiles_root ++ [uuid_str u; SYMBOLOGY_GROUP_NAME].
Proof.
  rewrite sanitizeKey_dot_free; rewrite ?split_symbology_group.
  - done.
  - auto using dot_free_slash, dot_free_base, dot_free_profiles,
      dot_free_symbology, dot_free_uuid_str.
  - by unfold profiles_root.
Qed.

Lemma sanitize_template_base u x :
  dot_free x ->
  sanitizeKey (_get_template_settings_base u x) =
  profiles_root ++ [uuid_str u; TEMPLATE_GROUP_NAME] ++ split_path x.
Proof.
  intros Hx. rewrite sanitizeKey_dot_free; rewrite ?split_template_base.
  - done.
  - unfold _get_template_settings_base.
    auto 10 using dot_free_slash, dot_free_base, dot_free_profiles,
      dot_free_templates, dot_free_uuid_str.
  - by unfold profiles_root.
Qed.

Lemma sanitize_symbology_base u x :
  dot_free x ->
  sanitizeKey (_get_symbology_settings_base u x) =
  profiles_root ++ [uuid_str u; SYMBOLOGY_GROUP_NAME] ++ split_path x.
Proof.
  intros Hx. rewrite sanitizeKey_dot_free; rewrite ?split_symbology_base.
  - done.
  - unfold _get_symbology_settings_base.
    auto 10 using dot_free_slash, dot_free_base, dot_free_profiles,
      dot_free_symbology, dot_free_uuid_str.
  - by unfold profiles_root.
Qed.

(** A key of one segment lies directly in the group. *)
Lemma full_key_segment (h : QgsSettings) (key : string) :
  is_segment key -> full_key h key = group h ++ [key].
Proof. intros Hk. unfold full_key. by rewrite sanitizeKey_segment. Qed.

Lemma full_key_pointer :
  full_key (qgis_settings BASE_GROUP_NAME) SELECTED_PROFILE_KEY = pointer_key.
Proof. reflexivity. Qed.

(** ** Decoding a profile *)

Lemma strptime_raises v fmt e :
  strptime v fmt = Raise e -> exists msg, e = ValueError msg.
Proof.
  unfold strptime. destruct (strptime_items _ _ _) as [t|]; [|intros [= <-]; eauto].
  destruct (dt_valid t); [done|intros [= <-]; eauto].
Qed.

Lemma uuid_of_string_raises s e :
  uuid_of_string s = Raise e -> exists msg, e = ValueError msg.
Proof.
  unfold uuid_of_string. destruct (decide _); [|intros [= <-]; eauto].
  destruct (int_16 _); [done|intros [= <-]; eauto].
Qed.

Lemma from_qgs_settings_bad_id now identifier settings m e :
  uuid_of_string identifier = Raise e ->
  ProfileSettings.from_qgs_settings now identifier settings m = Raise e.
Proof.
  intros H. destruct (uuid_of_string_raises _ _ H) as [msg ->].
  unfold ProfileSettings.from_qgs_settings, ProfileSettings.read_children_and_date.
  by rewrite H.
Qed.

Lemma from_qgs_settings_no_date now identifier settings m u :
  uuid_of_string identifier = Ok u ->
  value settings "created_date" m = None ->
  ProfileSettings.from_qgs_settings now identifier settings m =
  Ok (decoded u settings m None).
Proof.
  intros Hu Hv.
  unfold ProfileSettings.from_qgs_settings, ProfileSettings.read_children_and_date.
  by rewrite Hu, Hv.
Qed.

Lemma from_qgs_settings_date now identifier settings m u v d :
  uuid_of_string identifier = Ok u ->
  value settings "created_date" m = Some v ->
  strptime v DATE_FORMAT = Ok d ->
  ProfileSettings.from_qgs_settings now identifier settings m =
  Ok (decoded u settings m (Some d)).
Proof.
  intros Hu Hv Hd.
  unfold ProfileSettings.from_qgs_settings, ProfileSettings.read_children_and_date.
  by rewrite Hu, Hv, Hd.
Qed.

(** A date that is present and does not parse makes the decoding raise
    what [strptime] raises: the handler is for [AttributeError] only. *)
Lemma from_qgs_settings_bad_date now identifier settings m u v e :
  uuid_of_string identifier = Ok u ->
  value settings "created_date" m = Some v ->
  strptime v DATE_FORMAT = Raise e ->
  ProfileSettings.from_qgs_settings now identifier settings m = Raise e.
Proof.
  intros Hu Hv Hd. destruct (strptime_raises _ _ _ Hd) as [msg ->].
  unfold ProfileSettings.from_qgs_settings, ProfileSettings.read_children_and_date.
  by rewrite Hu, Hv, Hd.
Qed.

(** Whatever it decodes to, a profile carries the UUID its group name
    reads as. *)
Lemma from_qgs_settings_id now identifier settings m p :
  ProfileSettings.from_qgs_settings now identifier settings m = Ok p ->
  uuid_of_string identifier = Ok (ProfileSettings.id p).
Proof.
  destruct (uuid_of_string identifier) as [u|e] eqn:Hu.
  - unfold ProfileSettings.from_qgs_settings, ProfileSettings.read_children_and_date.
    rewrite Hu. destruct (value settings "created_date" m) as [v|]; simpl.
    + destruct (strptime v DATE_FORMAT) as [d|e] eqn:Hd; simpl.
      * by intros [= <-].
      * destruct (strptime_raises _ _ _ Hd) as [msg ->]. done.
    + by intros [= <-].
  - by rewrite (from_qgs_settings_bad_id _ _ _ _ _ Hu).
Qed.

Lemma value_unwritten (h : QgsSettings) (key : string) (m : store) :
  m !! full_key h key = None -> value h key m = None.
Proof. unfold value. by intros ->. Qed.

(** C8: for a profile identifier whose base path holds no key at all,
    [get_profile_settings] raises nothing and returns a record with the
    identifier, [None] for the name, the path and the date, and no
    templates and no symbology. *)
Theorem get_profile_settings_unwritten (now : datetime) (identifier : UUID)
    (m : store) :
  uuid_wf identifier ->
  (forall k, profiles_root ++ [uuid_str identifier] `prefix_of` k ->
             m !! k = None) ->
  get_profile_settings now identifier m = Ok (blank_profile identifier).
Proof.
  intros Hwf Hm. unfold get_profile_settings.
  assert (Hval : forall key,
    value (qgis_settings (_get_profile_settings_base (uuid_str identifier)))
      key m = None).
  { intros key. apply value_unwritten, Hm. unfold full_key.
    rewrite group_qgis_settings, sanitize_profile_base_uuid. by eexists. }
  rewrite (from_qgs_settings_no_date _ _ _ _ identifier)
    by auto using uuid_of_string_str.
  unfold decoded, blank_profile. rewrite !Hval. f_equal. f_equal.
  - unfold get_templates. rewrite childGroups_nil; [done|].
    intros k [rest ->]. rewrite group_qgis_settings, sanitize_template_group.
    apply Hm. exists (TEMPLATE_GROUP_NAME :: rest).
    by rewrite <- !app_assoc.
  - unfold get_symbology. rewrite childGroups_nil; [done|].
    intros k [rest ->]. rewrite group_qgis_settings, sanitize_symbology_group.
    apply Hm. exists (SYMBOLOGY_GROUP_NAME :: rest).
    by rewrite <- !app_assoc.
Qed.

Lemma get_profile_settings_unwritten_witness :
  get_profile_settings sample_now sample_id ∅ = Ok (blank_profile sample_id).
Proof.
  apply (get_profile_settings_unwritten sample_now sample_id ∅).
  - reflexivity.
  - intros k _. apply lookup_empty.
Defined.

(** C3, as stated, fails: the profile stored without a date decodes with
    [None] for its date, not with the time of the call. *)
Lemma undated_profile_not_now :
  value (qgis_settings (_get_profile_settings_base (uuid_str sample_id)))
    "created_date" undated_store = None /\
  exists p, get_profile_settings sample_now sample_id undated_store = Ok p /\
            ProfileSettings.created_date p = None /\
            ProfileSettings.created_date p <> Some sample_now.
Proof.
  split; [reflexivity|]. eexists. split; [vm_compute; reflexivity|].
  split; [reflexivity|discriminate].
Qed.

(** C3, amended: when the date key of a stored profile is absent, decoding
    raises nothing and the decoded date is [None]; so it is for
    [get_profile_settings]. *)
Theorem absent_date_decodes_to_None (now : datetime) :
  (forall (identifier : string) (settings : QgsSettings) (m : store)
          (u : UUID),
     uuid_of_string identifier = Ok u ->
     value settings "created_date" m = None ->
     exists p,
       ProfileSettings.from_qgs_settings now identifier settings m = Ok p /\
       ProfileSettings.created_date p = None) /\
  (forall (identifier : UUID) (m : store),
     uuid_wf identifier ->
     value (qgis_settings (_get_profile_settings_base (uuid_str identifier)))
       "created_date" m = None ->
     exists p,
       get_profile_settings now identifier m = Ok p /\
       ProfileSettings.created_date p = None).
Proof.
  split.
  - intros identifier settings m u Hu Hv.
    rewrite (from_qgs_settings_no_date _ _ _ _ u) by done. by eexists.
  - intros identifier m Hwf Hv. unfold get_profile_settings.
    rewrite (from_qgs_settings_no_date _ _ _ _ identifier)
      by auto using uuid_of_string_str.
    by eexists.
Qed.

Lemma absent_date_decodes_to_None_witness :
  exists p, get_profile_settings sample_now sample_id undated_store = Ok p /\
            ProfileSettings.created_date p = None.
Proof.
  apply (proj2 (absent_date_decodes_to_None sample_now) sample_id undated_store).
  - reflexivity.
  - reflexivity.
Defined.

(** C2: on a stored date that does not parse, decoding raises the
    [ValueError] of [strptime]; nothing falls back to the time of the
    call.  [list_profiles] raises with it. *)
Theorem misdated_profile_raises :
  get_profile_settings sample_now sample_id misdated_store =
    Raise (ValueError "time data does not match format") /\
  list_profiles sample_now misdated_store =
    Raise (ValueError "time data does not match format").
Proof. split; vm_compute; reflexivity. Qed.

(** ** Selecting the current profile *)

Lemma set_current_profile_unfold (now : datetime) (identifier : UUID)
    (w : manager) :
  set_current_profile now identifier w =
  match list_profiles now (settings w) with
  | Ok profiles =>
      if decide (identifier ∉ ProfileSettings.id <$> profiles)
      then (Raise invalid_profile_identifier, w)
      else (Ok tt, selected identifier w)
  | Raise e => (Raise e, w)
  end.
Proof.
  unfold set_current_profile, bind, query.
  destruct (list_profiles now (settings w)) as [profiles|e]; [|done].
  by destruct (decide _).
Qed.

(** C6: with [profiles] what [list_profiles] returns,
    [set_current_profile] goes through exactly when the identifier is the
    id of one of them, and then writes its string form to the pointer and
    emits; for any other identifier it raises the [ValueError] for an
    invalid profile identifier. *)
Theorem set_current_profile_iff_listed (now : datetime) (identifier : UUID)
    (w : manager) (profiles : list ProfileSettings.t) :
  list_profiles now (settings w) = Ok profiles ->
  (identifier ∈ ProfileSettings.id <$> profiles ->
   set_current_profile now identifier w = (Ok tt, selected identifier w)) /\
  (identifier ∉ ProfileSettings.id <$> profiles ->
   (set_current_profile now identifier w).1 = Raise invalid_profile_identifier) /\
  ((set_current_profile now identifier w).1 = Ok tt <->
   identifier ∈ ProfileSettings.id <$> profiles).
Proof.
  intros HL. rewrite set_current_profile_unfold, HL.
  destruct (decide (identifier ∉ ProfileSettings.id <$> profiles)) as [Hn|Hy].
  - by repeat split.
  - apply dec_stable in Hy. by repeat split.
Qed.

(** C9: for an identifier that is not the id of a listed profile,
    [set_current_profile] raises and leaves the manager as it was: the
    store, the pointer in it, and the count of emitted signals.  More
    generally, whenever it raises, it has changed nothing. *)
Theorem set_current_profile_failure_changes_nothing (now : datetime)
    (identifier : UUID) (w : manager) :
  (forall profiles,
     list_profiles now (settings w) = Ok profiles ->
     identifier ∉ ProfileSettings.id <$> profiles ->
     set_current_profile now identifier w =
       (Raise invalid_profile_identifier, w)) /\
  (forall e w', set_current_profile now identifier w = (Raise e, w') -> w' = w).
Proof.
  rewrite set_current_profile_unfold. split.
  - intros profiles -> Hn. by rewrite decide_True.
  - intros e w'. destruct (list_profiles now (settings w)) as [profiles|e0].
    + destruct (decide _); by intros [= <-].
    + by intros [= <-].
Qed.

(** ** Saving templates and symbology *)

Lemma save_template_writes profile t w :
  save_template profile t w = (Ok tt, written (template_writes profile t) w).
Proof. reflexivity. Qed.

Lemma save_symbology_writes profile s w :
  save_symbology profile s w = (Ok tt, written (symbology_writes profile s) w).
Proof. reflexivity. Qed.

Lemma is_segment_name : is_segment "name".
Proof. split; [done|]. apply (bool_decide_unpack _). by vm_compute. Qed.

Lemma is_segment_id : is_segment "id".
Proof. split; [done|]. apply (bool_decide_unpack _). by vm_compute. Qed.

Lemma is_segment_path : is_segment "path".
Proof. split; [done|]. apply (bool_decide_unpack _). by vm_compute. Qed.

Lemma is_segment_created_date : is_segment "created_date".
Proof. split; [done|]. apply (bool_decide_unpack _). by vm_compute. Qed.

Lemma full_key_template profile t (key : string) :
  dot_free (py_str (TemplateSettings.id t)) -> is_segment key ->
  full_key (template_settings profile t) key =
  profiles_root ++ [uuid_str (ProfileSettings.id profile); TEMPLATE_GROUP_NAME]
    ++ split_path (py_str (TemplateSettings.id t)) ++ [key].
Proof.
  intros Hid Hkey. rewrite full_key_segment by done. unfold template_settings.
  by rewrite group_qgis_settings, sanitize_template_base, <- !app_assoc.
Qed.

Lemma full_key_symbology profile s (key : string) :
  dot_free (py_str (SymbologySettings.id s)) -> is_segment key ->
  full_key (symbology_settings profile s) key =
  profiles_root ++ [uuid_str (ProfileSettings.id profile); SYMBOLOGY_GROUP_NAME]
    ++ split_path (py_str (SymbologySettings.id s)) ++ [key].
Proof.
  intros Hid Hkey. rewrite full_key_segment by done. unfold symbology_settings.
  by rewrite group_qgis_settings, sanitize_symbology_base, <- !app_assoc.
Qed.

Lemma name_and_id_written (h : QgsSettings) (name id : option string)
    (m : store) :
  only_name_and_id_written h name id m
    (<[full_key h "id" := id]> (<[full_key h "name" := name]> m)).
Proof.
  assert (Hne : full_key h "id" <> full_key h "name").
  { unfold full_key. intros H%app_inv_head. done. }
  unfold only_name_and_id_written, value. repeat split.
  - by rewrite lookup_insert_ne, lookup_insert_eq.
  - by rewrite lookup_insert_eq.
  - intros k Hn Hi. by rewrite !lookup_insert_ne.
Qed.

Lemma child_keys_outside (profile : ProfileSettings.t) (group_name : string)
    (segments : list string) (m m' : store) :
  (forall k,
     k <> profiles_root ++ [uuid_str (ProfileSettings.id profile); group_name]
            ++ segments ++ ["name"] ->
     k <> profiles_root ++ [uuid_str (ProfileSettings.id profile); group_name]
            ++ segments ++ ["id"] ->
     m' !! k = m !! k) ->
  outside_untouched profile m m'.
Proof.
  intros Hframe. split_and!.
  - apply Hframe; by intros [=].
  - intros field. apply Hframe; simpl; intros [= _ H]; by destruct segments.
  - intros g rest Hg. apply Hframe; simpl; by intros [= ? _].
Qed.

(** C10, amended: for a record whose identifier, as a string, holds no
    [.] and no [..] segment, [save_template] and [save_symbology] raise
    nothing, emit nothing, set the keys [name] and [id] in the group of
    the record under the profile's [templates] (or [symbology]) group,
    and leave every other key as it was: the pointer, the profile's own
    fields and the other profiles' subtrees among them. *)
Theorem save_template_and_symbology_frame (profile : ProfileSettings.t)
    (t : TemplateSettings.t) (s : SymbologySettings.t) (w : manager) :
  dot_free (py_str (TemplateSettings.id t)) ->
  dot_free (py_str (SymbologySettings.id s)) ->
  ((save_template profile t w).1 = Ok tt /\
   emitted (save_template profile t w).2 = emitted w /\
   group (template_settings profile t) =
     profiles_root ++
     [uuid_str (ProfileSettings.id profile); TEMPLATE_GROUP_NAME] ++
     split_path (py_str (TemplateSettings.id t)) /\
   only_name_and_id_written (template_settings profile t)
     (TemplateSettings.name t) (TemplateSettings.id t)
     (settings w) (settings (save_template profile t w).2) /\
   outside_untouched profile (settings w)
     (settings (save_template profile t w).2)) /\
  ((save_symbology profile s w).1 = Ok tt /\
   emitted (save_symbology profile s w).2 = emitted w /\
   group (symbology_settings profile s) =
     profiles_root ++
     [uuid_str (ProfileSettings.id profile); SYMBOLOGY_GROUP_NAME] ++
     split_path (py_str (SymbologySettings.id s)) /\
   only_name_and_id_written (symbology_settings profile s)
     (SymbologySettings.name s) (SymbologySettings.id s)
     (settings w) (settings (save_symbology profile s w).2) /\
   outside_untouched profile (settings w)
     (settings (save_symbology profile s w).2)).
Proof.
  intros Ht Hs.
  rewrite save_template_writes, save_symbology_writes. cbn [fst snd].
  split.
  - pose proof (name_and_id_written (template_settings profile t)
      (TemplateSettings.name t) (TemplateSettings.id t) (settings w)) as Hw.
    split_and!; [done|done| |exact Hw|].
    + unfold template_settings.
      by rewrite group_qgis_settings, sanitize_template_base.
    + eapply (child_keys_outside profile TEMPLATE_GROUP_NAME
                (split_path (py_str (TemplateSettings.id t)))).
      intros k Hn Hi.
      apply Hw; by rewrite full_key_template
        by (done || apply is_segment_name || apply is_segment_id).
  - pose proof (name_and_id_written (symbology_settings profile s)
      (SymbologySettings.name s) (SymbologySettings.id s) (settings w)) as Hw.
    split_and!; [done|done| |exact Hw|].
    + unfold symbology_settings.
      by rewrite group_qgis_settings, sanitize_symbology_base.
    + eapply (child_keys_outside profile SYMBOLOGY_GROUP_NAME
                (split_path (py_str (SymbologySettings.id s)))).
      intros k Hn Hi.
      apply Hw; by rewrite full_key_symbology
        by (done || apply is_segment_name || apply is_segment_id).
Qed.

Lemma save_template_and_symbology_frame_witness :
  ((save_template sample_profile sample_template empty_manager).1 = Ok tt /\
   emitted (save_template sample_profile sample_template empty_manager).2 =
     emitted empty_manager /\
   group (template_settings sample_profile sample_template) =
     profiles_root ++
     [uuid_str (ProfileSettings.id sample_profile); TEMPLATE_GROUP_NAME] ++
     split_path (py_str (TemplateSettings.id sample_template)) /\
   only_name_and_id_written (template_settings sample_profile sample_template)
     (TemplateSettings.name sample_template)
     (TemplateSettings.id sample_template)
     (settings empty_manager)
     (settings (save_template sample_profile sample_template empty_manager).2) /\
   outside_untouched sample_profile (settings empty_manager)
     (settings (save_template sample_profile sample_template empty_manager).2)) /\
  ((save_symbology sample_profile sample_symbology empty_manager).1 = Ok tt /\
   emitted (save_symbology sample_profile sample_symbology empty_manager).2 =
     emitted empty_manager /\
   group (symbology_settings sample_profile sample_symbology) =
     profiles_root ++
     [uuid_str (ProfileSettings.id sample_profile); SYMBOLOGY_GROUP_NAME] ++
     split_path (py_str (SymbologySettings.id sample_symbology)) /\
   only_name_and_id_written
     (symbology_settings sample_profile sample_symbology)
     (SymbologySettings.name sample_symbology)
     (SymbologySettings.id sample_symbology)
     (settings empty_manager)
     (settings
        (save_symbology sample_profile sample_symbology empty_manager).2) /\
   outside_untouched sample_profile (settings empty_manager)
     (settings
        (save_symbology sample_profile sample_symbology empty_manager).2)).
Proof.
  apply (save_template_and_symbology_frame sample_profile sample_template
           sample_symbology empty_manager).
  - apply dot_free_segment. apply (bool_decide_unpack _). by vm_compute.
  - apply dot_free_segment. apply (bool_decide_unpack _). by vm_compute.
Defined.

(** The group of a template whose id is [..] is the group of the
    profile itself: saving it replaces the profile's name with the
    template's and sets the profile's [id] key. *)
Lemma parent_template_overwrites_profile :
  group (template_settings sample_profile parent_template) =
    profile_group sample_id /\
  settings sample_manager !! (profiles_root ++ [uuid_str sample_id; "name"]) =
    Some (Some "Default") /\
  settings (save_template sample_profile parent_template sample_manager).2
    !! (profiles_root ++ [uuid_str sample_id; "name"]) = Some (Some "Basic") /\
  settings (save_template sample_profile parent_template sample_manager).2
    !! (profiles_root ++ [uuid_str sample_id; "id"]) = Some (Some "..") /\
  ~ outside_untouched sample_profile (settings sample_manager)
      (settings (save_template sample_profile parent_template sample_manager).2).
Proof.
  assert (Hold : settings sample_manager
                   !! (profiles_root ++ [uuid_str sample_id; "name"]) =
                 Some (Some "Default")) by (by vm_compute).
  assert (Hnew : settings
                   (save_template sample_profile parent_template
                      sample_manager).2
                   !! (profiles_root ++ [uuid_str sample_id; "name"]) =
                 Some (Some "Basic")) by (by vm_compute).
  split_and!; [by vm_compute|exact Hold|exact Hnew|by vm_compute|].
  intros (_ & Hfields & _). specialize (Hfields "name").
  cbn [ProfileSettings.id sample_profile] in Hfields.
  rewrite Hold, Hnew in Hfields. discriminate Hfields.
Qed.

(** ** What the updates do to the manager *)

Lemma manager_eta (w : manager) :
  {| settings := settings w; emitted := emitted w |} = w.
Proof. by destruct w. Qed.

Lemma for_each_updates {A} (body : A -> M unit) (F : A -> store -> store)
    (l : list A) (w : manager) :
  (forall a w', body a w' =
     (Ok tt, {| settings := F a (settings w'); emitted := emitted w' |})) ->
  for_each l body w =
  (Ok tt, {| settings := foldl (fun m a => F a m) (settings w) l;
             emitted := emitted w |}).
Proof.
  intros Hbody. revert w. induction l as [|a l IH]; intros w; simpl.
  - unfold ret. by rewrite manager_eta.
  - unfold bind. rewrite Hbody, IH. done.
Qed.

Lemma write_all_app (ws1 ws2 : list (list string * option string))
    (m : store) :
  write_all (ws1 ++ ws2) m = write_all ws2 (write_all ws1 m).
Proof.
  revert m; induction ws1 as [|[k v] ws1 IH]; intros m; simpl; [done|apply IH].
Qed.

Lemma foldl_write_all {A} (wr : A -> list (list string * option string))
    (l : list A) (m : store) :
  foldl (fun m a => write_all (wr a) m) m l = write_all (concat (wr <$> l)) m.
Proof.
  revert m; induction l as [|a l IH]; intros m; simpl; [done|].
  by rewrite IH, write_all_app.
Qed.

Lemma save_profile_settings_dated (profile : ProfileSettings.t)
    (d : datetime) (w : manager) :
  ProfileSettings.created_date profile = Some d ->
  save_profile_settings profile w =
  (Ok tt,
   {| settings :=
        write_all (profile_writes profile (strftime d DATE_FORMAT)) (settings w);
      emitted := S (emitted w) |}).
Proof.
  intros Hd. unfold save_profile_settings, bind at 1, lift. rewrite Hd. simpl.
  unfold bind at 1.
  rewrite (for_each_updates _ (fun t => write_all (template_writes profile t)))
    by (intros; apply save_template_writes).
  unfold bind at 1.
  rewrite (for_each_updates _ (fun s => write_all (symbology_writes profile s)))
    by (intros; apply save_symbology_writes).
  cbn [settings emitted]. rewrite !foldl_write_all.
  unfold profile_writes. by rewrite !write_all_app.
Qed.

Lemma save_profile_settings_undated (profile : ProfileSettings.t)
    (w : manager) :
  ProfileSettings.created_date profile = None ->
  save_profile_settings profile w =
  (Raise (AttributeError "'NoneType' object has no attribute 'strftime'"), w).
Proof.
  intros Hd. unfold save_profile_settings, bind at 1, lift. by rewrite Hd.
Qed.

Lemma clear_current_profile_unfold (w : manager) :
  clear_current_profile w =
  (Ok tt, {| settings := <[pointer_key := None]> (settings w);
             emitted := S (emitted w) |}).
Proof. reflexivity. Qed.

Lemma delete_all_profiles_unfold (w : manager) :
  delete_all_profiles w =
  (Ok tt, {| settings := <[pointer_key := None]> (without_profiles (settings w));
             emitted := S (S (emitted w)) |}).
Proof.
  unfold delete_all_profiles, bind at 1, query. cbn [settings].
  unfold bind at 1.
  rewrite (for_each_updates _ (fun g => remove profiles_settings g)) by done.
  reflexivity.
Qed.

Lemma delete_profile_unfold (now : datetime) (identifier : UUID)
    (w : manager) :
  delete_profile now identifier w =
  match is_current_profile now identifier (settings w) with
  | Ok true =>
      (Ok tt,
       {| settings :=
            remove profiles_settings (uuid_str identifier)
              (<[pointer_key := None]> (settings w));
          emitted := S (S (emitted w)) |})
  | Ok false =>
      (Ok tt,
       {| settings := remove profiles_settings (uuid_str identifier) (settings w);
          emitted := S (emitted w) |})
  | Raise e => (Raise e, w)
  end.
Proof.
  unfold delete_profile, bind at 1, query.
  destruct (is_current_profile now identifier (settings w)) as [[|]|e]; done.
Qed.

(** C1, amended: per completed call, [save_profile_settings],
    [set_current_profile] and [clear_current_profile] emit the signal
    once, and so does [delete_profile] of a profile that is not the current
    one; [delete_profile] of the current profile and [delete_all_profiles]
    emit it twice, once inside [clear_current_profile] and once at their
    end.  A call that raises emits nothing. *)
Theorem emissions_per_call (now : datetime) (w : manager) :
  (forall profile d,
     ProfileSettings.created_date profile = Some d ->
     (save_profile_settings profile w).1 = Ok tt /\
     emitted (save_profile_settings profile w).2 = emitted w + 1) /\
  ((clear_current_profile w).1 = Ok tt /\
   emitted (clear_current_profile w).2 = emitted w + 1) /\
  (forall identifier,
     (set_current_profile now identifier w).1 = Ok tt ->
     emitted (set_current_profile now identifier w).2 = emitted w + 1) /\
  (forall identifier,
     is_current_profile now identifier (settings w) = Ok false ->
     (delete_profile now identifier w).1 = Ok tt /\
     emitted (delete_profile now identifier w).2 = emitted w + 1) /\
  (forall identifier,
     is_current_profile now identifier (settings w) = Ok true ->
     (delete_profile now identifier w).1 = Ok tt /\
     emitted (delete_profile now identifier w).2 = emitted w + 2) /\
  ((delete_all_profiles w).1 = Ok tt /\
   emitted (delete_all_profiles w).2 = emitted w + 2) /\
  (forall e,
     (forall profile, (save_profile_settings profile w).1 = Raise e ->
        emitted (save_profile_settings profile w).2 = emitted w) /\
     (forall identifier, (set_current_profile now identifier w).1 = Raise e ->
        emitted (set_current_profile now identifier w).2 = emitted w) /\
     (forall identifier, (delete_profile now identifier w).1 = Raise e ->
        emitted (delete_profile now identifier w).2 = emitted w)).
Proof.
  split.
  { intros profile d Hd. rewrite (save_profile_settings_dated _ d) by done.
    simpl. split; [done|lia]. }
  split.
  { rewrite clear_current_profile_unfold. simpl. split; [done|lia]. }
  split.
  { intros identifier. rewrite set_current_profile_unfold.
    destruct (list_profiles now (settings w)) as [profiles|e]; [|done].
    destruct (decide _); [done|]. simpl. lia. }
  split.
  { intros identifier Hc. rewrite delete_profile_unfold, Hc. simpl.
    split; [done|lia]. }
  split.
  { intros identifier Hc. rewrite delete_profile_unfold, Hc. simpl.
    split; [done|lia]. }
  split.
  { rewrite delete_all_profiles_unfold. simpl. split; [done|lia]. }
  intros e. split; [|split].
  - intros profile.
    destruct (ProfileSettings.created_date profile) as [d|] eqn:Hd.
    + by rewrite (save_profile_settings_dated _ d).
    + by rewrite save_profile_settings_undated.
  - intros identifier. rewrite set_current_profile_unfold.
    destruct (list_profiles now (settings w)) as [profiles|e0]; [|done].
    by destruct (decide _).
  - intros identifier. rewrite delete_profile_unfold.
    by destruct (is_current_profile now identifier (settings w)) as [[|]|e0].
Qed.

(** ** The operations at work *)

(** C1, as stated, fails: [delete_all_profiles] emits twice, and so does
    [delete_profile] of the current profile. *)
Lemma delete_emits_twice :
  emitted (delete_all_profiles selected_manager).2 =
    emitted selected_manager + 2 /\
  emitted (delete_all_profiles selected_manager).2 <>
    emitted selected_manager + 1 /\
  is_current_profile sample_now sample_id (settings selected_manager) = Ok true /\
  emitted (delete_profile sample_now sample_id selected_manager).2 =
    emitted selected_manager + 2 /\
  emitted (delete_profile sample_now sample_id selected_manager).2 <>
    emitted selected_manager + 1.
Proof.
  split_and!; try (vm_compute; reflexivity); vm_compute; discriminate.
Qed.

Lemma emissions_per_call_witness :
  emitted (save_profile_settings sample_profile empty_manager).2 =
    emitted empty_manager + 1 /\
  emitted (set_current_profile sample_now sample_id sample_manager).2 =
    emitted sample_manager + 1 /\
  emitted (delete_profile sample_now other_id selected_manager).2 =
    emitted selected_manager + 1 /\
  emitted (delete_profile sample_now sample_id selected_manager).2 =
    emitted selected_manager + 2.
Proof.
  split; [|split; [|split]].
  - apply (proj1 (emissions_per_call sample_now empty_manager)
             sample_profile sample_date).
    reflexivity.
  - apply (proj1 (proj2 (proj2 (emissions_per_call sample_now sample_manager)))
             sample_id).
    vm_compute; reflexivity.
  - apply (proj1 (proj2 (proj2 (proj2
             (emissions_per_call sample_now selected_manager)))) other_id).
    vm_compute; reflexivity.
  - apply (proj1 (proj2 (proj2 (proj2 (proj2
             (emissions_per_call sample_now selected_manager))))) sample_id).
    vm_compute; reflexivity.
Defined.

Lemma set_current_profile_iff_listed_witness :
  set_current_profile sample_now sample_id sample_manager =
    (Ok tt, selected sample_id sample_manager) /\
  (set_current_profile sample_now other_id sample_manager).1 =
    Raise invalid_profile_identifier.
Proof.
  assert (HL : exists profiles,
            list_profiles sample_now (settings sample_manager) = Ok profiles /\
            sample_id ∈ ProfileSettings.id <$> profiles /\
            other_id ∉ ProfileSettings.id <$> profiles).
  { eexists. split; [vm_compute; reflexivity|].
    split; [apply list_elem_of_In; vm_compute; auto|].
    rewrite list_elem_of_In. vm_compute. intros [[=]|[]]. }
  destruct HL as (profiles & HL & Hin & Hout).
  split.
  - by apply (set_current_profile_iff_listed sample_now sample_id
                sample_manager profiles HL).
  - by apply (set_current_profile_iff_listed sample_now other_id
                sample_manager profiles HL).
Defined.

Lemma set_current_profile_failure_changes_nothing_witness :
  set_current_profile sample_now other_id sample_manager =
    (Raise invalid_profile_identifier, sample_manager).
Proof.
  assert (HL : exists profiles,
            list_profiles sample_now (settings sample_manager) = Ok profiles /\
            other_id ∉ ProfileSettings.id <$> profiles).
  { eexists. split; [vm_compute; reflexivity|].
    rewrite list_elem_of_In. vm_compute. intros [[=]|[]]. }
  destruct HL as (profiles & HL & Hout).
  by apply (proj1 (set_current_profile_failure_changes_nothing
                     sample_now other_id sample_manager) profiles).
Defined.

(** ** The order of dates and the latest profile *)


Lemma dt_lt_irrefl a : ~ dt_lt a a.
Proof. unfold dt_lt. apply irreflexivity, _. Qed.








(** ** Reads of a store after writes and removals *)

Lemma lookup_remove_outside (h : QgsSettings) (key : string) (m : store)
    (k : list string) :
  ~ full_key h key `prefix_of` k -> remove h key m !! k = m !! k.
Proof.
  intros Hk. unfold remove. apply option_eq. intros v.
  rewrite map_lookup_filter_Some. simpl. tauto.
Qed.

Lemma lookup_remove_inside (h : QgsSettings) (key : string) (m : store)
    (k : list string) :
  full_key h key `prefix_of` k -> remove h key m !! k = None.
Proof.
  intros Hk. unfold remove. apply map_lookup_filter_None. right.
  intros v _. simpl. by intros [].
Qed.

Lemma write_all_lookup_notin (ws : list (list string * option string))
    (m : store) (k : list string) :
  k ∉ ws.*1 -> write_all ws m !! k = m !! k.
Proof.
  revert m; induction ws as [|[k' v] ws IH]; intros m Hk; simpl in *; [done|].
  apply not_elem_of_cons in Hk as [Hne Hk].
  by rewrite IH, lookup_insert_ne.
Qed.

Lemma write_all_is_Some (ws : list (list string * option string))
    (m : store) (k : list string) :
  is_Some (write_all ws m !! k) <-> is_Some (m !! k) \/ k ∈ ws.*1.
Proof.
  revert m; induction ws as [|[k' v] ws IH]; intros m; simpl.
  - rewrite elem_of_nil. tauto.
  - rewrite IH, elem_of_cons.
    destruct (decide (k = k')) as [->|Hne].
    + rewrite lookup_insert_eq. split; [auto|]. intros _. left. by eexists.
    + rewrite lookup_insert_ne by done. tauto.
Qed.

(** A key written with one value only reads as that value. *)
Lemma write_all_lookup_uniform (ws : list (list string * option string))
    (m : store) (k : list string) (v : option string) :
  k ∈ ws.*1 -> (forall v', (k, v') ∈ ws -> v' = v) ->
  write_all ws m !! k = Some v.
Proof.
  revert m; induction ws as [|[k' v'] ws IH]; intros m Hk Hv; simpl in *.
  - by apply elem_of_nil in Hk.
  - destruct (decide (k ∈ ws.*1)) as [Hin|Hout].
    + apply IH; [done|]. intros v'' Hv''. apply Hv. by right.
    + rewrite write_all_lookup_notin by done.
      apply elem_of_cons in Hk as [->|Hk]; [|done].
      rewrite lookup_insert_eq. f_equal. apply Hv. by left.
Qed.

Lemma childGroups_write_all (h : QgsSettings)
    (ws : list (list string * option string)) (m : store) (c : string) :
  c ∈ childGroups h (write_all ws m) <->
  c ∈ childGroups h m \/
  exists k, k ∈ ws.*1 /\ child_group (group h) k = Some c.
Proof.
  rewrite !elem_of_childGroups. setoid_rewrite write_all_is_Some.
  split.
  - intros (k & [Hk|Hk] & Hc); [left|right]; by exists k.
  - intros [(k & Hk & Hc)|(k & Hk & Hc)]; exists k; auto.
Qed.

Lemma childGroups_insert (h : QgsSettings) (k : list string)
    (v : option string) (m : store) (c : string) :
  c ∈ childGroups h m -> c ∈ childGroups h (<[k := v]> m).
Proof.
  intros Hc. apply (childGroups_write_all h [(k, v)] m c). by left.
Qed.

(** ** The profiles that are listed *)

Lemma collect_Forall2 {A B} (f : A -> result B) (l : list A) (bs : list B) :
  collect f l = Ok bs -> Forall2 (fun a b => f a = Ok b) l bs.
Proof.
  revert bs; induction l as [|a l IH]; intros bs; simpl.
  - intros [= <-]. constructor.
  - destruct (f a) as [b|e] eqn:Hb; [|done]. simpl.
    destruct (collect f l) as [bs'|e]; [|done]. simpl.
    intros [= <-]. constructor; auto.
Qed.

Lemma list_profiles_ids (now : datetime) (m : store)
    (profiles : list ProfileSettings.t) (u : UUID) :
  list_profiles now m = Ok profiles ->
  u ∈ ProfileSettings.id <$> profiles <-> profile_stored m u.
Proof.
  intros HL%collect_Forall2. fold profiles_settings in HL.
  unfold profile_stored. rewrite list_elem_of_fmap. split.
  - intros (p & -> & Hp). apply list_elem_of_lookup in Hp as [i Hi].
    destruct (Forall2_lookup_r _ _ _ _ _ HL Hi) as (g & Hg & Hdec).
    exists g. split; [by eapply list_elem_of_lookup_2|].
    by eapply from_qgs_settings_id.
  - intros (g & Hg & Hu). apply list_elem_of_lookup in Hg as [i Hi].
    destruct (Forall2_lookup_l _ _ _ _ _ HL Hi) as (p & Hp & Hdec).
    exists p. split; [|by eapply list_elem_of_lookup_2].
    apply from_qgs_settings_id in Hdec. congruence.
Qed.

(** ** The pointer to the current profile *)

Lemma current_pointer_lookup (m : store) :
  current_pointer m = mjoin (m !! pointer_key).
Proof. reflexivity. Qed.

Lemma get_current_profile_no_pointer (now : datetime) (m : store) :
  current_pointer m = None -> get_current_profile now m = Ok None.
Proof.
  intros H. unfold get_current_profile. fold (current_pointer m). by rewrite H.
Qed.

Lemma pointer_valid_no_pointer (m : store) :
  current_pointer m = None -> pointer_valid m.
Proof. intros H c. by rewrite H. Qed.

Lemma pointer_cleared (m : store) :
  current_pointer (<[pointer_key := None]> m) = None.
Proof. by rewrite current_pointer_lookup, lookup_insert_eq. Qed.

Lemma full_key_profile_group (u : UUID) :
  full_key profiles_settings (uuid_str u) = profiles_root ++ [uuid_str u].
Proof.
  rewrite full_key_segment by apply uuid_str_segment.
  unfold profiles_settings.
  by rewrite group_qgis_settings, sanitize_profiles_root.
Qed.

Lemma pointer_outside_profiles (rest : list string) :
  ~ profiles_root ++ rest `prefix_of` pointer_key.
Proof. intros [more H]. by destruct rest. Qed.

Lemma current_pointer_remove (u : UUID) (m : store) :
  current_pointer (remove profiles_settings (uuid_str u) m) =
  current_pointer m.
Proof.
  rewrite !current_pointer_lookup, lookup_remove_outside; [done|].
  rewrite full_key_profile_group. apply pointer_outside_profiles.
Qed.

Lemma profile_stored_remove (u v : UUID) (m : store) :
  uuid_wf u -> v <> u -> profile_stored m v ->
  profile_stored (remove profiles_settings (uuid_str u) m) v.
Proof.
  intros Hwf Hne (g & Hg & Hv). exists g. split; [|done].
  apply elem_of_childGroups in Hg as (k & Hk & Hc).
  apply elem_of_childGroups. exists k. split; [|done].
  rewrite lookup_remove_outside; [done|].
  rewrite full_key_profile_group. intros [more Hpre].
  apply child_group_Some in Hc as (rest & _ & ->).
  unfold profiles_settings in Hpre.
  rewrite group_qgis_settings, sanitize_profiles_root in Hpre.
  rewrite <- app_assoc in Hpre. apply app_inv_head in Hpre.
  injection Hpre as -> _.
  rewrite (uuid_of_string_str u Hwf) in Hv. by injection Hv as <-.
Qed.

(** Writes that leave the pointer's key alone keep the pointer valid:
    no write takes a profile group away. *)
Lemma keys_off_pointer_keep_pointer
    (ws : list (list string * option string)) (m : store) :
  Forall (fun k => k <> pointer_key) ws.*1 ->
  pointer_valid m -> pointer_valid (write_all ws m).
Proof.
  intros Hws Hm c. rewrite current_pointer_lookup, write_all_lookup_notin.
  - intros (u & Hu & g & Hg & Hgu)%Hm. exists u. split; [done|].
    exists g. split; [|done]. apply childGroups_write_all. by left.
  - intros Hin. eapply Forall_forall in Hws; [|done]. done.
Qed.

(** A key of one segment other than the pointer's name is not the
    pointer's key, in whatever group it is set. *)
Lemma segment_key_off_pointer (h : QgsSettings) (key : string) :
  is_segment key -> key <> SELECTED_PROFILE_KEY ->
  full_key h key <> pointer_key.
Proof.
  intros Hkey Hne. rewrite full_key_segment by done.
  change pointer_key with ([BASE_GROUP_NAME] ++ [SELECTED_PROFILE_KEY]).
  intros Heq. apply app_inj_tail in Heq as [_ Heq]. done.
Qed.

Lemma template_writes_off_pointer profile t :
  Forall (fun k => k <> pointer_key) (template_writes profile t).*1.
Proof.
  unfold template_writes. cbn [fmap list_fmap fst].
  apply Forall_cons_2;
    [by apply segment_key_off_pointer; [apply is_segment_name|]|].
  apply Forall_cons_2;
    [by apply segment_key_off_pointer; [apply is_segment_id|]|].
  apply Forall_nil_2.
Qed.

Lemma symbology_writes_off_pointer profile s :
  Forall (fun k => k <> pointer_key) (symbology_writes profile s).*1.
Proof.
  unfold symbology_writes. cbn [fmap list_fmap fst].
  apply Forall_cons_2;
    [by apply segment_key_off_pointer; [apply is_segment_name|]|].
  apply Forall_cons_2;
    [by apply segment_key_off_pointer; [apply is_segment_id|]|].
  apply Forall_nil_2.
Qed.

Lemma profile_writes_off_pointer profile created :
  Forall (fun k => k <> pointer_key) (profile_writes profile created).*1.
Proof.
  unfold profile_writes. rewrite !fmap_app. repeat apply Forall_app_2.
  - induction (ProfileSettings.templates profile) as [|t l IH]; [constructor|].
    cbn [fmap list_fmap concat]. rewrite fmap_app.
    apply Forall_app_2; [apply template_writes_off_pointer|apply IH].
  - induction (ProfileSettings.symbology profile) as [|s l IH]; [constructor|].
    cbn [fmap list_fmap concat]. rewrite fmap_app.
    apply Forall_app_2; [apply symbology_writes_off_pointer|apply IH].
  - cbn [fmap list_fmap fst].
    apply Forall_cons_2;
      [by apply segment_key_off_pointer; [apply is_segment_name|]|].
    apply Forall_cons_2;
      [by apply segment_key_off_pointer; [apply is_segment_path|]|].
    apply Forall_cons_2;
      [by apply segment_key_off_pointer; [apply is_segment_created_date|]|].
    apply Forall_nil_2.
Qed.

Lemma get_profile_settings_unfold (now : datetime) (u : UUID) (m : store) :
  get_profile_settings now u m =
  ProfileSettings.from_qgs_settings now (uuid_str u)
    (qgis_settings (_get_profile_settings_base (uuid_str u))) m.
Proof. reflexivity. Qed.

Lemma get_current_profile_unfold (now : datetime) (m : store) :
  get_current_profile now m =
  match current_pointer m with
  | Some c =>
      u <- uuid_of_string c;;
      p <- get_profile_settings now u m;;
      Ok (Some p)
  | None => Ok None
  end.
Proof. reflexivity. Qed.

Lemma get_profile_settings_id (now : datetime) (u : UUID) (m : store)
    (p : ProfileSettings.t) :
  uuid_wf u -> get_profile_settings now u m = Ok p -> ProfileSettings.id p = u.
Proof.
  intros Hwf Hp. rewrite get_profile_settings_unfold in Hp.
  apply from_qgs_settings_id in Hp.
  rewrite (uuid_of_string_str u Hwf) in Hp. by injection Hp as <-.
Qed.

(** When [is_current_profile] answers, the pointer reads as a UUID, and
    the answer is whether that UUID is the one asked about. *)
Lemma is_current_profile_answer (now : datetime) (identifier : UUID)
    (m : store) (answer : bool) :
  is_current_profile now identifier m = Ok answer ->
  match current_pointer m with
  | Some c =>
      exists u, uuid_of_string c = Ok u /\
                answer = bool_decide (u = identifier)
  | None => answer = false
  end.
Proof.
  unfold is_current_profile. rewrite get_current_profile_unfold.
  destruct (current_pointer m) as [c|]; [|by intros [= <-]].
  destruct (uuid_of_string c) as [u|e] eqn:Hu; [|done]. cbn [rbind].
  destruct (get_profile_settings now u m) as [p|e] eqn:Hp; [|done].
  cbn [rbind]. intros [= <-]. exists u. split; [done|].
  by rewrite (get_profile_settings_id now u m p)
    by (done || by eapply uuid_of_string_wf).
Qed.

Lemma pointer_valid_empty : pointer_valid ∅.
Proof. by apply pointer_valid_no_pointer. Qed.

Lemma profile_stored_insert (k : list string) (v : option string)
    (m : store) (u : UUID) :
  profile_stored m u -> profile_stored (<[k := v]> m) u.
Proof.
  intros (g & Hg & Hu). exists g. split; [|done]. by apply childGroups_insert.
Qed.

Lemma set_current_profile_stored (now : datetime) (identifier : UUID)
    (w : manager) :
  (set_current_profile now identifier w).1 = Ok tt ->
  profile_stored (settings w) identifier /\
  (set_current_profile now identifier w).2 = selected identifier w.
Proof.
  rewrite set_current_profile_unfold.
  destruct (list_profiles now (settings w)) as [profiles|e] eqn:HL; [|done].
  destruct (decide _) as [|Hin]; [done|]. intros _.
  apply dec_stable in Hin. split; [|done].
  by apply (list_profiles_ids now _ profiles).
Qed.

Lemma pointer_selected (identifier : UUID) (w : manager) :
  current_pointer (settings (selected identifier w)) =
  Some (uuid_str identifier).
Proof.
  unfold selected. cbn [settings].
  by rewrite current_pointer_lookup, lookup_insert_eq.
Qed.

Lemma run_keeps_pointer_valid (now : datetime) (op : operation)
    (w : manager) :
  operation_wf op -> pointer_valid (settings w) ->
  pointer_valid (settings (run now op w).2).
Proof.
  intros Hwf Hw. destruct op as [profile|identifier| |identifier| |profile t|profile s];
    cbn [run operation_wf] in *.
  - destruct (ProfileSettings.created_date profile) as [d|] eqn:Hd.
    + rewrite (save_profile_settings_dated _ d) by done. cbn [snd settings].
      apply keys_off_pointer_keep_pointer;
        [apply profile_writes_off_pointer|done].
    + by rewrite save_profile_settings_undated.
  - rewrite delete_profile_unfold.
    destruct (is_current_profile now identifier (settings w))
      as [[|]|e] eqn:Hcur; cbn [snd settings]; [| |done].
    + apply pointer_valid_no_pointer.
      by rewrite current_pointer_remove, pointer_cleared.
    + intros c. rewrite current_pointer_remove. intros Hc.
      apply is_current_profile_answer in Hcur. rewrite Hc in Hcur.
      destruct Hcur as (u & Hu & Hne).
      destruct (Hw c Hc) as (u' & Hu' & Hstored).
      rewrite Hu in Hu'. injection Hu' as <-.
      exists u. split; [done|]. apply profile_stored_remove; [done| |done].
      symmetry in Hne. by apply bool_decide_eq_false in Hne.
  - rewrite delete_all_profiles_unfold. cbn [snd settings].
    apply pointer_valid_no_pointer, pointer_cleared.
  - rewrite set_current_profile_unfold.
    destruct (list_profiles now (settings w)) as [profiles|e] eqn:HL; [|done].
    destruct (decide _) as [|Hin]; [done|]. cbn [snd].
    apply dec_stable in Hin. intros c. rewrite pointer_selected. intros [= <-].
    exists identifier. split; [by apply uuid_of_string_str|].
    by apply profile_stored_insert, (list_profiles_ids now _ profiles).
  - rewrite clear_current_profile_unfold. cbn [snd settings].
    apply pointer_valid_no_pointer, pointer_cleared.
  - rewrite save_template_writes. cbn [snd settings written].
    apply keys_off_pointer_keep_pointer;
      [apply template_writes_off_pointer|done].
  - rewrite save_symbology_writes. cbn [snd settings written].
    apply keys_off_pointer_keep_pointer;
      [apply symbology_writes_off_pointer|done].
Qed.

(** C5: every operation of the manager that changes the store keeps the
    pointer valid: when the pointer is present, it reads as the
    identifier of a stored profile.  [set_current_profile] goes through
    only for an identifier of a stored profile, and leaves the pointer at
    its string form; after [delete_profile] of the current profile the
    pointer reads [None] and [get_current_profile] returns [None]. *)
Theorem pointer_stays_valid (now : datetime) (w : manager) :
  (forall op,
     operation_wf op -> pointer_valid (settings w) ->
     pointer_valid (settings (run now op w).2)) /\
  (forall identifier,
     (set_current_profile now identifier w).1 = Ok tt ->
     profile_stored (settings w) identifier /\
     current_pointer (settings (set_current_profile now identifier w).2) =
       Some (uuid_str identifier)) /\
  (forall identifier,
     is_current_profile now identifier (settings w) = Ok true ->
     (delete_profile now identifier w).1 = Ok tt /\
     current_pointer (settings (delete_profile now identifier w).2) = None /\
     get_current_profile now (settings (delete_profile now identifier w).2) =
       Ok None).
Proof.
  split; [|split].
  - intros op. apply run_keeps_pointer_valid.
  - intros identifier Hres.
    destruct (set_current_profile_stored now identifier w Hres) as [Hs ->].
    split; [done|apply pointer_selected].
  - intros identifier Hcur. rewrite delete_profile_unfold, Hcur.
    cbn [fst snd settings].
    assert (Hnone : current_pointer
              (remove profiles_settings (uuid_str identifier)
                 (<[pointer_key := None]> (settings w))) = None)
      by (by rewrite current_pointer_remove, pointer_cleared).
    split; [done|]. split; [done|].
    by apply get_current_profile_no_pointer.
Qed.

Lemma pointer_stays_valid_witness :
  pointer_valid
    (settings
       (run sample_now (DeleteProfile other_id)
          (run sample_now (SetCurrentProfile sample_id)
             (run sample_now (SaveProfile sample_profile) empty_manager).2).2).2)
  /\ get_current_profile sample_now
       (settings (delete_profile sample_now sample_id selected_manager).2) =
     Ok None.
Proof.
  split.
  - apply (proj1 (pointer_stays_valid sample_now _) (DeleteProfile other_id));
      [reflexivity|].
    apply (proj1 (pointer_stays_valid sample_now _) (SetCurrentProfile sample_id));
      [reflexivity|].
    apply (proj1 (pointer_stays_valid sample_now _) (SaveProfile sample_profile));
      [exact I|].
    apply pointer_valid_empty.
  - apply (proj2 (proj2 (pointer_stays_valid sample_now selected_manager))
             sample_id).
    vm_compute; reflexivity.
Defined.

(** ** Saving a profile and reading it back *)

Lemma elem_of_concat_fmap {A B} (f : A -> list B) (l : list A) (x : B) :
  x ∈ concat (f <$> l) <-> exists a, a ∈ l /\ x ∈ f a.
Proof.
  induction l as [|a l IH]; cbn [fmap list_fmap concat].
  - split; [by intros ?%elem_of_nil|by intros (a & ?%elem_of_nil & _)].
  - rewrite elem_of_app, IH. split.
    + intros [Hx|(a' & Ha' & Hx)]; [exists a|exists a']; split; auto;
        [by left|by right].
    + intros (a' & [->|Ha']%elem_of_cons & Hx); [by left|right; eauto].
Qed.

Lemma child_group_child_key (uid G s field : string) :
  child_group (profiles_root ++ [uid; G]) (child_key uid G s field) = Some s.
Proof. apply child_group_Some. by exists [field]. Qed.

Section ChildRecords.
Context {A : Type} (name_of id_of : A -> option string).
Context (wr : A -> list (list string * option string)) (uid G : string).

Hypothesis wr_valid : forall a s,
  id_of a = Some s -> plain_segment s ->
  wr a = [(child_key uid G s "name", name_of a);
          (child_key uid G s "id", Some s)].

Variables (recs : list A) (pre post : list (list string * option string)).
Variable m : store.

Hypothesis recs_valid : Forall (fun a => valid_child_id (id_of a)) recs.

Hypothesis foreign :
  Forall (fun k => child_group (profiles_root ++ [uid; G]) k = None)
    (pre ++ post).*1.

Hypothesis old_known : forall c,
  c ∈ childGroups (children_group uid G) m -> Some c ∈ id_of <$> recs.

Let ws := pre ++ concat (wr <$> recs) ++ post.

Lemma child_write (k : list string) (v : option string) :
  (k, v) ∈ ws ->
  child_group (profiles_root ++ [uid; G]) k = None \/
  exists a s, a ∈ recs /\ id_of a = Some s /\ plain_segment s /\
    ((k = child_key uid G s "name" /\ v = name_of a) \/
     (k = child_key uid G s "id" /\ v = Some s)).
Proof using wr_valid recs_valid foreign.
  unfold ws. rewrite !elem_of_app, elem_of_concat_fmap.
  intros Hkv.
  assert (Hcase : (k, v) ∈ pre ++ post \/ exists a, a ∈ recs /\ (k, v) ∈ wr a).
  { rewrite elem_of_app. tauto. }
  clear Hkv. destruct Hcase as [Hf|(a & Ha & Hkv)].
  - left. eapply Forall_forall in foreign; [exact foreign|].
    apply list_elem_of_fmap. by exists (k, v).
  - right. eapply Forall_forall in recs_valid; [|exact Ha].
    destruct recs_valid as (s & Hs & Hseg).
    rewrite (wr_valid a s Hs Hseg) in Hkv. exists a, s.
    split_and!; try done.
    apply elem_of_cons in Hkv as [[= -> ->]|Hkv]; [by left|].
    apply elem_of_cons in Hkv as [[= -> ->]|Hkv]; [by right|].
    by apply elem_of_nil in Hkv.
Qed.

Lemma listed_id_written (s : string) :
  Some s ∈ id_of <$> recs ->
  plain_segment s /\ child_key uid G s "id" ∈ ws.*1.
Proof using wr_valid recs_valid.
  intros (a & Hs & Ha)%list_elem_of_fmap.
  pose proof recs_valid as Hv. eapply Forall_forall in Hv; [|exact Ha].
  destruct Hv as (s' & Hs' & Hseg). rewrite Hs' in Hs. injection Hs as ->.
  split; [done|]. apply list_elem_of_fmap.
  exists (child_key uid G s' "id", Some s'). split; [done|].
  unfold ws. rewrite !elem_of_app, elem_of_concat_fmap.
  right; left. exists a. split; [done|].
  rewrite (wr_valid a s' Hs' Hseg). right. by left.
Qed.

Lemma child_id_read_back (s : string) :
  Some s ∈ id_of <$> recs ->
  write_all ws m !! child_key uid G s "id" = Some (Some s).
Proof using wr_valid recs_valid foreign.
  intros Hs. destruct (listed_id_written s Hs) as [Hseg Hin].
  apply write_all_lookup_uniform; [done|].
  intros v' [Hnone|(a & s' & Ha & Hs' & Hseg' & [[Hk _]|[Hk ->]])]%child_write.
  - by rewrite child_group_child_key in Hnone.
  - by injection Hk.
  - by injection Hk as ->.
Qed.

Lemma child_groups_after (c : string) :
  c ∈ childGroups (children_group uid G) (write_all ws m) <->
  Some c ∈ id_of <$> recs.
Proof using wr_valid recs_valid foreign old_known.
  rewrite childGroups_write_all. cbn [children_group group]. split.
  - intros [Hold|(k & Hk & Hc)]; [by apply old_known|].
    apply list_elem_of_fmap in Hk as ([k' v] & -> & Hkv). cbn [fst] in Hc.
    apply child_write in Hkv
      as [Hnone|(a & s & Ha & Hs & Hseg & [[-> _]|[-> _]])];
      [congruence| |];
      rewrite child_group_child_key in Hc; injection Hc as <-;
      apply list_elem_of_fmap; by exists a.
  - intros Hc. right. exists (child_key uid G c "id").
    split; [by apply listed_id_written|apply child_group_child_key].
Qed.

End ChildRecords.

Lemma template_group_settings (u : UUID) :
  qgis_settings
    (BASE_GROUP_NAME +:+ "/" +:+ PROFILE_GROUP_NAME +:+ "/" +:+
     uuid_str u +:+ "/" +:+ TEMPLATE_GROUP_NAME) =
  children_group (uuid_str u) TEMPLATE_GROUP_NAME.
Proof.
  unfold qgis_settings, beginGroup, children_group. cbn [group app].
  by rewrite sanitize_template_group.
Qed.

Lemma symbology_group_settings (u : UUID) :
  qgis_settings
    (BASE_GROUP_NAME +:+ "/" +:+ PROFILE_GROUP_NAME +:+ "/" +:+
     uuid_str u +:+ "/" +:+ SYMBOLOGY_GROUP_NAME) =
  children_group (uuid_str u) SYMBOLOGY_GROUP_NAME.
Proof.
  unfold qgis_settings, beginGroup, children_group. cbn [group app].
  by rewrite sanitize_symbology_group.
Qed.



Lemma template_writes_valid (profile : ProfileSettings.t)
    (t : TemplateSettings.t) (s : string) :
  TemplateSettings.id t = Some s -> plain_segment s ->
  template_writes profile t =
  [(child_key (uuid_str (ProfileSettings.id profile)) TEMPLATE_GROUP_NAME s "name",
    TemplateSettings.name t);
   (child_key (uuid_str (ProfileSettings.id profile)) TEMPLATE_GROUP_NAME s "id",
    Some s)].
Proof.
  intros Hs Hseg. unfold template_writes.
  rewrite !full_key_template, Hs
    by (rewrite ?Hs; (by apply dot_free_segment) || apply is_segment_name ||
        apply is_segment_id).
  cbn [py_str]. by rewrite split_path_segment by apply Hseg.
Qed.

Lemma symbology_writes_valid (profile : ProfileSettings.t)
    (y : SymbologySettings.t) (s : string) :
  SymbologySettings.id y = Some s -> plain_segment s ->
  symbology_writes profile y =
  [(child_key (uuid_str (ProfileSettings.id profile)) SYMBOLOGY_GROUP_NAME s "name",
    SymbologySettings.name y);
   (child_key (uuid_str (ProfileSettings.id profile)) SYMBOLOGY_GROUP_NAME s "id",
    Some s)].
Proof.
  intros Hs Hseg. unfold symbology_writes.
  rewrite !full_key_symbology, Hs
    by (rewrite ?Hs; (by apply dot_free_segment) || apply is_segment_name ||
        apply is_segment_id).
  cbn [py_str]. by rewrite split_path_segment by apply Hseg.
Qed.

Lemma child_group_other_group (uid G G' : string) (rest : list string) :
  G <> G' ->
  child_group (profiles_root ++ [uid; G]) (profiles_root ++ [uid; G'] ++ rest) =
  None.
Proof.
  intros HG. destruct (child_group _ _) as [c|] eqn:Hc; [|done].
  apply child_group_Some in Hc as (more & _ & Heq).
  rewrite <- app_assoc in Heq. apply app_inv_head in Heq.
  injection Heq as Heq _. by destruct HG.
Qed.

Lemma child_group_profile_field (uid G field : string) :
  child_group (profiles_root ++ [uid; G]) (profiles_root ++ [uid; field]) = None.
Proof.
  destruct (child_group _ _) as [c|] eqn:Hc; [|done].
  apply child_group_Some in Hc as (more & _ & Heq).
  rewrite <- app_assoc in Heq. apply app_inv_head in Heq. by injection Heq.
Qed.

Lemma valid_child_id_dot_free (i : option string) :
  valid_child_id i -> dot_free (py_str i).
Proof. intros (s & -> & Hs). by apply dot_free_segment. Qed.

Lemma template_writes_foreign (profile : ProfileSettings.t)
    (l : list TemplateSettings.t) :
  Forall (fun t => valid_child_id (TemplateSettings.id t)) l ->
  Forall (fun k =>
            child_group (profiles_root ++
              [uuid_str (ProfileSettings.id profile); SYMBOLOGY_GROUP_NAME]) k =
            None)
    (concat (template_writes profile <$> l)).*1.
Proof.
  induction 1 as [|t l Ht _ IH]; [constructor|].
  cbn [fmap list_fmap concat]. rewrite fmap_app.
  apply Forall_app_2; [|exact IH].
  unfold template_writes. cbn [fmap list_fmap fst].
  rewrite !full_key_template
    by ((by apply valid_child_id_dot_free) || apply is_segment_name ||
        apply is_segment_id).
  repeat constructor; by apply child_group_other_group.
Qed.

Lemma symbology_writes_foreign (profile : ProfileSettings.t)
    (l : list SymbologySettings.t) :
  Forall (fun y => valid_child_id (SymbologySettings.id y)) l ->
  Forall (fun k =>
            child_group (profiles_root ++
              [uuid_str (ProfileSettings.id profile); TEMPLATE_GROUP_NAME]) k =
            None)
    (concat (symbology_writes profile <$> l)).*1.
Proof.
  induction 1 as [|t l Ht _ IH]; [constructor|].
  cbn [fmap list_fmap concat]. rewrite fmap_app.
  apply Forall_app_2; [|exact IH].
  unfold symbology_writes. cbn [fmap list_fmap fst].
  rewrite !full_key_symbology
    by ((by apply valid_child_id_dot_free) || apply is_segment_name ||
        apply is_segment_id).
  repeat constructor; by apply child_group_other_group.
Qed.

Lemma profile_writes_fields (profile : ProfileSettings.t) (created : string) :
  profile_writes profile created =
  concat (template_writes profile <$> ProfileSettings.templates profile) ++
  concat (symbology_writes profile <$> ProfileSettings.symbology profile) ++
  field_writes profile created.
Proof.
  unfold profile_writes, field_writes, full_key.
  by rewrite group_qgis_settings, sanitize_profile_base_uuid, <- !app_assoc.
Qed.

Lemma field_writes_foreign (profile : ProfileSettings.t) (created G : string) :
  Forall (fun k =>
            child_group (profiles_root ++
              [uuid_str (ProfileSettings.id profile); G]) k = None)
    (field_writes profile created).*1.
Proof.
  unfold field_writes. cbn [fmap list_fmap fst].
  repeat constructor; apply child_group_profile_field.
Qed.

Lemma field_writes_read (profile : ProfileSettings.t) (created : string)
    (m : store) :
  let uid := uuid_str (ProfileSettings.id profile) in
  let m' := write_all (field_writes profile created) m in
  m' !! (profiles_root ++ [uid; "name"]) = Some (ProfileSettings.name profile) /\
  m' !! (profiles_root ++ [uid; "path"]) = Some (ProfileSettings.path profile) /\
  m' !! (profiles_root ++ [uid; "created_date"]) = Some (Some created).
Proof.
  cbn [field_writes write_all]. split_and!.
  - rewrite !lookup_insert_ne by (by intros [=]). apply lookup_insert_eq.
  - rewrite lookup_insert_ne by (by intros [=]). apply lookup_insert_eq.
  - apply lookup_insert_eq.
Qed.

Lemma profile_value (u : UUID) (field : string) (m : store) :
  is_segment field ->
  value (qgis_settings (_get_profile_settings_base (uuid_str u))) field m =
  mjoin (m !! (profiles_root ++ [uuid_str u; field])).
Proof.
  intros Hf. unfold value. rewrite full_key_segment by done.
  by rewrite group_qgis_settings, sanitize_profile_base_uuid, <- app_assoc.
Qed.

(** The store after a save of [profile], as far as reading the profile
    back goes. *)
Section SavedProfile.
Variables (profile : ProfileSettings.t) (created : string) (m : store).

Let uid := uuid_str (ProfileSettings.id profile).
Let m' := write_all (profile_writes profile created) m.

Hypothesis templates_valid :
  Forall (fun t => valid_child_id (TemplateSettings.id t))
    (ProfileSettings.templates profile).

Hypothesis symbology_valid :
  Forall (fun y => valid_child_id (SymbologySettings.id y))
    (ProfileSettings.symbology profile).

Hypothesis templates_known : forall c,
  c ∈ childGroups (children_group uid TEMPLATE_GROUP_NAME) m ->
  Some c ∈ TemplateSettings.id <$> ProfileSettings.templates profile.

Hypothesis symbology_known : forall c,
  c ∈ childGroups (children_group uid SYMBOLOGY_GROUP_NAME) m ->
  Some c ∈ SymbologySettings.id <$> ProfileSettings.symbology profile.

Lemma saved_fields :
  m' !! (profiles_root ++ [uid; "name"]) = Some (ProfileSettings.name profile) /\
  m' !! (profiles_root ++ [uid; "path"]) = Some (ProfileSettings.path profile) /\
  m' !! (profiles_root ++ [uid; "created_date"]) = Some (Some created).
Proof.
  unfold m'. rewrite profile_writes_fields, app_assoc, write_all_app.
  apply field_writes_read.
Qed.


End SavedProfile.




(** Saved to an empty store, it reads back with a template whose id is
    [None]: the id was split into two groups. *)
Lemma slashed_template_id_lost :
  exists q,
    get_profile_settings sample_now sample_id
      (settings (save_profile_settings slashed_profile empty_manager).2) = Ok q /\
    TemplateSettings.id <$> ProfileSettings.templates q = [None].
Proof. eexists. split; [vm_compute; reflexivity|reflexivity]. Qed.

(** A year below 1000 is written without leading zeros, which [%Y] does
    not read back: the profile is saved, and reading it raises. *)
Lemma early_year_profile_unreadable :
  dt_valid early_date = true /\
  strftime early_date DATE_FORMAT = "999-12-31T23:59:59.000000Z" /\
  (save_profile_settings early_profile empty_manager).1 = Ok tt /\
  get_profile_settings sample_now sample_id
    (settings (save_profile_settings early_profile empty_manager).2) =
  Raise (ValueError "time data does not match format").
Proof. by vm_compute. Qed.

(** A template whose id is [..] is written over the fields of the
    profile and is not read back. *)
Lemma dotted_template_id_lost :
  exists q,
    get_profile_settings sample_now sample_id
      (settings (save_profile_settings dotted_profile empty_manager).2) = Ok q /\
    ProfileSettings.templates q = [] /\
    settings (save_profile_settings dotted_profile empty_manager).2
      !! (profile_group sample_id ++ ["id"]) = Some (Some "..").
Proof.
  eexists. split; [vm_compute; reflexivity|]. split; [reflexivity|].
  by vm_compute.
Qed.

(** * Further properties *)



(** ** What decoding depends on *)

Lemma from_qgs_settings_outcome (now : datetime) (identifier : string)
    (settings : QgsSettings) (m : store) :
  ProfileSettings.from_qgs_settings now identifier settings m =
  (u <- uuid_of_string identifier;;
   d <- match value settings "created_date" m with
        | Some v => d <- strptime v DATE_FORMAT;; Ok (Some d)
        | None => Ok None
        end;;
   Ok (decoded u settings m d)).
Proof.
  destruct (uuid_of_string identifier) as [u|e] eqn:Hu; simpl.
  - destruct (value settings "created_date" m) as [v|] eqn:Hv; simpl.
    + destruct (strptime v DATE_FORMAT) as [d|e] eqn:Hd; simpl.
      * by apply from_qgs_settings_date with v.
      * by apply from_qgs_settings_bad_date with u v.
    + by apply from_qgs_settings_no_date.
  - by apply from_qgs_settings_bad_id.
Qed.

Lemma collect_ext {A B} (f g : A -> result B) (l : list A) :
  (forall a, a ∈ l -> f a = g a) -> collect f l = collect g l.
Proof.
  induction l as [|a l IH]; intros Hfg; simpl; [done|].
  rewrite (Hfg a) by left.
  rewrite IH; [done|].
  intros b Hb. apply Hfg. by right.
Qed.

Lemma list_profiles_unfold (now : datetime) (m : store) :
  list_profiles now m =
  collect
    (fun g =>
       ProfileSettings.from_qgs_settings now g
         (qgis_settings (_get_profile_settings_base g)) m)
    (childGroups profiles_settings m).
Proof. reflexivity. Qed.

Lemma get_latest_profile_unfold (now : datetime) (m : store) :
  get_latest_profile now m =
  (profile_list <- list_profiles now m;;
   match profile_list with
   | [] => Ok None
   | first :: _ => latest <- latest_of first profile_list;; Ok (Some latest)
   end).
Proof. reflexivity. Qed.

Lemma is_profile_unfold (now : datetime) (u : UUID) (m : store) :
  is_profile now u m =
  (profiles <- list_profiles now m;;
   Ok (existsb (fun profile => bool_decide (ProfileSettings.id profile = u))
         profiles)).
Proof. reflexivity. Qed.

Lemma is_current_profile_unfold (now : datetime) (u : UUID) (m : store) :
  is_current_profile now u m =
  (current <- get_current_profile now m;;
   Ok match current with
      | None => false
      | Some c => bool_decide (ProfileSettings.id c = u)
      end).
Proof. reflexivity. Qed.

Lemma list_profiles_ignores_now (now now' : datetime) (m : store) :
  list_profiles now m = list_profiles now' m.
Proof.
  rewrite !list_profiles_unfold. apply collect_ext. intros g _.
  by rewrite !from_qgs_settings_outcome.
Qed.

Lemma get_profile_settings_ignores_now (now now' : datetime) (u : UUID)
    (m : store) :
  get_profile_settings now u m = get_profile_settings now' u m.
Proof.
  rewrite !get_profile_settings_unfold. by rewrite !from_qgs_settings_outcome.
Qed.

(** X1: the outcome of decoding a profile never depends on the clock:
    the handler that would put the current time in place of the date
    is not reached, neither for a missing date nor for one that does not
    parse.  The same holds for every query built on the decoder. *)
Theorem decoding_ignores_now (now now' : datetime) (m : store) :
  (forall (identifier : string) (settings : QgsSettings),
     ProfileSettings.from_qgs_settings now identifier settings m =
     ProfileSettings.from_qgs_settings now' identifier settings m) /\
  list_profiles now m = list_profiles now' m /\
  (forall u : UUID,
     get_profile_settings now u m = get_profile_settings now' u m) /\
  get_current_profile now m = get_current_profile now' m /\
  get_latest_profile now m = get_latest_profile now' m.
Proof.
  split; [|split; [|split; [|split]]].
  - intros identifier h. by rewrite !from_qgs_settings_outcome.
  - apply list_profiles_ignores_now.
  - intros u. apply get_profile_settings_ignores_now.
  - rewrite !get_current_profile_unfold.
    destruct (current_pointer m) as [c|]; [|done].
    destruct (uuid_of_string c) as [u|e]; cbn [rbind]; [|done].
    by rewrite (get_profile_settings_ignores_now now now').
  - rewrite !get_latest_profile_unfold.
    by rewrite (list_profiles_ignores_now now now').
Qed.

(** ** Readable profile groups *)

Lemma from_qgs_settings_readable (now : datetime) (g : string) (m : store) :
  (exists p,
     ProfileSettings.from_qgs_settings now g
       (qgis_settings (_get_profile_settings_base g)) m = Ok p) <->
  readable_group m g.
Proof.
  rewrite from_qgs_settings_outcome. unfold readable_group.
  destruct (uuid_of_string g) as [u|e]; simpl.
  - destruct (value _ "created_date" m) as [v|]; simpl.
    + destruct (strptime v DATE_FORMAT) as [d|e] eqn:Hsp; simpl.
      * split; [|by eexists].
        intros _. split; [by eexists|]. intros v' [= <-]. by exists d.
      * split; [by intros [p Hp]|].
        intros [_ Hd]. destruct (Hd v eq_refl) as [d Hd']. congruence.
    + split; [|by eexists]. intros _. split; [by eexists|]. by intros v'.
  - split; [by intros [p Hp]|]. by intros [[u Hu] _].
Qed.

Lemma from_qgs_settings_raises (now : datetime) (g : string)
    (h : QgsSettings) (m : store) (e : exn) :
  ProfileSettings.from_qgs_settings now g h m = Raise e ->
  exists msg, e = ValueError msg.
Proof.
  rewrite from_qgs_settings_outcome.
  destruct (uuid_of_string g) as [u|e'] eqn:Hu; simpl.
  - destruct (value h "created_date" m) as [v|]; simpl; [|done].
    destruct (strptime v DATE_FORMAT) as [d|e'] eqn:Hd; simpl; [done|].
    intros [= <-]. by apply strptime_raises in Hd.
  - intros [= <-]. by apply uuid_of_string_raises in Hu.
Qed.

Lemma collect_Ok {A B} (f : A -> result B) (l : list A) :
  (exists bs, collect f l = Ok bs) <-> forall a, a ∈ l -> exists b, f a = Ok b.
Proof.
  induction l as [|a l IH]; simpl.
  - split; [|by eexists]. intros _ a Ha. by apply elem_of_nil in Ha.
  - split.
    + intros [bs Hbs] a' Ha'.
      destruct (f a) as [b|e] eqn:Hfa; simpl in Hbs; [|done].
      destruct (collect f l) as [bs'|e] eqn:Hc; simpl in Hbs; [|done].
      apply elem_of_cons in Ha' as [->|Ha']; [by eexists|].
      apply IH; [by eexists|done].
    + intros Hall.
      destruct (Hall a) as [b ->]; [by left|]. simpl.
      destruct (proj2 IH) as [bs ->]; [|by eexists].
      intros a' Ha'. apply Hall. by right.
Qed.

Lemma collect_Raise {A B} (f : A -> result B) (l : list A) (e : exn) :
  collect f l = Raise e -> exists a, a ∈ l /\ f a = Raise e.
Proof.
  induction l as [|a l IH]; simpl; [done|].
  destruct (f a) as [b|e'] eqn:Hfa; simpl.
  - destruct (collect f l) as [bs|e'] eqn:Hc; simpl; [done|].
    intros [= <-]. destruct (IH eq_refl) as (a' & Ha' & Hfa').
    exists a'. split; [by right|done].
  - intros [= <-]. exists a. split; [by left|done].
Qed.

Lemma list_profiles_readable (now : datetime) (m : store) :
  (exists profiles, list_profiles now m = Ok profiles) <->
  forall g, g ∈ childGroups profiles_settings m -> readable_group m g.
Proof.
  rewrite list_profiles_unfold, collect_Ok.
  split; intros H g Hg; apply (from_qgs_settings_readable now), H, Hg.
Qed.

Lemma list_profiles_raises (now : datetime) (m : store) (e : exn) :
  list_profiles now m = Raise e -> exists msg, e = ValueError msg.
Proof.
  rewrite list_profiles_unfold. intros H.
  apply collect_Raise in H as (g & _ & Hg).
  by apply from_qgs_settings_raises in Hg.
Qed.

(** X2: [list_profiles] returns exactly when every profile group is
    readable: its name reads as a UUID and its date, when present,
    follows the date format.  One unreadable group makes it raise a
    [ValueError], and then [get_latest_profile], [is_profile] and
    [set_current_profile] raise the same exception for every identifier,
    the latter without writing or emitting anything. *)
Theorem one_unreadable_group_blocks (now : datetime) (w : manager) :
  ((exists profiles, list_profiles now (settings w) = Ok profiles) <->
   forall g, g ∈ childGroups profiles_settings (settings w) ->
             readable_group (settings w) g) /\
  (forall e,
     list_profiles now (settings w) = Raise e ->
     (exists msg, e = ValueError msg) /\
     get_latest_profile now (settings w) = Raise e /\
     (forall u : UUID,
        is_profile now u (settings w) = Raise e /\
        set_current_profile now u w = (Raise e, w))).
Proof.
  split; [apply list_profiles_readable|].
  intros e He. split; [by apply list_profiles_raises in He|].
  split; [by rewrite get_latest_profile_unfold, He|].
  intros u. split; [by rewrite is_profile_unfold, He|].
  by rewrite set_current_profile_unfold, He.
Qed.

Lemma one_unreadable_group_blocks_witness :
  set_current_profile sample_now other_id
    {| settings := misdated_store; emitted := 0 |} =
  (Raise (ValueError "time data does not match format"),
   {| settings := misdated_store; emitted := 0 |}).
Proof.
  apply (one_unreadable_group_blocks sample_now
           {| settings := misdated_store; emitted := 0 |}).
  vm_compute; reflexivity.
Defined.

(** ** The latest profile *)

Lemma latest_of_undated (l : list ProfileSettings.t) :
  forall cur : ProfileSettings.t,
    Exists (fun p => ProfileSettings.created_date p = None) l ->
    exists msg, latest_of cur l = Raise (TypeError msg).
Proof.
  induction l as [|p l IH]; intros cur Hex; [by apply Exists_nil in Hex|].
  simpl.
  destruct (ProfileSettings.created_date p) as [dp|] eqn:Hp; simpl;
    [|by eexists].
  destruct (ProfileSettings.created_date cur) as [dc|]; simpl; [|by eexists].
  apply IH. apply Exists_cons in Hex as [Hex|Hex]; [congruence|done].
Qed.

(** X3: [get_latest_profile] raises a [TypeError] as soon as one of the
    listed profiles has no date, a single undated profile included: the
    loop compares dates with [>], which [None] does not support. *)
Theorem get_latest_profile_undated_raises (now : datetime) (m : store)
    (profiles : list ProfileSettings.t) :
  list_profiles now m = Ok profiles ->
  Exists (fun p => ProfileSettings.created_date p = None) profiles ->
  exists msg, get_latest_profile now m = Raise (TypeError msg).
Proof.
  intros Hl Hex. rewrite get_latest_profile_unfold, Hl. simpl.
  destruct profiles as [|first rest]; [by apply Exists_nil in Hex|].
  destruct (latest_of_undated (first :: rest) first Hex) as [msg ->].
  by exists msg.
Qed.

Lemma get_latest_profile_undated_raises_witness :
  exists msg,
    get_latest_profile sample_now undated_store = Raise (TypeError msg).
Proof.
  apply (get_latest_profile_undated_raises sample_now undated_store
           [decoded sample_id
              (qgis_settings (_get_profile_settings_base (uuid_str sample_id)))
              undated_store None]).
  - vm_compute; reflexivity.
  - apply Exists_cons_hd. reflexivity.
Defined.

(** X4: a profile read from a group that has no date cannot be saved
    again: [save_profile_settings] raises an [AttributeError] before it
    writes or emits anything. *)
Theorem undated_profile_cannot_be_saved (now : datetime) (u : UUID)
    (m : store) (p : ProfileSettings.t) (w : manager) :
  get_profile_settings now u m = Ok p ->
  value (qgis_settings (_get_profile_settings_base (uuid_str u)))
    "created_date" m = None ->
  exists msg, save_profile_settings p w = (Raise (AttributeError msg), w).
Proof.
  rewrite get_profile_settings_unfold, from_qgs_settings_outcome.
  intros Hp Hv. rewrite Hv in Hp.
  destruct (uuid_of_string (uuid_str u)) as [u'|e]; simpl in Hp; [|done].
  injection Hp as <-.
  eexists. by apply save_profile_settings_undated.
Qed.

Lemma undated_profile_cannot_be_saved_witness :
  exists msg,
    save_profile_settings
      (decoded sample_id
         (qgis_settings (_get_profile_settings_base (uuid_str sample_id)))
         undated_store None)
      {| settings := undated_store; emitted := 0 |} =
    (Raise (AttributeError msg), {| settings := undated_store; emitted := 0 |}).
Proof.
  apply (undated_profile_cannot_be_saved sample_now sample_id undated_store).
  - vm_compute; reflexivity.
  - vm_compute; reflexivity.
Defined.



(** ** Saving a profile *)

Lemma write_all_union (ws : list (list string * option string)) (m : store) :
  write_all ws m = write_all ws ∅ ∪ m.
Proof.
  revert m; induction ws as [|[k v] ws IH]; intros m; simpl.
  - by rewrite (left_id_L ∅ (∪)).
  - rewrite (IH (<[k := v]> m)), (IH (<[k := v]> ∅)).
    rewrite <- (assoc_L (∪)). f_equal.
    by rewrite insert_union_singleton_l, insert_empty.
Qed.

Lemma write_all_idemp (ws : list (list string * option string)) (m : store) :
  write_all ws (write_all ws m) = write_all ws m.
Proof.
  rewrite (write_all_union ws (write_all ws m)), (write_all_union ws m).
  by rewrite (assoc_L (∪)), (idemp_L (∪)).
Qed.

(** X5: saving a profile a second time leaves the store as the first
    save left it; each of the two saves emits the signal once. *)
Theorem save_profile_settings_twice (profile : ProfileSettings.t)
    (d : datetime) (w : manager) :
  ProfileSettings.created_date profile = Some d ->
  save_profile_settings profile (save_profile_settings profile w).2 =
  (Ok tt,
   {| settings := settings (save_profile_settings profile w).2;
      emitted := S (S (emitted w)) |}).
Proof.
  intros Hd.
  rewrite (save_profile_settings_dated profile d w Hd). cbn [snd].
  rewrite (save_profile_settings_dated profile d _ Hd). cbn [settings emitted].
  by rewrite write_all_idemp.
Qed.

Lemma save_profile_settings_twice_witness :
  save_profile_settings sample_profile
    (save_profile_settings sample_profile empty_manager).2 =
  (Ok tt,
   {| settings := settings (save_profile_settings sample_profile empty_manager).2;
      emitted := 2 |}).
Proof.
  apply (save_profile_settings_twice sample_profile sample_date empty_manager).
  reflexivity.
Defined.

(** The keys a save writes all lie inside the group of the profile. *)
Lemma profile_writes_keys (profile : ProfileSettings.t) (created : string)
    (k : list string) :
  children_dot_free profile ->
  k ∈ (profile_writes profile created).*1 ->
  exists rest,
    rest <> [] /\
    k = profiles_root ++ uuid_str (ProfileSettings.id profile) :: rest.
Proof.
  intros [Htpl Hsym].
  rewrite profile_writes_fields, !fmap_app, !elem_of_app.
  intros [Hk|[Hk|Hk]].
  - apply list_elem_of_fmap in Hk as ([k' v] & -> & Hk).
    apply elem_of_concat_fmap in Hk as (t & Ht & Hk).
    assert (Hid := proj1 (Forall_forall _ _) Htpl t Ht). cbn beta in Hid.
    unfold template_writes in Hk.
    apply elem_of_cons in Hk as [Hk|Hk];
      [|apply elem_of_cons in Hk as [Hk|Hk]; [|by apply elem_of_nil in Hk]];
      injection Hk as -> _; cbn [fst];
      rewrite full_key_template
        by (done || apply is_segment_name || apply is_segment_id);
      by eexists (_ :: _).
  - apply list_elem_of_fmap in Hk as ([k' v] & -> & Hk).
    apply elem_of_concat_fmap in Hk as (t & Ht & Hk).
    assert (Hid := proj1 (Forall_forall _ _) Hsym t Ht). cbn beta in Hid.
    unfold symbology_writes in Hk.
    apply elem_of_cons in Hk as [Hk|Hk];
      [|apply elem_of_cons in Hk as [Hk|Hk]; [|by apply elem_of_nil in Hk]];
      injection Hk as -> _; cbn [fst];
      rewrite full_key_symbology
        by (done || apply is_segment_name || apply is_segment_id);
      by eexists (_ :: _).
  - unfold field_writes in Hk. cbn [fmap list_fmap fst] in Hk.
    apply elem_of_cons in Hk as [->|Hk]; [by eexists [_]|].
    apply elem_of_cons in Hk as [->|Hk]; [by eexists [_]|].
    apply elem_of_cons in Hk as [->|Hk]; [by eexists [_]|].
    by apply elem_of_nil in Hk.
Qed.

Lemma profile_writes_outside (profile : ProfileSettings.t) (created : string)
    (m : store) (k : list string) :
  children_dot_free profile ->
  ~ profile_group (ProfileSettings.id profile) `prefix_of` k ->
  write_all (profile_writes profile created) m !! k = m !! k.
Proof.
  intros Hc Hk. apply write_all_lookup_notin. intros Hin.
  apply profile_writes_keys in Hin as (rest & _ & ->); [|done].
  apply Hk. exists rest. unfold profile_group. by rewrite <- app_assoc.
Qed.

Lemma save_profile_settings_outside (profile : ProfileSettings.t)
    (w : manager) (k : list string) :
  children_dot_free profile ->
  ~ profile_group (ProfileSettings.id profile) `prefix_of` k ->
  settings (save_profile_settings profile w).2 !! k = settings w !! k.
Proof.
  intros Hc Hk.
  destruct (ProfileSettings.created_date profile) as [d|] eqn:Hd.
  - rewrite (save_profile_settings_dated profile d w Hd). cbn [snd settings].
    by apply profile_writes_outside.
  - by rewrite (save_profile_settings_undated profile w Hd).
Qed.

Lemma uuid_str_inj (a b : UUID) :
  uuid_wf a -> uuid_wf b -> uuid_str a = uuid_str b -> a = b.
Proof.
  intros Ha Hb Heq.
  apply uuid_of_string_str in Ha, Hb. rewrite Heq in Ha. congruence.
Qed.

Lemma cons_eq_tail {A} (x y : A) (l1 l2 : list A) :
  x :: l1 = y :: l2 -> l1 = l2.
Proof. by intros [= _ ->]. Qed.

Lemma cons_eq_head {A} (x y : A) (l1 l2 : list A) :
  x :: l1 = y :: l2 -> x = y.
Proof. by intros [= -> _]. Qed.

Lemma profile_groups_disjoint (a b : UUID) (k : list string) :
  uuid_wf a -> uuid_wf b -> a <> b ->
  profile_group b `prefix_of` k -> ~ profile_group a `prefix_of` k.
Proof.
  intros Ha Hb Hne [r1 ->] [r2 Heq]. unfold profile_group in Heq.
  rewrite <- !app_assoc in Heq. apply app_inv_head, cons_eq_head in Heq.
  apply Hne. symmetry. by apply uuid_str_inj.
Qed.

Lemma pointer_outside_group (u : UUID) :
  ~ profile_group u `prefix_of` pointer_key.
Proof. apply pointer_outside_profiles. Qed.

(** X6: saving a profile whose children carry ids that, as strings, hold
    no [.] and no [..] segment touches no key outside the group of that
    profile, whether the save goes through or raises: the settings of
    every other profile and the pointer to the current profile are as
    before. *)
Theorem save_profile_settings_frame (profile : ProfileSettings.t)
    (w : manager) :
  children_dot_free profile ->
  (forall k : list string,
     ~ profile_group (ProfileSettings.id profile) `prefix_of` k ->
     settings (save_profile_settings profile w).2 !! k = settings w !! k) /\
  (forall (other : UUID) (k : list string),
     uuid_wf (ProfileSettings.id profile) -> uuid_wf other ->
     other <> ProfileSettings.id profile ->
     profile_group other `prefix_of` k ->
     settings (save_profile_settings profile w).2 !! k = settings w !! k) /\
  current_pointer (settings (save_profile_settings profile w).2) =
    current_pointer (settings w).
Proof.
  intros Hc. split; [|split].
  - intros k. by apply save_profile_settings_outside.
  - intros other k Hp Ho Hne Hk. apply save_profile_settings_outside; [done|].
    apply (profile_groups_disjoint _ other); auto.
  - rewrite !current_pointer_lookup.
    rewrite save_profile_settings_outside;
      [done|done|apply pointer_outside_group].
Qed.

Lemma sample_children_dot_free : children_dot_free sample_profile.
Proof.
  split; apply Forall_singleton, dot_free_segment;
    apply (bool_decide_unpack _); by vm_compute.
Qed.

Lemma save_profile_settings_frame_witness :
  settings (save_profile_settings sample_profile dated_manager).2
    !! (profile_group other_id ++ ["name"]) =
  settings dated_manager !! (profile_group other_id ++ ["name"]).
Proof.
  apply (save_profile_settings_frame sample_profile dated_manager).
  - apply sample_children_dot_free.
  - apply (bool_decide_unpack _). vm_compute. reflexivity.
Defined.

(** Without that, a save reaches into the group of another profile: *)
Lemma dotted_child_leaves_profile_group :
  let t := {| TemplateSettings.name := Some "Basic";
              TemplateSettings.id := Some ("../../" +:+ uuid_str other_id) |} in
  full_key (template_settings sample_profile t) "name" =
  profile_group other_id ++ ["name"].
Proof. by vm_compute. Qed.

(** ** Stores whose keys are made of segments *)

Lemma child_group_segment (m : store) (h : QgsSettings) (c : string) :
  store_wf m -> c ∈ childGroups h m -> is_segment c.
Proof.
  intros Hwf Hc. apply elem_of_childGroups in Hc as (k & [v Hv] & Hc).
  apply child_group_Some in Hc as (rest & _ & ->).
  specialize (Hwf _ _ Hv). cbn beta in Hwf.
  apply Forall_app in Hwf as [_ Hwf]. by apply Forall_cons in Hwf as [? _].
Qed.

Lemma full_key_profile_field (g field : string) :
  plain_segment g -> is_segment field ->
  full_key (qgis_settings (_get_profile_settings_base g)) field =
  profiles_root ++ [g; field].
Proof.
  intros Hg Hf. rewrite full_key_segment by done.
  rewrite group_qgis_settings, sanitize_profile_base
    by by apply dot_free_segment.
  by rewrite split_path_segment, <- app_assoc by apply Hg.
Qed.

(** A name that reads as a UUID is neither [.] nor [..]. *)
Lemma uuid_of_string_plain (g : string) (u : UUID) :
  uuid_of_string g = Ok u -> plain_name g.
Proof.
  intros Hu. split; intros ->; vm_compute in Hu; discriminate Hu.
Qed.

Lemma group_profiles_settings : group profiles_settings = profiles_root.
Proof.
  unfold profiles_settings. by rewrite group_qgis_settings, sanitize_profiles_root.
Qed.

(** The profile groups after a save: the old ones and the profile's. *)
Lemma childGroups_saved (profile : ProfileSettings.t) (created : string)
    (m : store) (c : string) :
  children_dot_free profile ->
  c ∈ childGroups profiles_settings
        (write_all (profile_writes profile created) m) <->
  c ∈ childGroups profiles_settings m \/
  c = uuid_str (ProfileSettings.id profile).
Proof.
  intros Hdf.
  rewrite childGroups_write_all, group_profiles_settings.
  split; (intros [Hc|Hc]; [by left|right]).
  - destruct Hc as (k & Hk & Hc).
    apply profile_writes_keys in Hk as (rest & Hrest & ->); [|done].
    assert (Hs : child_group profiles_root
                   (profiles_root ++
                    uuid_str (ProfileSettings.id profile) :: rest) =
                 Some (uuid_str (ProfileSettings.id profile)))
      by (apply child_group_Some; by exists rest).
    congruence.
  - subst c.
    exists (profiles_root ++ [uuid_str (ProfileSettings.id profile); "name"]).
    split; [|apply child_group_Some; by exists ["name"]].
    rewrite profile_writes_fields, !fmap_app, !elem_of_app.
    right; right. unfold field_writes. cbn [fmap list_fmap fst]. by left.
Qed.

Lemma readable_group_saved (profile : ProfileSettings.t) (d : datetime)
    (m : store) (g : string) :
  uuid_wf (ProfileSettings.id profile) -> dt_valid d = true ->
  (1000 <= year d)%N -> children_dot_free profile ->
  is_segment g ->
  (g <> uuid_str (ProfileSettings.id profile) -> readable_group m g) ->
  readable_group
    (write_all (profile_writes profile (strftime d DATE_FORMAT)) m) g.
Proof.
  intros Hwf Hd Hyear Hdf Hg Hold.
  destruct (decide (g = uuid_str (ProfileSettings.id profile))) as [->|Hne].
  - split; [exists (ProfileSettings.id profile); by apply uuid_of_string_str|].
    intros v. rewrite profile_value by apply is_segment_created_date.
    destruct (saved_fields profile (strftime d DATE_FORMAT) m) as (_ & _ & ->).
    intros [= <-]. exists d. by apply strptime_strftime.
  - destruct (Hold Hne) as [Hu Hv]. split; [done|].
    assert (Hplain : plain_segment g).
    { destruct Hu as [u Hu]. split; [done|]. by eapply uuid_of_string_plain. }
    intros v. unfold value.
    rewrite full_key_profile_field by (done || apply is_segment_created_date).
    rewrite profile_writes_outside; [|done|].
    + intros Hv'. apply Hv. unfold value.
      by rewrite full_key_profile_field
        by (done || apply is_segment_created_date).
    + intros [rest Heq]. unfold profile_group in Heq.
      rewrite <- !app_assoc in Heq. apply app_inv_head, cons_eq_head in Heq.
      done.
Qed.

Lemma is_profile_stored (now : datetime) (u : UUID) (m : store)
    (profiles : list ProfileSettings.t) :
  list_profiles now m = Ok profiles ->
  exists b : bool,
    is_profile now u m = Ok b /\ (b = true <-> profile_stored m u).
Proof.
  intros Hl. rewrite is_profile_unfold, Hl. cbn [rbind].
  eexists. split; [reflexivity|].
  rewrite existsb_exists.
  rewrite <- (list_profiles_ids now m profiles u Hl), list_elem_of_fmap.
  split.
  - intros (p & Hp & Hid). apply bool_decide_eq_true in Hid.
    apply list_elem_of_In in Hp. by exists p.
  - intros (p & -> & Hp).
    exists p. split; [by apply list_elem_of_In|]. by apply bool_decide_eq_true.
Qed.



(** X7: after a profile with a well-formed identifier, a valid date
    whose year has four digits and children whose ids, as strings, hold
    no [.] and no [..] segment has been saved to a store that lists, the
    store still lists: the identifiers listed are the old ones and the
    profile's, and [is_profile] answers true for it. *)
Theorem saved_profile_is_listed (now : datetime)
    (profile : ProfileSettings.t) (d : datetime) (w : manager)
    (profiles : list ProfileSettings.t) :
  uuid_wf (ProfileSettings.id profile) ->
  ProfileSettings.created_date profile = Some d ->
  dt_valid d = true ->
  (1000 <= year d)%N ->
  children_dot_free profile ->
  store_wf (settings w) ->
  list_profiles now (settings w) = Ok profiles ->
  exists profiles',
    list_profiles now (settings (save_profile_settings profile w).2) =
      Ok profiles' /\
    (forall u : UUID,
       u ∈ ProfileSettings.id <$> profiles' <->
       u = ProfileSettings.id profile \/ u ∈ ProfileSettings.id <$> profiles) /\
    is_profile now (ProfileSettings.id profile)
      (settings (save_profile_settings profile w).2) = Ok true.
Proof.
  intros Hwf Hd Hvalid Hyear Hdf Hstore Hl.
  rewrite (save_profile_settings_dated profile d w Hd). cbn [snd settings].
  set (m' := write_all (profile_writes profile (strftime d DATE_FORMAT))
               (settings w)).
  assert (Hown : uuid_of_string (uuid_str (ProfileSettings.id profile)) =
                 Ok (ProfileSettings.id profile))
    by by apply uuid_of_string_str.
  assert (Hstored : profile_stored m' (ProfileSettings.id profile)).
  { exists (uuid_str (ProfileSettings.id profile)). split; [|done].
    apply childGroups_saved; [done|]. by right. }
  destruct (proj2 (list_profiles_readable now m')) as [profiles' Hl'].
  { intros g Hg. apply childGroups_saved in Hg; [|done].
    apply readable_group_saved; [done|done|done|done| |].
    - destruct Hg as [Hg| ->];
        [by eapply child_group_segment|apply uuid_str_segment].
    - intros Hne. destruct Hg as [Hg|Hg]; [|done].
      apply (proj1 (list_profiles_readable now (settings w))); [|done].
      by exists profiles. }
  exists profiles'. split; [done|]. split.
  - intros u.
    rewrite (list_profiles_ids now m' profiles' u Hl').
    rewrite (list_profiles_ids now (settings w) profiles u Hl).
    unfold profile_stored. split.
    + intros (g & Hg & Hu). apply childGroups_saved in Hg as [Hg| ->]; [| |done].
      * right. by exists g.
      * left. congruence.
    + intros [->|(g & Hg & Hu)]; [done|].
      exists g. split; [|done]. apply childGroups_saved; [done|]. by left.
  - destruct (is_profile_stored now (ProfileSettings.id profile) m' profiles' Hl')
      as (b & -> & Hb).
    f_equal. by apply Hb.
Qed.

Lemma store_wf_empty : store_wf ∅.
Proof. apply map_Forall_empty. Qed.

Lemma sample_id_wf : uuid_wf sample_id.
Proof. reflexivity. Qed.

Lemma other_id_wf : uuid_wf other_id.
Proof. reflexivity. Qed.

Lemma saved_profile_is_listed_witness :
  exists profiles',
    list_profiles sample_now
      (settings (save_profile_settings sample_profile empty_manager).2) =
      Ok profiles' /\
    (forall u : UUID,
       u ∈ ProfileSettings.id <$> profiles' <->
       u = sample_id \/ u ∈ ProfileSettings.id <$> []) /\
    is_profile sample_now sample_id
      (settings (save_profile_settings sample_profile empty_manager).2) =
      Ok true.
Proof.
  apply (saved_profile_is_listed sample_now sample_profile sample_date
           empty_manager []).
  - apply sample_id_wf.
  - reflexivity.
  - reflexivity.
  - by vm_compute.
  - apply sample_children_dot_free.
  - apply store_wf_empty.
  - reflexivity.
Defined.

(** ** Reading one profile of a store that lists *)

Lemma get_profile_settings_blank (now : datetime) (u : UUID) (m : store) :
  uuid_wf u ->
  (forall k, profile_group u `prefix_of` k -> m !! k = None) ->
  get_profile_settings now u m = Ok (blank_profile u).
Proof.
  intros Hwf Hm. rewrite get_profile_settings_unfold.
  assert (Hval : forall key,
    value (qgis_settings (_get_profile_settings_base (uuid_str u))) key m =
    None).
  { intros key. apply value_unwritten, Hm. unfold full_key, profile_group.
    rewrite group_qgis_settings, sanitize_profile_base_uuid. by eexists. }
  rewrite (from_qgs_settings_no_date _ _ _ _ u)
    by auto using uuid_of_string_str.
  unfold decoded, blank_profile. rewrite !Hval. f_equal. f_equal.
  - unfold get_templates. rewrite childGroups_nil; [done|].
    intros k [rest ->]. rewrite group_qgis_settings, sanitize_template_group.
    apply Hm. exists (TEMPLATE_GROUP_NAME :: rest).
    unfold profile_group. by rewrite <- !app_assoc.
  - unfold get_symbology. rewrite childGroups_nil; [done|].
    intros k [rest ->]. rewrite group_qgis_settings, sanitize_symbology_group.
    apply Hm. exists (SYMBOLOGY_GROUP_NAME :: rest).
    unfold profile_group. by rewrite <- !app_assoc.
Qed.

Lemma readable_canonical_group (m : store) (u : UUID) :
  uuid_wf u ->
  (uuid_str u ∈ childGroups profiles_settings m ->
   readable_group m (uuid_str u)) ->
  readable_group m (uuid_str u).
Proof.
  intros Hwf Hin. split; [exists u; by apply uuid_of_string_str|].
  intros v Hv. refine (proj2 (Hin _) v Hv).
  rewrite profile_value in Hv by apply is_segment_created_date.
  apply elem_of_childGroups.
  exists (profiles_root ++ [uuid_str u; "created_date"]). split.
  - destruct (m !! (profiles_root ++ [uuid_str u; "created_date"]));
      [by eexists|done].
  - rewrite group_profiles_settings. apply child_group_Some.
    by exists ["created_date"].
Qed.

Lemma get_profile_settings_listed (now : datetime) (m : store)
    (profiles : list ProfileSettings.t) (u : UUID) :
  list_profiles now m = Ok profiles -> uuid_wf u ->
  exists p, get_profile_settings now u m = Ok p /\ ProfileSettings.id p = u.
Proof.
  intros Hl Hwf.
  destruct (proj2 (from_qgs_settings_readable now (uuid_str u) m)) as [p Hp].
  { apply readable_canonical_group; [done|].
    apply (proj1 (list_profiles_readable now m)). by exists profiles. }
  rewrite <- get_profile_settings_unfold in Hp.
  exists p. split; [done|]. by apply (get_profile_settings_id now u m).
Qed.

(** X8: in a store that [list_profiles] can list, [get_profile_settings]
    returns for every well-formed identifier, stored or not, a record
    with that identifier; read the other way, it raises only where
    [list_profiles] raises too. *)
Theorem listed_store_reads_every_profile (now : datetime) (m : store)
    (u : UUID) :
  uuid_wf u ->
  (forall profiles,
     list_profiles now m = Ok profiles ->
     exists p,
       get_profile_settings now u m = Ok p /\ ProfileSettings.id p = u) /\
  (forall e,
     get_profile_settings now u m = Raise e ->
     exists e', list_profiles now m = Raise e').
Proof.
  intros Hwf. split.
  - intros profiles Hl. by apply (get_profile_settings_listed now m profiles).
  - intros e He.
    destruct (list_profiles now m) as [profiles|e'] eqn:Hl; [|by exists e'].
    destruct (get_profile_settings_listed now m profiles u Hl Hwf)
      as (p & Hp & _).
    congruence.
Qed.

Lemma listed_store_reads_every_profile_witness :
  exists p,
    get_profile_settings sample_now other_id (settings sample_manager) = Ok p /\
    ProfileSettings.id p = other_id.
Proof.
  destruct (listed_store_reads_every_profile sample_now
              (settings sample_manager) other_id other_id_wf) as [H _].
  apply (H [decoded sample_id
              (qgis_settings (_get_profile_settings_base (uuid_str sample_id)))
              (settings sample_manager) (Some sample_date)]).
  vm_compute; reflexivity.
Defined.

(** ** Selecting a profile *)

Lemma created_date_key_not_pointer (g : string) :
  full_key (qgis_settings (_get_profile_settings_base g)) "created_date" <>
  pointer_key.
Proof. by apply segment_key_off_pointer; [apply is_segment_created_date|]. Qed.

Lemma readable_group_pointer (v : option string) (m : store) (g : string) :
  readable_group (<[pointer_key := v]> m) g <-> readable_group m g.
Proof.
  unfold readable_group, value.
  by rewrite lookup_insert_ne by (symmetry; apply created_date_key_not_pointer).
Qed.

Lemma childGroups_pointer (v : option string) (m : store) (c : string) :
  c ∈ childGroups profiles_settings (<[pointer_key := v]> m) <->
  c ∈ childGroups profiles_settings m.
Proof.
  rewrite (childGroups_write_all profiles_settings [(pointer_key, v)] m c).
  split; [|by left]. intros [Hc|(k & Hk & Hc)]; [done|].
  cbn [fmap list_fmap fst] in Hk. apply elem_of_cons in Hk as [->|Hk].
  - rewrite group_profiles_settings in Hc.
    apply child_group_Some in Hc as (rest & _ & Hc).
    exfalso. apply (pointer_outside_profiles (c :: rest)).
    rewrite Hc. by exists [].
  - by apply elem_of_nil in Hk.
Qed.

Lemma list_profiles_pointer (now : datetime) (v : option string) (m : store) :
  (exists profiles, list_profiles now m = Ok profiles) ->
  exists profiles, list_profiles now (<[pointer_key := v]> m) = Ok profiles.
Proof.
  rewrite !list_profiles_readable. intros H g Hg.
  apply readable_group_pointer, H. by apply childGroups_pointer in Hg.
Qed.

Lemma get_current_profile_pointer (now : datetime) (m : store) (u : UUID)
    (profiles : list ProfileSettings.t) :
  list_profiles now m = Ok profiles -> uuid_wf u ->
  current_pointer m = Some (uuid_str u) ->
  exists p, get_current_profile now m = Ok (Some p) /\ ProfileSettings.id p = u.
Proof.
  intros Hl Hwf Hc.
  destruct (get_profile_settings_listed now m profiles u Hl Hwf)
    as (p & Hp & Hid).
  exists p. split; [|done].
  rewrite get_current_profile_unfold, Hc, (uuid_of_string_str u Hwf).
  cbn [rbind]. by rewrite Hp.
Qed.

(** X9: once [set_current_profile] has gone through for a well-formed
    identifier, [get_current_profile] returns a profile with that
    identifier, and [is_current_profile] answers true for it and false
    for every other identifier. *)
Theorem set_current_profile_then_current (now : datetime) (u : UUID)
    (w : manager) :
  uuid_wf u ->
  (set_current_profile now u w).1 = Ok tt ->
  (exists p,
     get_current_profile now (settings (set_current_profile now u w).2) =
       Ok (Some p) /\
     ProfileSettings.id p = u) /\
  is_current_profile now u (settings (set_current_profile now u w).2) =
    Ok true /\
  (forall v : UUID,
     v <> u ->
     is_current_profile now v (settings (set_current_profile now u w).2) =
       Ok false).
Proof.
  intros Hwf Hok.
  assert (Hl : exists profiles, list_profiles now (settings w) = Ok profiles).
  { rewrite set_current_profile_unfold in Hok.
    destruct (list_profiles now (settings w)) as [profiles|e]; [|done].
    by exists profiles. }
  destruct (set_current_profile_stored now u w Hok) as [_ ->].
  apply (list_profiles_pointer now (Some (uuid_str u))) in Hl as [profiles Hl].
  destruct (get_current_profile_pointer now (settings (selected u w)) u
              profiles Hl Hwf (pointer_selected u w)) as (p & Hp & Hid).
  split; [by exists p|].
  rewrite !is_current_profile_unfold, Hp. cbn [rbind].
  split; [by rewrite bool_decide_eq_true_2|].
  intros v Hv. rewrite is_current_profile_unfold, Hp. cbn [rbind].
  rewrite bool_decide_eq_false_2; [done|congruence].
Qed.

Lemma set_current_profile_then_current_witness :
  is_current_profile sample_now sample_id
    (settings (set_current_profile sample_now sample_id sample_manager).2) =
    Ok true.
Proof.
  apply (set_current_profile_then_current sample_now sample_id sample_manager).
  - apply sample_id_wf.
  - vm_compute; reflexivity.
Defined.

(** X10: [clear_current_profile] always goes through, whatever the
    pointer and the profiles hold: afterwards there is no current
    profile, [is_current_profile] answers false for every identifier,
    and every key but the pointer's is as before. *)
Theorem clear_current_profile_clears (now : datetime) (w : manager) :
  (clear_current_profile w).1 = Ok tt /\
  get_current_profile now (settings (clear_current_profile w).2) = Ok None /\
  (forall u : UUID,
     is_current_profile now u (settings (clear_current_profile w).2) =
       Ok false) /\
  (forall k : list string,
     k <> pointer_key ->
     settings (clear_current_profile w).2 !! k = settings w !! k).
Proof.
  rewrite clear_current_profile_unfold. cbn [fst snd settings].
  assert (Hc : get_current_profile now (<[pointer_key := None]> (settings w)) =
               Ok None)
    by apply get_current_profile_no_pointer, pointer_cleared.
  split; [done|]. split; [done|]. split.
  - intros u. by rewrite is_current_profile_unfold, Hc.
  - intros k Hk. by rewrite lookup_insert_ne.
Qed.

Lemma clear_current_profile_clears_witness :
  is_current_profile sample_now sample_id
    (settings (clear_current_profile selected_manager).2) = Ok false /\
  settings (clear_current_profile selected_manager).2 !! profiles_root =
    settings selected_manager !! profiles_root.
Proof.
  destruct (clear_current_profile_clears sample_now selected_manager)
    as (_ & _ & Hcurrent & Hkeys).
  split; [exact (Hcurrent sample_id)|].
  apply Hkeys. discriminate.
Defined.

(** X11: a pointer that names a profile nothing is stored under does not
    read as no current profile: [get_current_profile] returns the blank
    record with that identifier, and [is_current_profile] answers true
    for it. *)
Theorem dangling_pointer_reads_blank (now : datetime) (m : store) (u : UUID) :
  uuid_wf u ->
  current_pointer m = Some (uuid_str u) ->
  (forall k, profile_group u `prefix_of` k -> m !! k = None) ->
  get_current_profile now m = Ok (Some (blank_profile u)) /\
  is_current_profile now u m = Ok true.
Proof.
  intros Hwf Hc Hm.
  assert (Hg : get_current_profile now m = Ok (Some (blank_profile u))).
  { rewrite get_current_profile_unfold, Hc, (uuid_of_string_str u Hwf).
    cbn [rbind]. by rewrite (get_profile_settings_blank now u m Hwf Hm). }
  split; [done|].
  rewrite is_current_profile_unfold, Hg. cbn [rbind].
  by rewrite bool_decide_eq_true_2.
Qed.

Lemma dangling_pointer_reads_blank_witness :
  get_current_profile sample_now (<[pointer_key := Some (uuid_str sample_id)]> ∅) =
    Ok (Some (blank_profile sample_id)) /\
  is_current_profile sample_now sample_id
    (<[pointer_key := Some (uuid_str sample_id)]> ∅) = Ok true.
Proof.
  apply (dangling_pointer_reads_blank sample_now
           (<[pointer_key := Some (uuid_str sample_id)]> ∅) sample_id).
  - apply sample_id_wf.
  - by rewrite current_pointer_lookup, lookup_insert_eq.
  - intros k Hk. rewrite lookup_insert_ne; [apply lookup_empty|].
    intros <-. by apply (pointer_outside_group sample_id).
Defined.



(** ** Deleting a profile *)

Lemma full_key_profiles_child (c : string) :
  is_segment c -> full_key profiles_settings c = profiles_root ++ [c].
Proof.
  intros Hc. by rewrite full_key_segment, group_profiles_settings.
Qed.

Lemma full_key_profiles_under_root (c : string) (k : list string) :
  full_key profiles_settings c `prefix_of` k -> profiles_root `prefix_of` k.
Proof.
  unfold full_key. rewrite group_profiles_settings. intros [rest ->].
  exists (sanitizeKey c ++ rest). by rewrite <- app_assoc.
Qed.

Lemma childGroups_remove_profile (u : UUID) (m : store) (c : string) :
  c ∈ childGroups profiles_settings
        (remove profiles_settings (uuid_str u) m) <->
  c ∈ childGroups profiles_settings m /\ c <> uuid_str u.
Proof.
  rewrite !elem_of_childGroups, group_profiles_settings. split.
  - intros (k & Hk & Hc).
    pose proof Hc as Hc'. apply child_group_Some in Hc' as (rest & _ & ->).
    destruct (decide (c = uuid_str u)) as [->|Hne].
    + rewrite lookup_remove_inside in Hk; [by destruct Hk|].
      rewrite full_key_profile_group. exists rest. by rewrite <- app_assoc.
    + split; [|done]. eexists. split; [|done].
      rewrite lookup_remove_outside in Hk; [done|].
      rewrite full_key_profile_group. intros [more Heq].
      rewrite <- app_assoc in Heq. by apply app_inv_head, cons_eq_head in Heq.
  - intros [(k & Hk & Hc) Hne]. exists k. split; [|done].
    rewrite lookup_remove_outside; [done|].
    apply child_group_Some in Hc as (rest & _ & ->).
    rewrite full_key_profile_group. intros [more Heq].
    rewrite <- app_assoc in Heq. by apply app_inv_head, cons_eq_head in Heq.
Qed.

Lemma delete_profile_store (now : datetime) (u : UUID) (w : manager) :
  (delete_profile now u w).1 = Ok tt ->
  exists m,
    settings (delete_profile now u w).2 =
      remove profiles_settings (uuid_str u) m /\
    (forall k, k <> pointer_key -> m !! k = settings w !! k) /\
    (forall c, c ∈ childGroups profiles_settings m <->
               c ∈ childGroups profiles_settings (settings w)).
Proof.
  rewrite delete_profile_unfold.
  destruct (is_current_profile now u (settings w)) as [[|]|e]; [| |done];
    intros _; cbn [snd settings].
  - exists (<[pointer_key := None]> (settings w)). split; [done|]. split.
    + intros k Hk. by rewrite lookup_insert_ne.
    + intros c. apply childGroups_pointer.
  - by exists (settings w).
Qed.

(** X12: a [delete_profile] that goes through removes every key of the
    profile's group and changes no key outside it, the pointer apart:
    the profile groups left are the former ones without the profile's,
    and reading the profile again gives the blank record. *)
Theorem delete_profile_removes_group (now : datetime) (u : UUID)
    (w : manager) :
  (delete_profile now u w).1 = Ok tt ->
  (forall k : list string,
     profile_group u `prefix_of` k ->
     settings (delete_profile now u w).2 !! k = None) /\
  (forall k : list string,
     ~ profile_group u `prefix_of` k -> k <> pointer_key ->
     settings (delete_profile now u w).2 !! k = settings w !! k) /\
  (forall c : string,
     c ∈ childGroups profiles_settings (settings (delete_profile now u w).2) <->
     c ∈ childGroups profiles_settings (settings w) /\ c <> uuid_str u) /\
  (uuid_wf u ->
   get_profile_settings now u (settings (delete_profile now u w).2) =
     Ok (blank_profile u)).
Proof.
  intros Hok.
  destruct (delete_profile_store now u w Hok) as (m & -> & Hm & Hgroups).
  assert (Hin : forall k : list string,
            profile_group u `prefix_of` k ->
            remove profiles_settings (uuid_str u) m !! k = None).
  { intros k Hk. apply lookup_remove_inside.
    by rewrite full_key_profile_group. }
  split; [done|]. split; [|split].
  - intros k Hk Hp. rewrite lookup_remove_outside; [by apply Hm|].
    by rewrite full_key_profile_group.
  - intros c. by rewrite childGroups_remove_profile, Hgroups.
  - intros Hwf. by apply get_profile_settings_blank.
Qed.

Lemma delete_profile_removes_group_witness :
  get_profile_settings sample_now sample_id
    (settings (delete_profile sample_now sample_id selected_manager).2) =
  Ok (blank_profile sample_id).
Proof.
  apply (delete_profile_removes_group sample_now sample_id selected_manager).
  - vm_compute; reflexivity.
  - apply sample_id_wf.
Defined.

Lemma remove_nothing (h : QgsSettings) (key : string) (m : store) :
  (forall k, full_key h key `prefix_of` k -> m !! k = None) ->
  remove h key m = m.
Proof.
  intros Hm. apply map_eq. intros k.
  destruct (decide (full_key h key `prefix_of` k)) as [Hk|Hk].
  - by rewrite lookup_remove_inside, Hm.
  - by rewrite lookup_remove_outside.
Qed.

(** X13: deleting a profile nothing is stored under, and which is not
    the current one, leaves the store as it is; the signal is emitted
    all the same. *)
Theorem delete_profile_absent (now : datetime) (u : UUID) (w : manager) :
  (forall k, profile_group u `prefix_of` k -> settings w !! k = None) ->
  is_current_profile now u (settings w) = Ok false ->
  delete_profile now u w =
  (Ok tt, {| settings := settings w; emitted := S (emitted w) |}).
Proof.
  intros Hm Hc. rewrite delete_profile_unfold, Hc.
  rewrite remove_nothing; [done|].
  intros k. rewrite full_key_profile_group. apply Hm.
Qed.

Lemma delete_profile_absent_witness :
  delete_profile sample_now other_id sample_manager =
  (Ok tt, {| settings := settings sample_manager;
             emitted := S (emitted sample_manager) |}).
Proof.
  apply (delete_profile_absent sample_now other_id sample_manager).
  - intros k Hk.
    etrans; [apply (save_profile_settings_outside sample_profile empty_manager
                      k sample_children_dot_free)|
             apply lookup_empty].
    apply (profile_groups_disjoint sample_id other_id);
      [apply sample_id_wf|apply other_id_wf|discriminate|done].
  - vm_compute; reflexivity.
Defined.



(** X14: [delete_profile] first asks whether the profile is the current
    one, which decodes the current profile: it raises exactly when
    [get_current_profile] raises, with the same exception, whichever
    profile was to be deleted, and then it removes nothing and emits
    nothing. *)
Theorem delete_profile_needs_current (now : datetime) (u : UUID)
    (w : manager) (e : exn) :
  ((delete_profile now u w).1 = Raise e <->
   get_current_profile now (settings w) = Raise e) /\
  (get_current_profile now (settings w) = Raise e ->
   delete_profile now u w = (Raise e, w)).
Proof.
  rewrite delete_profile_unfold, is_current_profile_unfold.
  destruct (get_current_profile now (settings w)) as [[p|]|e'];
    cbn [rbind]; [destruct (bool_decide _)| |]; cbn [fst]; split;
    try done; try (by intros [= ->]).
  split; intros H; by injection H as ->.
Qed.

(** A store whose pointer does not read as a UUID. *)
Lemma delete_profile_needs_current_witness :
  exists msg,
    delete_profile sample_now sample_id
      {| settings := <[pointer_key := Some "default"]> (settings sample_manager);
         emitted := 1 |} =
    (Raise (ValueError msg),
     {| settings := <[pointer_key := Some "default"]> (settings sample_manager);
        emitted := 1 |}).
Proof.
  eexists.
  apply (delete_profile_needs_current sample_now sample_id
           {| settings := <[pointer_key := Some "default"]>
                            (settings sample_manager);
              emitted := 1 |}).
  vm_compute; reflexivity.
Defined.

(** ** Deleting every profile *)

Lemma foldl_remove_is_Some (h : QgsSettings) (l : list string) (m : store)
    (k : list string) :
  is_Some (foldl (fun m c => remove h c m) m l !! k) -> is_Some (m !! k).
Proof.
  revert m; induction l as [|c l IH]; intros m; simpl; [done|].
  intros H. apply IH in H.
  destruct (decide (full_key h c `prefix_of` k)) as [Hk|Hk].
  - rewrite lookup_remove_inside in H by done. by destruct H.
  - by rewrite lookup_remove_outside in H.
Qed.

Lemma foldl_remove_outside (h : QgsSettings) (l : list string) (m : store)
    (k : list string) :
  (forall c, c ∈ l -> ~ full_key h c `prefix_of` k) ->
  foldl (fun m c => remove h c m) m l !! k = m !! k.
Proof.
  revert m; induction l as [|c l IH]; intros m Hl; simpl; [done|].
  rewrite IH by (intros c' Hc'; apply Hl; by right).
  apply lookup_remove_outside, Hl. by left.
Qed.

Lemma foldl_remove_inside (h : QgsSettings) (l : list string) (m : store)
    (k : list string) (c : string) :
  c ∈ l -> full_key h c `prefix_of` k ->
  foldl (fun m c => remove h c m) m l !! k = None.
Proof.
  revert m; induction l as [|c' l IH]; intros m Hc Hk; simpl.
  - by apply elem_of_nil in Hc.
  - apply elem_of_cons in Hc as [<-|Hc]; [|by apply IH].
    destruct (foldl _ _ l !! k) as [v|] eqn:Hv; [|done].
    assert (Hs : is_Some (remove h c m !! k)).
    { apply (foldl_remove_is_Some h l). by rewrite Hv. }
    rewrite lookup_remove_inside in Hs by done. by destruct Hs.
Qed.

Lemma childGroups_without_profiles (m : store) :
  store_wf m -> childGroups profiles_settings (without_profiles m) = [].
Proof.
  intros Hwf. apply elem_of_nil_inv. intros c Hc.
  apply elem_of_childGroups in Hc as (k & Hk & Hc).
  rewrite group_profiles_settings in Hc.
  assert (Hold : c ∈ childGroups profiles_settings m).
  { apply elem_of_childGroups. exists k. split.
    - by apply foldl_remove_is_Some in Hk.
    - by rewrite group_profiles_settings. }
  apply child_group_Some in Hc as (rest & _ & ->).
  unfold without_profiles in Hk.
  rewrite (foldl_remove_inside _ _ _ _ c) in Hk; [by destruct Hk|done|].
  rewrite full_key_profiles_child by by eapply child_group_segment.
  exists rest. by rewrite <- app_assoc.
Qed.

Lemma childGroups_empty_pointer (v : option string) (m : store) :
  childGroups profiles_settings m = [] ->
  childGroups profiles_settings (<[pointer_key := v]> m) = [].
Proof.
  intros Hm. apply elem_of_nil_inv. intros c Hc.
  apply childGroups_pointer in Hc. rewrite Hm in Hc.
  by apply elem_of_nil in Hc.
Qed.

(** X15: after [delete_all_profiles], on a store whose keys are made of
    path segments, no profile group is left: [list_profiles] returns
    the empty list, there is no current and no latest profile,
    [is_profile] answers false for every identifier, and the keys
    outside the profiles group, the pointer apart, are as before. *)
Theorem delete_all_profiles_leaves_none (now : datetime) (w : manager) :
  store_wf (settings w) ->
  (delete_all_profiles w).1 = Ok tt /\
  childGroups profiles_settings (settings (delete_all_profiles w).2) = [] /\
  list_profiles now (settings (delete_all_profiles w).2) = Ok [] /\
  get_current_profile now (settings (delete_all_profiles w).2) = Ok None /\
  get_latest_profile now (settings (delete_all_profiles w).2) = Ok None /\
  (forall u : UUID,
     is_profile now u (settings (delete_all_profiles w).2) = Ok false) /\
  (forall k : list string,
     ~ profiles_root `prefix_of` k -> k <> pointer_key ->
     settings (delete_all_profiles w).2 !! k = settings w !! k).
Proof.
  intros Hwf. rewrite delete_all_profiles_unfold. cbn [fst snd settings].
  assert (Hg : childGroups profiles_settings
                 (<[pointer_key := None]> (without_profiles (settings w))) =
               [])
    by by apply childGroups_empty_pointer, childGroups_without_profiles.
  assert (Hl : list_profiles now
                 (<[pointer_key := None]> (without_profiles (settings w))) =
               Ok [])
    by by rewrite list_profiles_unfold, Hg.
  split; [done|]. split; [done|]. split; [done|]. split; [|split; [|split]].
  - apply get_current_profile_no_pointer, pointer_cleared.
  - by rewrite get_latest_profile_unfold, Hl.
  - intros u. by rewrite is_profile_unfold, Hl.
  - intros k Hk Hp. rewrite lookup_insert_ne by done.
    apply foldl_remove_outside. intros c _ Hc.
    by apply Hk, (full_key_profiles_under_root c).
Qed.

Lemma delete_all_profiles_leaves_none_witness :
  list_profiles sample_now (settings (delete_all_profiles selected_manager).2) =
    Ok [] /\
  get_current_profile sample_now
    (settings (delete_all_profiles selected_manager).2) = Ok None.
Proof.
  destruct (delete_all_profiles_leaves_none sample_now selected_manager)
    as (_ & _ & Hl & Hc & _).
  - apply (bool_decide_unpack _). vm_compute. reflexivity.
  - by split.
Defined.



(** ** Finding a profile by its name *)

Lemma find_profile_by_name_unfold (now : datetime) (name : string)
    (m : store) :
  find_profile_by_name now name m =
  (found_id <- find_id name m (childGroups profiles_settings m);;
   get_profile_settings now found_id m).
Proof. reflexivity. Qed.

Lemma find_id_none (name : string) (m : store) (l : list string) :
  (forall g, g ∈ l ->
     value (qgis_settings (_get_profile_settings_base g)) "name" m <>
     Some name) ->
  find_id name m l = Raise (profile_not_found name).
Proof.
  induction l as [|g l IH]; intros Hl; [done|]. cbn [find_id].
  destruct (decide _) as [Heq|_]; [by apply Hl in Heq; [|left]|].
  apply IH. intros g' Hg'. apply Hl. by right.
Qed.

Lemma find_id_Ok (name : string) (m : store) (l : list string) (u : UUID) :
  find_id name m l = Ok u ->
  exists g,
    g ∈ l /\
    value (qgis_settings (_get_profile_settings_base g)) "name" m = Some name /\
    uuid_of_string g = Ok u.
Proof.
  induction l as [|g l IH]; [done|]. cbn [find_id].
  destruct (decide _) as [Heq|_].
  - intros Hu. exists g. split; [by left|done].
  - intros Hu. destruct (IH Hu) as (g' & Hg' & H). exists g'.
    split; [by right|done].
Qed.

Lemma find_id_only (name : string) (m : store) (l : list string) (g : string) :
  g ∈ l ->
  value (qgis_settings (_get_profile_settings_base g)) "name" m = Some name ->
  (forall g', g' ∈ l ->
     value (qgis_settings (_get_profile_settings_base g')) "name" m =
       Some name -> g' = g) ->
  find_id name m l = uuid_of_string g.
Proof.
  induction l as [|g' l IH]; intros Hg Hv Hone; [by apply elem_of_nil in Hg|].
  cbn [find_id]. destruct (decide _) as [Heq|Hne].
  - by rewrite (Hone g') by (done || by left).
  - apply elem_of_cons in Hg as [->|Hg]; [done|].
    apply IH; [done|done|]. intros g'' Hg'' Hv''. apply Hone; [by right|done].
Qed.

(** X16: when no profile group holds the name looked for,
    [find_profile_by_name] raises the [ValueError] that quotes the name
    as [repr] writes it. *)
Theorem find_profile_by_name_not_found (now : datetime) (name : string)
    (m : store) :
  (forall g, g ∈ childGroups profiles_settings m ->
     value (qgis_settings (_get_profile_settings_base g)) "name" m <>
     Some name) ->
  find_profile_by_name now name m = Raise (profile_not_found name).
Proof.
  intros H. by rewrite find_profile_by_name_unfold, find_id_none.
Qed.

Lemma elem_of_one {A} (x y : A) : x ∈ [y] -> x = y.
Proof.
  intros H. apply elem_of_cons in H as [->|H]; [done|].
  by apply elem_of_nil in H.
Qed.

Lemma childGroups_sample_manager :
  childGroups profiles_settings (settings sample_manager) = [uuid_str sample_id].
Proof. vm_compute; reflexivity. Qed.

Lemma find_profile_by_name_not_found_witness :
  find_profile_by_name sample_now "Custom" (settings sample_manager) =
  Raise (ValueError "Could not find a profile named 'Custom' in QgsSettings").
Proof.
  apply (find_profile_by_name_not_found sample_now "Custom"
           (settings sample_manager)).
  intros g Hg. rewrite childGroups_sample_manager in Hg.
  rewrite (elem_of_one _ _ Hg). vm_compute. discriminate.
Defined.

(** X17: a profile that [find_profile_by_name] returns is read from the
    store by its identifier, and some profile group holds the name
    looked for under a group name that reads as that identifier; when
    that group name is the identifier as [str] writes it, the profile
    returned carries the name.  Only the matching group is decoded: when
    one profile group alone holds the name, the outcome is that of
    reading its group name as an identifier and the profile under it,
    whatever the other groups hold. *)
Theorem find_profile_by_name_found (now : datetime) (name : string)
    (m : store) (p : ProfileSettings.t) :
  (find_profile_by_name now name m = Ok p ->
   get_profile_settings now (ProfileSettings.id p) m = Ok p /\
   exists g,
     g ∈ childGroups profiles_settings m /\
     value (qgis_settings (_get_profile_settings_base g)) "name" m =
       Some name /\
     uuid_of_string g = Ok (ProfileSettings.id p) /\
     (g = uuid_str (ProfileSettings.id p) ->
      ProfileSettings.name p = Some name)) /\
  (forall g : string,
     g ∈ childGroups profiles_settings m ->
     value (qgis_settings (_get_profile_settings_base g)) "name" m =
       Some name ->
     (forall g' : string,
        g' ∈ childGroups profiles_settings m ->
        value (qgis_settings (_get_profile_settings_base g')) "name" m =
          Some name ->
        g' = g) ->
     find_profile_by_name now name m =
     (u <- uuid_of_string g;; get_profile_settings now u m)).
Proof.
  split; [|intros g Hg Hv Hone;
           by rewrite find_profile_by_name_unfold,
                (find_id_only name m _ g Hg Hv Hone)].
  rewrite find_profile_by_name_unfold.
  destruct (find_id name m (childGroups profiles_settings m)) as [u|e] eqn:Hf;
    [|done].
  cbn [rbind]. intros Hp.
  assert (Hid : ProfileSettings.id p = u).
  { apply find_id_Ok in Hf as (g & _ & _ & Hu).
    apply (get_profile_settings_id now u m); [|done].
    by apply (uuid_of_string_wf g). }
  rewrite Hid. split; [done|].
  apply find_id_Ok in Hf as (g & Hg & Hv & Hu).
  exists g. split; [done|]. split; [done|]. split; [done|].
  intros ->. rewrite get_profile_settings_unfold, from_qgs_settings_outcome in Hp.
  destruct (uuid_of_string (uuid_str u)) as [u'|e]; [|done]. cbn [rbind] in Hp.
  destruct (match value _ "created_date" m with
            | Some v => _
            | None => _
            end) as [d'|e]; [|done].
  cbn [rbind] in Hp. injection Hp as <-. done.
Qed.

Lemma childGroups_mixed_store (g : string) :
  g ∈ childGroups profiles_settings mixed_store ->
  g = uuid_str sample_id \/ g = "draft".
Proof.
  assert (Hl : childGroups profiles_settings mixed_store =
               [uuid_str sample_id; "draft"] \/
               childGroups profiles_settings mixed_store =
               ["draft"; uuid_str sample_id])
    by (vm_compute; (by left) || (by right)).
  destruct Hl as [-> | ->]; intros Hg;
    apply elem_of_cons in Hg as [->|Hg]; auto using elem_of_one.
Qed.

Lemma find_profile_by_name_found_witness :
  list_profiles sample_now mixed_store =
    Raise (ValueError "badly formed hexadecimal UUID string") /\
  find_profile_by_name sample_now "Default" mixed_store =
    (u <- uuid_of_string (uuid_str sample_id);;
     get_profile_settings sample_now u mixed_store) /\
  (u <- uuid_of_string (uuid_str sample_id);;
   get_profile_settings sample_now u mixed_store) =
    Ok (decoded sample_id
          (qgis_settings (_get_profile_settings_base (uuid_str sample_id)))
          mixed_store (Some sample_date)).
Proof.
  split; [by vm_compute|]. split; [|by vm_compute].
  destruct (find_profile_by_name_found sample_now "Default" mixed_store
              (blank_profile sample_id)) as [_ Hone].
  apply (Hone (uuid_str sample_id)).
  - apply (bool_decide_unpack _). by vm_compute.
  - by vm_compute.
  - intros g' Hg' Hv. apply childGroups_mixed_store in Hg' as [->| ->];
      [reflexivity|].
    vm_compute in Hv. discriminate Hv.
Defined.





(** ** Which identifiers are profiles *)

(** X19: [is_profile] answers true exactly for the identifiers that
    some profile group's name reads as, and these are exactly the
    identifiers [set_current_profile] accepts. *)
Theorem is_profile_agrees_with_set_current (now : datetime) (u : UUID)
    (w : manager) :
  (forall b : bool,
     is_profile now u (settings w) = Ok b ->
     (b = true <-> profile_stored (settings w) u)) /\
  (is_profile now u (settings w) = Ok true <->
   (set_current_profile now u w).1 = Ok tt).
Proof.
  rewrite set_current_profile_unfold.
  destruct (list_profiles now (settings w)) as [profiles|e] eqn:Hl.
  - destruct (is_profile_stored now u (settings w) profiles Hl)
      as (b & -> & Hb).
    split; [by intros b' [= <-]|].
    rewrite <- (list_profiles_ids now (settings w) profiles u Hl) in Hb.
    destruct (decide (u ∉ ProfileSettings.id <$> profiles)) as [Hout|Hin];
      cbn [fst].
    + split; [|done]. intros [= Hb']. by apply Hb in Hb'.
    + apply dec_stable in Hin. apply Hb in Hin as ->. done.
  - rewrite is_profile_unfold, Hl. cbn [rbind fst]. split; [done|].
    split; done.
Qed.

Lemma is_profile_agrees_with_set_current_witness :
  (set_current_profile sample_now sample_id sample_manager).1 = Ok tt.
Proof.
  destruct (is_profile_agrees_with_set_current sample_now sample_id
              sample_manager) as [_ [Hset _]].
  apply Hset. vm_compute; reflexivity.
Defined.



(** ** Saving one template or symbology *)

Lemma get_templates_at (u : UUID) (m : store) :
  get_templates u m =
  (fun c => template_at u c m)
    <$> childGroups (children_group (uuid_str u) TEMPLATE_GROUP_NAME) m.
Proof. unfold get_templates. by rewrite template_group_settings. Qed.

Lemma get_symbology_at (u : UUID) (m : store) :
  get_symbology u m =
  (fun c => symbology_at u c m)
    <$> childGroups (children_group (uuid_str u) SYMBOLOGY_GROUP_NAME) m.
Proof. unfold get_symbology. by rewrite symbology_group_settings. Qed.

(** Cleaning a path that ends in [.] or in [..]. *)
Lemma clean_segments_dot (l : list string) :
  clean_segments (l ++ ["."]) = clean_segments l.
Proof. unfold clean_segments. by rewrite reverse_app. Qed.

Lemma clean_segments_dots (l : list string) (x : string) :
  plain_name x -> clean_segments (l ++ [x; ".."]) = clean_segments l.
Proof.
  intros [Hdot Hup]. unfold clean_segments. rewrite reverse_app.
  change (reverse [x; ".."]) with [".."; x]. cbn [app clean_from].
  destruct (decide (".." = ".")) as [?|_]; [done|].
  destruct (decide (".." = "..")) as [_|?]; [|done].
  cbn [clean_from]. by rewrite !decide_False by done.
Qed.

Lemma plain_templates : plain_segment TEMPLATE_GROUP_NAME.
Proof. apply (bool_decide_unpack _). by vm_compute. Qed.

Lemma plain_symbology : plain_segment SYMBOLOGY_GROUP_NAME.
Proof. apply (bool_decide_unpack _). by vm_compute. Qed.

Lemma plain_profiles_root : Forall plain_name profiles_root.
Proof. by repeat apply Forall_cons_2. Qed.

(** The groups of the children of one profile, for the two path
    builders alike. *)
Section ChildGroupPaths.
Variables (uid G : string) (base : string -> string).

Hypothesis uid_plain : plain_name uid.

Hypothesis G_plain : plain_name G.

Hypothesis split_base : forall x,
  split_path (base x) = profiles_root ++ [uid; G] ++ split_path x.

Lemma sanitize_base_segment (c : string) :
  is_segment c ->
  sanitizeKey (base c) =
  if decide (c = ".") then profiles_root ++ [uid; G]
  else if decide (c = "..") then profiles_root ++ [uid]
  else profiles_root ++ [uid; G; c].
Proof using uid_plain G_plain split_base.
  intros Hc. unfold sanitizeKey. rewrite split_base.
  destruct (decide (c = ".")) as [->|Hdot];
    [|destruct (decide (c = "..")) as [->|Hup]].
  - change (profiles_root ++ [uid; G] ++ split_path ".")
      with ((profiles_root ++ [uid; G]) ++ ["."]).
    rewrite clean_segments_dot, clean_segments_plain; [done|].
    apply Forall_app_2; [apply plain_profiles_root|].
    by repeat apply Forall_cons_2.
  - change (profiles_root ++ [uid; G] ++ split_path "..")
      with ((profiles_root ++ [uid]) ++ [G; ".."]).
    rewrite clean_segments_dots, clean_segments_plain; [done| |done].
    apply Forall_app_2; [apply plain_profiles_root|].
    by repeat apply Forall_cons_2.
  - rewrite split_path_segment by done.
    rewrite clean_segments_plain; [done|].
    apply Forall_app_2; [apply plain_profiles_root|].
    by repeat apply Forall_cons_2.
Qed.

Lemma child_group_inj (c s : string) :
  is_segment c -> plain_segment s ->
  sanitizeKey (base c) = profiles_root ++ [uid; G; s] -> c = s.
Proof using uid_plain G_plain split_base.
  intros Hc Hs. rewrite sanitize_base_segment by done.
  destruct (decide (c = ".")); [|destruct (decide (c = ".."))];
    intros Heq; apply app_inv_head in Heq; by injection Heq.
Qed.

Lemma child_read_other (c s field : string) (name : option string)
    (m : store) :
  is_segment c -> plain_segment s -> c <> s -> is_segment field ->
  value (qgis_settings (base c)) field
    (write_all [(child_key uid G s "name", name);
                (child_key uid G s "id", Some s)] m) =
  value (qgis_settings (base c)) field m.
Proof using uid_plain G_plain split_base.
  intros Hc Hs Hne Hf. unfold value. rewrite full_key_segment by done.
  rewrite group_qgis_settings. cbn [write_all].
  assert (Hkey : forall f, sanitizeKey (base c) ++ [field] <>
                           child_key uid G s f).
  { intros f Heq. apply Hne, child_group_inj; [done|done|].
    change (child_key uid G s f)
      with ((profiles_root ++ [uid; G; s]) ++ [f]) in Heq.
    by apply app_inj_tail in Heq as [? _]. }
  by rewrite !lookup_insert_ne by (apply not_eq_sym, Hkey).
Qed.
End ChildGroupPaths.

Lemma template_at_other (u : UUID) (c s : string) (name : option string)
    (m : store) :
  is_segment c -> plain_segment s -> c <> s ->
  template_at u c
    (write_all [(child_key (uuid_str u) TEMPLATE_GROUP_NAME s "name", name);
                (child_key (uuid_str u) TEMPLATE_GROUP_NAME s "id", Some s)]
       m) =
  template_at u c m.
Proof.
  intros Hc Hs Hne. unfold template_at, TemplateSettings.from_qgs_settings.
  by rewrite !(child_read_other (uuid_str u) TEMPLATE_GROUP_NAME
                 (_get_template_settings_base u))
    by (done || apply uuid_str_plain || apply plain_templates ||
        apply (split_template_base u) ||
        apply is_segment_name || apply is_segment_id).
Qed.

Lemma symbology_at_other (u : UUID) (c s : string) (name : option string)
    (m : store) :
  is_segment c -> plain_segment s -> c <> s ->
  symbology_at u c
    (write_all [(child_key (uuid_str u) SYMBOLOGY_GROUP_NAME s "name", name);
                (child_key (uuid_str u) SYMBOLOGY_GROUP_NAME s "id", Some s)]
       m) =
  symbology_at u c m.
Proof.
  intros Hc Hs Hne. unfold symbology_at, SymbologySettings.from_qgs_settings.
  by rewrite !(child_read_other (uuid_str u) SYMBOLOGY_GROUP_NAME
                 (_get_symbology_settings_base u))
    by (done || apply uuid_str_plain || apply plain_symbology ||
        apply (split_symbology_base u) ||
        apply is_segment_name || apply is_segment_id).
Qed.

Lemma template_at_lookup (u : UUID) (c : string) (m : store) :
  plain_segment c ->
  template_at u c m =
  {| TemplateSettings.name :=
       mjoin (m !! child_key (uuid_str u) TEMPLATE_GROUP_NAME c "name");
     TemplateSettings.id :=
       mjoin (m !! child_key (uuid_str u) TEMPLATE_GROUP_NAME c "id") |}.
Proof.
  intros Hc.
  unfold template_at, TemplateSettings.from_qgs_settings, value.
  rewrite !full_key_segment by (apply is_segment_name || apply is_segment_id).
  rewrite group_qgis_settings, sanitize_template_base
    by by apply dot_free_segment.
  rewrite split_path_segment by apply Hc.
  by rewrite <- !app_assoc.
Qed.

Lemma symbology_at_lookup (u : UUID) (c : string) (m : store) :
  plain_segment c ->
  symbology_at u c m =
  {| SymbologySettings.name :=
       mjoin (m !! child_key (uuid_str u) SYMBOLOGY_GROUP_NAME c "name");
     SymbologySettings.id :=
       mjoin (m !! child_key (uuid_str u) SYMBOLOGY_GROUP_NAME c "id") |}.
Proof.
  intros Hc.
  unfold symbology_at, SymbologySettings.from_qgs_settings, value.
  rewrite !full_key_segment by (apply is_segment_name || apply is_segment_id).
  rewrite group_qgis_settings, sanitize_symbology_base
    by by apply dot_free_segment.
  rewrite split_path_segment by apply Hc.
  by rewrite <- !app_assoc.
Qed.

Lemma child_key_inj (uid G s s' field field' : string) :
  child_key uid G s field = child_key uid G s' field' ->
  s = s' /\ field = field'.
Proof.
  unfold child_key. intros Heq. apply app_inv_head in Heq.
  by injection Heq as -> ->.
Qed.

(** The store after the two writes of one child record. *)
Lemma child_record_saved (uid G s : string) (name : option string)
    (m : store) :
  let m' := write_all [(child_key uid G s "name", name);
                       (child_key uid G s "id", Some s)] m in
  m' !! child_key uid G s "name" = Some name /\
  m' !! child_key uid G s "id" = Some (Some s) /\
  (forall c field : string,
     c <> s -> m' !! child_key uid G c field = m !! child_key uid G c field) /\
  (forall c : string,
     c ∈ childGroups (children_group uid G) m' <->
     c ∈ childGroups (children_group uid G) m \/ c = s).
Proof.
  intros m'. split; [|split; [|split]].
  - unfold m'. cbn [write_all].
    rewrite lookup_insert_ne; [apply lookup_insert_eq|].
    intros Heq. by apply child_key_inj in Heq as [_ ?].
  - unfold m'. cbn [write_all]. apply lookup_insert_eq.
  - intros c field Hc. unfold m'. cbn [write_all].
    rewrite !lookup_insert_ne; [done| |];
      intros Heq; by apply child_key_inj in Heq as [? _].
  - intros c. unfold m'. rewrite childGroups_write_all.
    cbn [group children_group fmap list_fmap fst].
    split; (intros [Hc|Hc]; [by left|right]).
    + destruct Hc as (k & Hk & Hc).
      apply elem_of_cons in Hk as [->|Hk];
        [|apply elem_of_one in Hk as ->];
        rewrite child_group_child_key in Hc; congruence.
    + subst c. exists (child_key uid G s "id").
      split; [right; by left|apply child_group_child_key].
Qed.

(** X20: after [save_template] of a record whose identifier is one
    path segment other than [.] and [..], on a store whose keys are made
    of segments, [get_templates] returns that record and the records of
    the other template groups, each as it read before; [save_symbology]
    and [get_symbology] behave alike. *)
Theorem saved_child_is_listed (profile : ProfileSettings.t) (w : manager) :
  store_wf (settings w) ->
  (forall (t : TemplateSettings.t) (s : string),
     TemplateSettings.id t = Some s -> plain_segment s ->
     forall r : TemplateSettings.t,
       r ∈ get_templates (ProfileSettings.id profile)
             (settings (save_template profile t w).2) <->
       r = t \/
       exists c,
         c ∈ childGroups
               (children_group (uuid_str (ProfileSettings.id profile))
                  TEMPLATE_GROUP_NAME) (settings w) /\
         c <> s /\
         r = template_at (ProfileSettings.id profile) c (settings w)) /\
  (forall (y : SymbologySettings.t) (s : string),
     SymbologySettings.id y = Some s -> plain_segment s ->
     forall r : SymbologySettings.t,
       r ∈ get_symbology (ProfileSettings.id profile)
             (settings (save_symbology profile y w).2) <->
       r = y \/
       exists c,
         c ∈ childGroups
               (children_group (uuid_str (ProfileSettings.id profile))
                  SYMBOLOGY_GROUP_NAME) (settings w) /\
         c <> s /\
         r = symbology_at (ProfileSettings.id profile) c (settings w)).
Proof.
  intros Hwf. split.
  - intros t s Hid Hs r.
    rewrite save_template_writes. cbn [snd written settings].
    rewrite (template_writes_valid profile t s Hid Hs).
    destruct (child_record_saved (uuid_str (ProfileSettings.id profile))
                TEMPLATE_GROUP_NAME s (TemplateSettings.name t) (settings w))
      as (Hname & Hident & Hother & Hgroups).
    set (m' := write_all _ (settings w)) in *.
    assert (Hnew : template_at (ProfileSettings.id profile) s m' = t).
    { rewrite template_at_lookup, Hname, Hident by done.
      destruct t as [tn ti]. cbn in *. by subst ti. }
    assert (Hold : forall c, is_segment c -> c <> s ->
              template_at (ProfileSettings.id profile) c m' =
              template_at (ProfileSettings.id profile) c (settings w)).
    { intros c Hc Hne. by apply template_at_other. }
    rewrite get_templates_at, list_elem_of_fmap. split.
    + intros (c & -> & Hc). apply Hgroups in Hc as [Hc| ->]; [|by left].
      destruct (decide (c = s)) as [->|Hne]; [by left|].
      right. exists c. split; [done|]. split; [done|].
      apply Hold; [|done]. by eapply child_group_segment.
    + intros [->|(c & Hc & Hne & ->)].
      * exists s. split; [done|]. apply Hgroups. by right.
      * exists c. split; [|apply Hgroups; by left].
        symmetry. apply Hold; [|done]. by eapply child_group_segment.
  - intros y s Hid Hs r.
    rewrite save_symbology_writes. cbn [snd written settings].
    rewrite (symbology_writes_valid profile y s Hid Hs).
    destruct (child_record_saved (uuid_str (ProfileSettings.id profile))
                SYMBOLOGY_GROUP_NAME s (SymbologySettings.name y) (settings w))
      as (Hname & Hident & Hother & Hgroups).
    set (m' := write_all _ (settings w)) in *.
    assert (Hnew : symbology_at (ProfileSettings.id profile) s m' = y).
    { rewrite symbology_at_lookup, Hname, Hident by done.
      destruct y as [yn yi]. cbn in *. by subst yi. }
    assert (Hold : forall c, is_segment c -> c <> s ->
              symbology_at (ProfileSettings.id profile) c m' =
              symbology_at (ProfileSettings.id profile) c (settings w)).
    { intros c Hc Hne. by apply symbology_at_other. }
    rewrite get_symbology_at, list_elem_of_fmap. split.
    + intros (c & -> & Hc). apply Hgroups in Hc as [Hc| ->]; [|by left].
      destruct (decide (c = s)) as [->|Hne]; [by left|].
      right. exists c. split; [done|]. split; [done|].
      apply Hold; [|done]. by eapply child_group_segment.
    + intros [->|(c & Hc & Hne & ->)].
      * exists s. split; [done|]. apply Hgroups. by right.
      * exists c. split; [|apply Hgroups; by left].
        symmetry. apply Hold; [|done]. by eapply child_group_segment.
Qed.

Lemma saved_child_is_listed_witness :
  {| TemplateSettings.name := Some "Plain"; TemplateSettings.id := Some "t2" |}
  ∈ get_templates sample_id
      (settings
         (save_template sample_profile
            {| TemplateSettings.name := Some "Plain";
               TemplateSettings.id := Some "t2" |} sample_manager).2).
Proof.
  destruct (saved_child_is_listed sample_profile sample_manager) as [H _].
  - apply (bool_decide_unpack _). vm_compute. reflexivity.
  - apply (H _ "t2"); [reflexivity| |by left].
    apply (bool_decide_unpack _). by vm_compute.
Defined.

(** ** The plain accessors *)

Lemma full_key_plain (name : string) :
  full_key new_QgsSettings (BASE_GROUP_NAME +:+ "/" +:+ name) = plain_key name.
Proof. reflexivity. Qed.

Lemma plain_key_pointer : plain_key SELECTED_PROFILE_KEY = pointer_key.
Proof. reflexivity. Qed.

(** The key of a name without [.] and [..] segments is the name's own
    segments under the plugin's group. *)
Lemma plain_key_dot_free (name : string) :
  dot_free name -> plain_key name = BASE_GROUP_NAME :: split_path name.
Proof.
  intros Hn. unfold plain_key. rewrite sanitizeKey_dot_free.
  - by rewrite split_path_slash.
  - by apply dot_free_slash; [apply dot_free_base|].
  - by rewrite split_path_slash.
Qed.



(** X22: [SettingsManager.remove] drops the key of the name and every
    key below it, leaves every other key as it is and emits nothing;
    the key of a name without [.] and [..] segments is made of the
    plugin's group and the segments of the name.  [get_value] of the
    name then returns the default.  Removing the profiles group this way
    leaves no profile group and leaves the pointer as it was. *)
Theorem remove_drops_subtree (name : string) (default : option string)
    (w : manager) :
  (SettingsManager.remove name w).1 = Ok tt /\
  emitted (SettingsManager.remove name w).2 = emitted w /\
  (dot_free name -> plain_key name = BASE_GROUP_NAME :: split_path name) /\
  (forall k : list string,
     plain_key name `prefix_of` k ->
     settings (SettingsManager.remove name w).2 !! k = None) /\
  (forall k : list string,
     ~ plain_key name `prefix_of` k ->
     settings (SettingsManager.remove name w).2 !! k = settings w !! k) /\
  SettingsManager.get_value name default
    (settings (SettingsManager.remove name w).2) = default /\
  (plain_key name = profiles_root ->
   current_pointer (settings (SettingsManager.remove name w).2) =
     current_pointer (settings w) /\
   childGroups profiles_settings
     (settings (SettingsManager.remove name w).2) = []).
Proof.
  unfold SettingsManager.remove, update. cbn [fst snd settings emitted].
  assert (Hin : forall k : list string,
            plain_key name `prefix_of` k ->
            remove new_QgsSettings (BASE_GROUP_NAME +:+ "/" +:+ name)
              (settings w) !! k = None).
  { intros k Hk. apply lookup_remove_inside. by rewrite full_key_plain. }
  assert (Hout : forall k : list string,
            ~ plain_key name `prefix_of` k ->
            remove new_QgsSettings (BASE_GROUP_NAME +:+ "/" +:+ name)
              (settings w) !! k = settings w !! k).
  { intros k Hk. apply lookup_remove_outside. by rewrite full_key_plain. }
  split; [done|]. split; [done|]. split; [apply plain_key_dot_free|].
  split; [done|]. split; [done|].
  split.
  - unfold SettingsManager.get_value, value_or.
    by rewrite full_key_plain, Hin.
  - intros Hp. split.
    + rewrite !current_pointer_lookup, Hout; [done|].
      rewrite Hp. apply (pointer_outside_profiles []).
    + apply childGroups_nil. intros k Hk. apply Hin.
      by rewrite Hp, <- group_profiles_settings.
Qed.

Lemma remove_drops_subtree_witness :
  childGroups profiles_settings
    (settings (SettingsManager.remove PROFILE_GROUP_NAME selected_manager).2) =
  [] /\
  current_pointer
    (settings (SettingsManager.remove PROFILE_GROUP_NAME selected_manager).2) =
  Some (uuid_str sample_id) /\
  current_pointer
    (settings
       (SettingsManager.remove "profiles/../selected_profile"
          selected_manager).2) = None.
Proof.
  destruct (remove_drops_subtree PROFILE_GROUP_NAME None selected_manager)
    as (_ & _ & _ & _ & _ & _ & H).
  destruct (remove_drops_subtree "profiles/../selected_profile" None
              selected_manager) as (_ & _ & _ & Hdrop & _).
  destruct (H eq_refl) as [Hp Hg]. split; [exact Hg|]. split.
  - rewrite Hp. vm_compute. reflexivity.
  - rewrite current_pointer_lookup, (Hdrop pointer_key); [reflexivity|].
    by exists [].
Defined.



(** ** The child records of a saved profile *)

Lemma NoDup_fmap_inj_on {A B} (f : A -> B) (l : list A) (a b : A) :
  NoDup (f <$> l) -> a ∈ l -> b ∈ l -> f a = f b -> a = b.
Proof.
  induction l as [|x l IH]; intros Hnd Ha Hb Hf; [by apply elem_of_nil in Ha|].
  cbn [fmap list_fmap] in Hnd. apply NoDup_cons in Hnd as [Hx Hnd].
  apply elem_of_cons in Ha as [->|Ha]; apply elem_of_cons in Hb as [->|Hb].
  - done.
  - exfalso. apply Hx. rewrite Hf. apply list_elem_of_fmap. by exists b.
  - exfalso. apply Hx. rewrite <- Hf. apply list_elem_of_fmap. by exists a.
  - by apply IH.
Qed.

Section NamedChildRecords.
Context {A : Type} (name_of id_of : A -> option string).
Context (wr : A -> list (list string * option string)) (uid G : string).

Hypothesis wr_valid : forall a s,
  id_of a = Some s -> plain_segment s ->
  wr a = [(child_key uid G s "name", name_of a);
          (child_key uid G s "id", Some s)].

Variables (recs : list A) (pre post : list (list string * option string)).
Variable m : store.

Hypothesis recs_valid : Forall (fun a => valid_child_id (id_of a)) recs.

Hypothesis foreign :
  Forall (fun k => child_group (profiles_root ++ [uid; G]) k = None)
    (pre ++ post).*1.

Hypothesis ids_distinct : NoDup (id_of <$> recs).

Let ws := pre ++ concat (wr <$> recs) ++ post.

(** With one record per identifier, the name read back under an
    identifier is the name of its record. *)
Lemma child_name_read_back (a : A) (s : string) :
  a ∈ recs -> id_of a = Some s ->
  write_all ws m !! child_key uid G s "name" = Some (name_of a).
Proof using wr_valid recs_valid foreign ids_distinct.
  intros Ha Hs.
  assert (Hseg : plain_segment s).
  { pose proof recs_valid as Hv. eapply Forall_forall in Hv; [|exact Ha].
    destruct Hv as (s' & Hs' & Hseg). congruence. }
  apply write_all_lookup_uniform.
  - apply list_elem_of_fmap.
    exists (child_key uid G s "name", name_of a). split; [done|].
    unfold ws. rewrite !elem_of_app, elem_of_concat_fmap.
    right; left. exists a. split; [done|].
    rewrite (wr_valid a s Hs Hseg). by left.
  - intros v' Hv'.
    apply (child_write name_of id_of wr uid G wr_valid recs pre post
             recs_valid foreign) in Hv'
      as [Hnone|(b & s' & Hb & Hs' & Hseg' & [[Hk ->]|[Hk _]])].
    + by rewrite child_group_child_key in Hnone.
    + apply child_key_inj in Hk as [<- _].
      f_equal. apply (NoDup_fmap_inj_on id_of recs); [done|done|done|congruence].
    + by apply child_key_inj in Hk as [_ ?].
Qed.
End NamedChildRecords.

Section SavedChildren.
Variables (profile : ProfileSettings.t) (created : string) (m : store).

Let uid := uuid_str (ProfileSettings.id profile).
Let m' := write_all (profile_writes profile created) m.

Hypothesis templates_valid :
  Forall (fun t => valid_child_id (TemplateSettings.id t))
    (ProfileSettings.templates profile).

Hypothesis symbology_valid :
  Forall (fun y => valid_child_id (SymbologySettings.id y))
    (ProfileSettings.symbology profile).

Hypothesis templates_distinct :
  NoDup (TemplateSettings.id <$> ProfileSettings.templates profile).

Hypothesis symbology_distinct :
  NoDup (SymbologySettings.id <$> ProfileSettings.symbology profile).

Hypothesis templates_known : forall c,
  c ∈ childGroups (children_group uid TEMPLATE_GROUP_NAME) m ->
  Some c ∈ TemplateSettings.id <$> ProfileSettings.templates profile.

Hypothesis symbology_known : forall c,
  c ∈ childGroups (children_group uid SYMBOLOGY_GROUP_NAME) m ->
  Some c ∈ SymbologySettings.id <$> ProfileSettings.symbology profile.

Lemma saved_templates (t : TemplateSettings.t) :
  t ∈ get_templates (ProfileSettings.id profile) m' <->
  t ∈ ProfileSettings.templates profile.
Proof using templates_valid symbology_valid templates_distinct
  templates_known.
  assert (Hfor : Forall (fun k =>
            child_group (profiles_root ++ [uid; TEMPLATE_GROUP_NAME]) k = None)
            ([] ++ concat (symbology_writes profile <$>
                             ProfileSettings.symbology profile) ++
             field_writes profile created).*1).
  { cbn [app]. rewrite fmap_app. apply Forall_app_2.
    - by apply symbology_writes_foreign.
    - apply field_writes_foreign. }
  pose proof (child_groups_after TemplateSettings.name TemplateSettings.id
    (template_writes profile) uid TEMPLATE_GROUP_NAME
    (template_writes_valid profile) (ProfileSettings.templates profile)
    [] _ m templates_valid Hfor templates_known) as Hgroups.
  pose proof (child_id_read_back TemplateSettings.name TemplateSettings.id
    (template_writes profile) uid TEMPLATE_GROUP_NAME
    (template_writes_valid profile) (ProfileSettings.templates profile)
    [] _ m templates_valid Hfor) as Hident.
  pose proof (child_name_read_back TemplateSettings.name TemplateSettings.id
    (template_writes profile) uid TEMPLATE_GROUP_NAME
    (template_writes_valid profile) (ProfileSettings.templates profile)
    [] _ m templates_valid Hfor templates_distinct) as Hname.
  cbn [app] in Hgroups, Hident, Hname.
  rewrite <- profile_writes_fields in Hgroups, Hident, Hname.
  fold m' in Hgroups, Hident, Hname.
  assert (Hread : forall (a : TemplateSettings.t) (s : string),
            a ∈ ProfileSettings.templates profile ->
            TemplateSettings.id a = Some s ->
            template_at (ProfileSettings.id profile) s m' = a).
  { intros a s Ha Hs.
    assert (Hseg : plain_segment s).
    { pose proof templates_valid as Hv.
      eapply Forall_forall in Hv; [|exact Ha].
      destruct Hv as (s' & Hs' & Hseg). congruence. }
    rewrite template_at_lookup by done. fold uid.
    rewrite (Hname a s Ha Hs), Hident
      by (apply list_elem_of_fmap; by exists a).
    destruct a as [an ai]. cbn in *. by subst ai. }
  rewrite get_templates_at, list_elem_of_fmap. fold uid. split.
  - intros (c & -> & Hc). apply Hgroups, list_elem_of_fmap in Hc
      as (a & Hs & Ha).
    by rewrite (Hread a c Ha).
  - intros Ht. pose proof templates_valid as Hv.
    eapply Forall_forall in Hv; [|exact Ht].
    destruct Hv as (s & Hs & _). exists s. split.
    + symmetry. by apply Hread.
    + apply Hgroups, list_elem_of_fmap. by exists t.
Qed.

Lemma saved_symbology (y : SymbologySettings.t) :
  y ∈ get_symbology (ProfileSettings.id profile) m' <->
  y ∈ ProfileSettings.symbology profile.
Proof using templates_valid symbology_valid symbology_distinct
  symbology_known.
  assert (Hfor : Forall (fun k =>
            child_group (profiles_root ++ [uid; SYMBOLOGY_GROUP_NAME]) k = None)
            (concat (template_writes profile <$>
                       ProfileSettings.templates profile) ++
             field_writes profile created).*1).
  { rewrite fmap_app. apply Forall_app_2.
    - by apply template_writes_foreign.
    - apply field_writes_foreign. }
  pose proof (child_groups_after SymbologySettings.name SymbologySettings.id
    (symbology_writes profile) uid SYMBOLOGY_GROUP_NAME
    (symbology_writes_valid profile) (ProfileSettings.symbology profile)
    _ _ m symbology_valid Hfor symbology_known) as Hgroups.
  pose proof (child_id_read_back SymbologySettings.name SymbologySettings.id
    (symbology_writes profile) uid SYMBOLOGY_GROUP_NAME
    (symbology_writes_valid profile) (ProfileSettings.symbology profile)
    _ _ m symbology_valid Hfor) as Hident.
  pose proof (child_name_read_back SymbologySettings.name SymbologySettings.id
    (symbology_writes profile) uid SYMBOLOGY_GROUP_NAME
    (symbology_writes_valid profile) (ProfileSettings.symbology profile)
    _ _ m symbology_valid Hfor symbology_distinct) as Hname.
  rewrite <- profile_writes_fields in Hgroups, Hident, Hname.
  fold m' in Hgroups, Hident, Hname.
  assert (Hread : forall (a : SymbologySettings.t) (s : string),
            a ∈ ProfileSettings.symbology profile ->
            SymbologySettings.id a = Some s ->
            symbology_at (ProfileSettings.id profile) s m' = a).
  { intros a s Ha Hs.
    assert (Hseg : plain_segment s).
    { pose proof symbology_valid as Hv.
      eapply Forall_forall in Hv; [|exact Ha].
      destruct Hv as (s' & Hs' & Hseg). congruence. }
    rewrite symbology_at_lookup by done. fold uid.
    rewrite (Hname a s Ha Hs), Hident
      by (apply list_elem_of_fmap; by exists a).
    destruct a as [an ai]. cbn in *. by subst ai. }
  rewrite get_symbology_at, list_elem_of_fmap. fold uid. split.
  - intros (c & -> & Hc). apply Hgroups, list_elem_of_fmap in Hc
      as (a & Hs & Ha).
    by rewrite (Hread a c Ha).
  - intros Hy. pose proof symbology_valid as Hv.
    eapply Forall_forall in Hv; [|exact Hy].
    destruct Hv as (s & Hs & _). exists s. split.
    + symmetry. by apply Hread.
    + apply Hgroups, list_elem_of_fmap. by exists y.
Qed.
End SavedChildren.

(** X23: let a profile carry a well-formed identifier, a valid date
    whose year has four digits, and templates and symbology whose
    identifiers are path segments other than [.] and [..], no two alike
    in either list, and let the store hold no other child group under
    the profile.  Then the profile read back after a save has the same
    templates and the same symbology, names included. *)
Theorem saved_children_read_back (now : datetime)
    (profile : ProfileSettings.t) (d : datetime) (w : manager) :
  uuid_wf (ProfileSettings.id profile) ->
  ProfileSettings.created_date profile = Some d ->
  dt_valid d = true ->
  (1000 <= year d)%N ->
  Forall (fun t => valid_child_id (TemplateSettings.id t))
    (ProfileSettings.templates profile) ->
  Forall (fun y => valid_child_id (SymbologySettings.id y))
    (ProfileSettings.symbology profile) ->
  NoDup (TemplateSettings.id <$> ProfileSettings.templates profile) ->
  NoDup (SymbologySettings.id <$> ProfileSettings.symbology profile) ->
  (forall c,
     c ∈ childGroups
           (children_group (uuid_str (ProfileSettings.id profile))
              TEMPLATE_GROUP_NAME) (settings w) ->
     Some c ∈ TemplateSettings.id <$> ProfileSettings.templates profile) ->
  (forall c,
     c ∈ childGroups
           (children_group (uuid_str (ProfileSettings.id profile))
              SYMBOLOGY_GROUP_NAME) (settings w) ->
     Some c ∈ SymbologySettings.id <$> ProfileSettings.symbology profile) ->
  exists q,
    get_profile_settings now (ProfileSettings.id profile)
      (settings (save_profile_settings profile w).2) = Ok q /\
    (forall t : TemplateSettings.t,
       t ∈ ProfileSettings.templates q <->
       t ∈ ProfileSettings.templates profile) /\
    (forall y : SymbologySettings.t,
       y ∈ ProfileSettings.symbology q <->
       y ∈ ProfileSettings.symbology profile).
Proof.
  intros Hwf Hd Hvalid Hyear Ht Hy Htd Hyd Htk Hyk.
  rewrite (save_profile_settings_dated profile d w Hd). cbn [snd settings].
  eexists. split.
  - rewrite get_profile_settings_unfold.
    apply (from_qgs_settings_date _ _ _ _ (ProfileSettings.id profile)
             (strftime d DATE_FORMAT) d).
    + by apply uuid_of_string_str.
    + rewrite profile_value by apply is_segment_created_date.
      by destruct (saved_fields profile (strftime d DATE_FORMAT) (settings w))
        as (_ & _ & ->).
    + by apply strptime_strftime.
  - unfold decoded.
    cbn [ProfileSettings.templates ProfileSettings.symbology]. split.
    + intros t. by apply saved_templates.
    + intros y. by apply saved_symbology.
Qed.

Lemma saved_children_read_back_witness :
  exists q,
    get_profile_settings sample_now sample_id
      (settings (save_profile_settings sample_profile empty_manager).2) = Ok q /\
    (forall t : TemplateSettings.t,
       t ∈ ProfileSettings.templates q <->
       t ∈ ProfileSettings.templates sample_profile) /\
    (forall y : SymbologySettings.t,
       y ∈ ProfileSettings.symbology q <->
       y ∈ ProfileSettings.symbology sample_profile).
Proof.
  assert (Hseg : forall s : string,
            bool_decide (plain_segment s) = true -> valid_child_id (Some s)).
  { intros s Hs. exists s. split; [done|]. by apply bool_decide_eq_true in Hs. }
  apply (saved_children_read_back sample_now sample_profile sample_date
           empty_manager).
  - apply sample_id_wf.
  - reflexivity.
  - reflexivity.
  - by vm_compute.
  - apply Forall_cons_2; [|apply Forall_nil_2]. apply Hseg. by vm_compute.
  - apply Forall_cons_2; [|apply Forall_nil_2]. apply Hseg. by vm_compute.
  - apply NoDup_singleton.
  - apply NoDup_singleton.
  - intros c Hc. rewrite childGroups_nil in Hc; [by apply elem_of_nil in Hc|].
    intros k _. apply lookup_empty.
  - intros c Hc. rewrite childGroups_nil in Hc; [by apply elem_of_nil in Hc|].
    intros k _. apply lookup_empty.
Defined.

(** ** The paths of the groups *)

(** X24: the groups the three path builders name, for well-formed
    profile identifiers and child identifiers that are path segments
    other than [.] and [..]: a template group and a symbology group lie
    inside the group of their profile, never coincide, and two template
    groups, or two symbology groups, coincide only for the same profile
    and the same child identifier.  For the child identifier [..] the
    group is the group of the profile itself. *)
Theorem settings_bases_distinct (u v : UUID) (x y : string) :
  uuid_wf u -> uuid_wf v -> plain_segment x -> plain_segment y ->
  (group (qgis_settings (_get_profile_settings_base (uuid_str u))) =
   group (qgis_settings (_get_profile_settings_base (uuid_str v))) ->
   u = v) /\
  group (qgis_settings (_get_template_settings_base u x)) =
    group (qgis_settings (_get_profile_settings_base (uuid_str u))) ++
    [TEMPLATE_GROUP_NAME; x] /\
  group (qgis_settings (_get_symbology_settings_base u x)) =
    group (qgis_settings (_get_profile_settings_base (uuid_str u))) ++
    [SYMBOLOGY_GROUP_NAME; x] /\
  group (qgis_settings (_get_template_settings_base u x)) <>
    group (qgis_settings (_get_symbology_settings_base v y)) /\
  (group (qgis_settings (_get_template_settings_base u x)) =
   group (qgis_settings (_get_template_settings_base v y)) ->
   u = v /\ x = y) /\
  (group (qgis_settings (_get_symbology_settings_base u x)) =
   group (qgis_settings (_get_symbology_settings_base v y)) ->
   u = v /\ x = y) /\
  group (qgis_settings (_get_template_settings_base u "..")) =
    group (qgis_settings (_get_profile_settings_base (uuid_str u))) /\
  group (qgis_settings (_get_symbology_settings_base u "..")) =
    group (qgis_settings (_get_profile_settings_base (uuid_str u))).
Proof.
  intros Hu Hv Hx Hy.
  assert (Hup : is_segment "..").
  { split; [done|]. apply (bool_decide_unpack _). by vm_compute. }
  rewrite !group_qgis_settings.
  rewrite (sanitize_base_segment (uuid_str u) TEMPLATE_GROUP_NAME
             (_get_template_settings_base u) (proj2 (uuid_str_plain u))
             (proj2 plain_templates) (split_template_base u) ".." Hup).
  rewrite (sanitize_base_segment (uuid_str u) SYMBOLOGY_GROUP_NAME
             (_get_symbology_settings_base u) (proj2 (uuid_str_plain u))
             (proj2 plain_symbology) (split_symbology_base u) ".." Hup).
  cbn [decide_rel].
  rewrite !sanitize_profile_base_uuid.
  rewrite !sanitize_template_base, !sanitize_symbology_base
    by by apply dot_free_segment.
  rewrite (split_path_segment x), (split_path_segment y)
    by (apply Hx || apply Hy).
  split; [|split; [|split; [|split; [|split; [|split]]]]].
  - intros Heq. apply app_inv_head, cons_eq_head in Heq.
    by apply uuid_str_inj.
  - by rewrite <- app_assoc.
  - by rewrite <- app_assoc.
  - intros Heq. apply app_inv_head in Heq.
    cbn [app] in Heq. by apply cons_eq_tail, cons_eq_head in Heq.
  - intros Heq. apply app_inv_head in Heq. cbn [app] in Heq.
    pose proof (cons_eq_head _ _ _ _ Heq) as Huv.
    apply uuid_str_inj in Huv; [|done|done]. subst v.
    split; [done|]. apply (app_inv_head [_; _]), cons_eq_head in Heq. done.
  - intros Heq. apply app_inv_head in Heq. cbn [app] in Heq.
    pose proof (cons_eq_head _ _ _ _ Heq) as Huv.
    apply uuid_str_inj in Huv; [|done|done]. subst v.
    split; [done|]. apply (app_inv_head [_; _]), cons_eq_head in Heq. done.
  - done.
Qed.

Lemma settings_bases_distinct_witness :
  group (qgis_settings (_get_template_settings_base sample_id "t1")) <>
  group (qgis_settings (_get_symbology_settings_base other_id "t1")).
Proof.
  assert (Hseg : plain_segment "t1").
  { apply (bool_decide_unpack _). by vm_compute. }
  apply (settings_bases_distinct sample_id other_id "t1" "t1");
    [apply sample_id_wf|apply other_id_wf|exact Hseg|exact Hseg].
Defined.



(** ** Keys are made of segments *)

Lemma list_ascii_of_string_append (a b : string) :
  list_ascii_of_string (a +:+ b) =
  list_ascii_of_string a ++ list_ascii_of_string b.
Proof.
  induction a as [|c a IH]; [done|].
  rewrite append_cons. cbn [list_ascii_of_string app]. by rewrite IH.
Qed.

Lemma split_path_from_segments (cur s : string) :
  "/"%char ∉ list_ascii_of_string cur ->
  Forall is_segment (split_path_from cur s).
Proof.
  revert cur; induction s as [|c s IH]; intros cur Hcur; cbn [split_path_from].
  - destruct (decide (cur = "")); [apply Forall_nil_2|].
    apply Forall_cons_2; [by split|apply Forall_nil_2].
  - destruct (decide (c = "/"%char)) as [->|Hc].
    + apply Forall_app_2; [|apply IH, not_elem_of_nil].
      destruct (decide (cur = "")); [apply Forall_nil_2|].
      apply Forall_cons_2; [by split|apply Forall_nil_2].
    + apply IH. rewrite list_ascii_of_string_append.
      cbn [list_ascii_of_string]. rewrite elem_of_app.
      intros [H|H]; [done|]. by apply elem_of_one in H.
Qed.

Lemma split_path_segments (s : string) : Forall is_segment (split_path s).
Proof. apply split_path_from_segments, not_elem_of_nil. Qed.

Lemma clean_from_segments (up : nat) (l : list string) :
  Forall is_segment l -> Forall is_segment (clean_from up l).
Proof.
  intros Hl. revert up. induction Hl as [|s l Hs _ IH]; intros up.
  - cbn [clean_from]. apply Forall_replicate.
    split; [done|]. apply (bool_decide_unpack _). by vm_compute.
  - cbn [clean_from]. repeat case_decide; [apply IH|apply IH|].
    destruct up; [by apply Forall_cons_2|apply IH].
Qed.

Lemma sanitizeKey_segments (s : string) : Forall is_segment (sanitizeKey s).
Proof.
  assert (Hclean : Forall is_segment (clean_segments (split_path s)))
    by apply Forall_reverse, clean_from_segments, Forall_reverse,
         split_path_segments.
  unfold sanitizeKey. destruct (clean_segments (split_path s)); [|done].
  destruct (_ || _); [apply Forall_nil_2|].
  apply Forall_singleton. split; [done|].
  apply (bool_decide_unpack _). by vm_compute.
Qed.

Lemma full_key_segments (s key : string) :
  Forall is_segment (full_key (qgis_settings s) key).
Proof.
  unfold full_key. rewrite group_qgis_settings.
  apply Forall_app_2; apply sanitizeKey_segments.
Qed.

Lemma store_wf_insert (k : list string) (v : option string) (m : store) :
  Forall is_segment k -> store_wf m -> store_wf (<[k := v]> m).
Proof. intros Hk Hm. by apply map_Forall_insert_2. Qed.

Lemma store_wf_remove (h : QgsSettings) (key : string) (m : store) :
  store_wf m -> store_wf (remove h key m).
Proof.
  intros Hm k v Hk. apply map_lookup_filter_Some in Hk as [Hk _].
  by apply (Hm k v).
Qed.

Lemma store_wf_write_all (ws : list (list string * option string))
    (m : store) :
  Forall (Forall is_segment) ws.*1 -> store_wf m -> store_wf (write_all ws m).
Proof.
  revert m; induction ws as [|[k v] ws IH]; intros m Hws Hm; [done|].
  cbn [fmap list_fmap fst] in Hws. apply Forall_cons in Hws as [Hk Hws].
  cbn [write_all]. by apply IH, store_wf_insert.
Qed.

Lemma store_wf_foldl_remove (h : QgsSettings) (l : list string) (m : store) :
  store_wf m -> store_wf (foldl (fun m c => remove h c m) m l).
Proof.
  revert m; induction l as [|c l IH]; intros m Hm; [done|].
  cbn [foldl]. by apply IH, store_wf_remove.
Qed.

Lemma pointer_key_segments : Forall is_segment pointer_key.
Proof.
  rewrite <- full_key_pointer. apply full_key_segments.
Qed.

Lemma template_writes_segments (profile : ProfileSettings.t)
    (t : TemplateSettings.t) :
  Forall (Forall is_segment) (template_writes profile t).*1.
Proof.
  unfold template_writes, template_settings. cbn [fmap list_fmap fst].
  apply Forall_cons_2; [apply full_key_segments|].
  apply Forall_cons_2; [apply full_key_segments|apply Forall_nil_2].
Qed.

Lemma symbology_writes_segments (profile : ProfileSettings.t)
    (y : SymbologySettings.t) :
  Forall (Forall is_segment) (symbology_writes profile y).*1.
Proof.
  unfold symbology_writes, symbology_settings. cbn [fmap list_fmap fst].
  apply Forall_cons_2; [apply full_key_segments|].
  apply Forall_cons_2; [apply full_key_segments|apply Forall_nil_2].
Qed.

Lemma concat_writes_segments {A}
    (wr : A -> list (list string * option string)) (l : list A) :
  (forall a, Forall (Forall is_segment) (wr a).*1) ->
  Forall (Forall is_segment) (concat (wr <$> l)).*1.
Proof.
  intros Hwr. induction l as [|a l IH]; [apply Forall_nil_2|].
  cbn [fmap list_fmap concat]. rewrite fmap_app.
  apply Forall_app_2; [apply Hwr|apply IH].
Qed.

Lemma profile_writes_segments (profile : ProfileSettings.t)
    (created : string) :
  Forall (Forall is_segment) (profile_writes profile created).*1.
Proof.
  unfold profile_writes. rewrite !fmap_app.
  apply Forall_app_2; [|apply Forall_app_2].
  - apply concat_writes_segments, template_writes_segments.
  - apply concat_writes_segments, symbology_writes_segments.
  - cbn [fmap list_fmap fst].
    apply Forall_cons_2; [apply full_key_segments|].
    apply Forall_cons_2; [apply full_key_segments|].
    apply Forall_cons_2; [apply full_key_segments|apply Forall_nil_2].
Qed.

(** X25: the empty store has keys made of path segments only, and every
    update of the manager keeps it so, the plain [set_value] and
    [remove] included: no operation writes a key with an empty segment
    or a slash inside a segment. *)
Theorem keys_stay_segments (now : datetime) (w : manager) :
  store_wf ∅ /\
  (store_wf (settings w) ->
   (forall op : operation, store_wf (settings (run now op w).2)) /\
   (forall (name : string) (v : option string),
      store_wf (settings (SettingsManager.set_value name v w).2)) /\
   (forall name : string,
      store_wf (settings (SettingsManager.remove name w).2))).
Proof.
  split; [apply map_Forall_empty|]. intros Hw. split; [|split].
  - intros [profile|u| |u| |profile t|profile y]; cbn [run].
    + destruct (ProfileSettings.created_date profile) as [d|] eqn:Hd.
      * rewrite (save_profile_settings_dated profile d w Hd).
        cbn [snd settings].
        by apply store_wf_write_all; [apply profile_writes_segments|].
      * by rewrite (save_profile_settings_undated profile w Hd).
    + rewrite delete_profile_unfold.
      destruct (is_current_profile now u (settings w)) as [[|]|e];
        cbn [snd settings]; [| |done].
      * by apply store_wf_remove, store_wf_insert;
          [apply pointer_key_segments|].
      * by apply store_wf_remove.
    + rewrite delete_all_profiles_unfold. cbn [snd settings].
      apply store_wf_insert; [apply pointer_key_segments|].
      by apply store_wf_foldl_remove.
    + rewrite set_current_profile_unfold.
      destruct (list_profiles now (settings w)) as [profiles|e]; [|done].
      destruct (decide _); [done|]. cbn [snd selected settings].
      by apply store_wf_insert; [apply pointer_key_segments|].
    + rewrite clear_current_profile_unfold. cbn [snd settings].
      by apply store_wf_insert; [apply pointer_key_segments|].
    + rewrite save_template_writes. cbn [snd written settings].
      by apply store_wf_write_all; [apply template_writes_segments|].
    + rewrite save_symbology_writes. cbn [snd written settings].
      by apply store_wf_write_all; [apply symbology_writes_segments|].
  - intros name v.
    unfold SettingsManager.set_value, update, setValue. cbn [snd settings].
    apply store_wf_insert; [|done].
    unfold full_key. cbn [group new_QgsSettings app].
    apply sanitizeKey_segments.
  - intros name. unfold SettingsManager.remove, update. cbn [snd settings].
    by apply store_wf_remove.
Qed.

Lemma keys_stay_segments_witness :
  store_wf (settings (run sample_now (SaveProfile slashed_profile) empty_manager).2).
Proof.
  destruct (keys_stay_segments sample_now empty_manager) as [Hempty Hkept].
  destruct (Hkept Hempty) as [Hop _].
  exact (Hop (SaveProfile slashed_profile)).
Defined.
